(** * schuko: tracer registry and root-tracer lifecycle

    A shallow embedding of the packages [tracing] (tracing/tracing.go) and
    [trace2go] (tracing/trace2go/root.go) of npillmayer/schuko.

    The Go code keeps its state in package-level variables and in heap
    objects reached through interface values.  Here that state is one
    record, [World], threaded through a state-and-panic monad [M]: a
    computation either returns a value together with the next world or
    panics (calling a method on a nil interface or a nil func).  The
    mutexes of the source are no-ops in this sequential model.

    What the types leave out: a [Configuration] is not nil and its
    [GetString] has no effect; an [io.Writer] passed to [SetOutput] is not
    nil; an adapter returns a tracer, never nil, and builds it anew on
    each call, as the factories of the repository do. *)

From Stdlib Require Import String Ascii.
From stdpp Require Import base option list gmap strings.

Open Scope string_scope.

(** ** package tracing: levels *)

(** [type TraceLevel uint8] with the three constants of the source. *)
Inductive TraceLevel := LevelError | LevelInfo | LevelDebug.

#[global] Instance TraceLevel_eq_dec : EqDecision TraceLevel.
Proof. solve_decision. Defined.

(** The numeric value of a level ([iota] order). *)
Definition level_num (l : TraceLevel) : nat :=
  match l with LevelError => 0 | LevelInfo => 1 | LevelDebug => 2 end.

(** [strings.ToLower], on the ASCII letters.  No other character lowers to
    one of the letters of "debug" or "error", and a string lowering to
    "info" yields the default level anyway, so [TraceLevelFromString] is
    not affected by the restriction. *)
Definition lower_ascii (c : ascii) : ascii :=
  let n := nat_of_ascii c in
  if (65 <=? n)%nat && (n <=? 90)%nat then ascii_of_nat (n + 32) else c.

Fixpoint ToLower (s : string) : string :=
  match s with
  | EmptyString => EmptyString
  | String c r => String (lower_ascii c) (ToLower r)
  end.

Definition TraceLevelFromString (sl : string) : TraceLevel :=
  let s := ToLower sl in
  if String.eqb s "debug" then LevelDebug
  else if String.eqb s "info" then LevelInfo
  else if String.eqb s "error" then LevelError
  else LevelInfo.

(** ** Writers and formatting *)

(** An [io.Writer]: the two process streams or a buffer of the client. *)
Inductive Writer := os_Stderr | os_Stdout | Buffer (id : nat).

#[global] Instance Writer_eq_dec : EqDecision Writer.
Proof. solve_decision. Defined.

(** A variadic argument of the [...f] functions. *)
Inductive Arg := AString (s : string) | ANat (n : nat).

Definition nl : string := String (ascii_of_nat 10) EmptyString.

Fixpoint has_percent (s : string) : bool :=
  match s with
  | EmptyString => false
  | String c r => if Ascii.eqb c "%"%char then true else has_percent r
  end.

(** The three emitting methods of interface [Trace]. *)
Inductive Method := MErrorf | MInfof | MDebugf.

Definition method_level (m : Method) : TraceLevel :=
  match m with MErrorf => LevelError | MInfof => LevelInfo | MDebugf => LevelDebug end.

(** ** Tracers, adapters, configuration *)

(** A [tracing.Trace] interface value: nil, the value type [noOpTrace{}],
    or a pointer to a tracer object. *)
Inductive Trace := Nil | noOpTrace | Ref (l : nat).

#[global] Instance Trace_eq_dec : EqDecision Trace.
Proof. solve_decision. Defined.

(** A [Trace] implementation supplied through an adapter (gologadapter,
    logrusadapter, the test tracers, ...): the level and writer of a new
    instance, what [SetTraceLevel] and [SetOutput] do to them, and the text
    an emitting method writes, if any. [GetTraceLevel] reads the level. *)
Record TraceImpl := {
  impl_level : TraceLevel;
  impl_out : Writer;
  impl_SetTraceLevel : TraceLevel -> TraceLevel -> TraceLevel;
  impl_SetOutput : Writer -> Writer -> Writer;
  impl_emit : Method -> TraceLevel -> string -> list Arg -> option string
}.

(** [type Adapter func() Trace].  The factories are the literal registered
    under "nop", the closure of [rootTracer.init], and the factories of
    adapter packages, which build a new instance per call. *)
Inductive AdapterFn :=
| NopAdapter
| BareAdapter
| ImplAdapter (c : TraceImpl).

(** An [Adapter] value may be nil. *)
Definition Adapter := option AdapterFn.

(** [schuko.Configuration], through the one method the core calls. *)
Definition Configuration := string -> string.

(** [testconfig.Conf] holding string values. *)
Definition Conf (m : gmap string string) : Configuration :=
  fun key => default "" (m !! key).

(** [type rootTracer struct]. *)
Record rootTracer := {
  rt_Trace : Trace;
  config : Configuration;
  prefixKey : string;
  optAdapterKey : string;
  adapter : Adapter;
  replaceChildren : bool
}.

(** Objects behind a [Ref]. *)
Inductive Obj :=
| BareBones (out : option Writer)
| RootTracer (r : rootTracer)
| Tracer (c : TraceImpl) (level : TraceLevel) (out : Writer).

(** [tracing.TraceSelector]: trace2go's selector or one of the client. *)
Inductive TraceSelector :=
| trace2goSelector
| UserSelector (sel : string -> Trace).

(** ** The world *)

Record World := {
  heap : list Obj;
  output : list (Writer * string);
  root : Trace;
  initRoot : bool;
  selectableTracers : gmap string Trace;
  selector : option TraceSelector;
  knownTraceAdapters : gmap string Adapter
}.

(** State at program start: the registry holds "nop" only. *)
Definition init_world : World := {|
  heap := [];
  output := [];
  root := Nil;
  initRoot := false;
  selectableTracers := ∅;
  selector := None;
  knownTraceAdapters := {[ "nop" := Some NopAdapter ]}
|}.

Definition set_heap (h : list Obj) (w : World) : World :=
  {| heap := h; output := output w; root := root w; initRoot := initRoot w;
     selectableTracers := selectableTracers w; selector := selector w;
     knownTraceAdapters := knownTraceAdapters w |}.

Definition set_output (o : list (Writer * string)) (w : World) : World :=
  {| heap := heap w; output := o; root := root w; initRoot := initRoot w;
     selectableTracers := selectableTracers w; selector := selector w;
     knownTraceAdapters := knownTraceAdapters w |}.

Definition set_root (t : Trace) (w : World) : World :=
  {| heap := heap w; output := output w; root := t; initRoot := initRoot w;
     selectableTracers := selectableTracers w; selector := selector w;
     knownTraceAdapters := knownTraceAdapters w |}.

Definition set_initRoot (b : bool) (w : World) : World :=
  {| heap := heap w; output := output w; root := root w; initRoot := b;
     selectableTracers := selectableTracers w; selector := selector w;
     knownTraceAdapters := knownTraceAdapters w |}.

Definition set_selectableTracers (m : gmap string Trace) (w : World) : World :=
  {| heap := heap w; output := output w; root := root w; initRoot := initRoot w;
     selectableTracers := m; selector := selector w;
     knownTraceAdapters := knownTraceAdapters w |}.

Definition set_selector (s : option TraceSelector) (w : World) : World :=
  {| heap := heap w; output := output w; root := root w; initRoot := initRoot w;
     selectableTracers := selectableTracers w; selector := s;
     knownTraceAdapters := knownTraceAdapters w |}.

Definition set_knownTraceAdapters (m : gmap string Adapter) (w : World) : World :=
  {| heap := heap w; output := output w; root := root w; initRoot := initRoot w;
     selectableTracers := selectableTracers w; selector := selector w;
     knownTraceAdapters := m |}.

(** Everything written to [sink] so far. *)
Definition written (w : World) (sink : Writer) : string :=
  foldr (fun e acc => if decide (e.1 = sink) then e.2 ++ acc else acc) "" (output w).

(** ** The monad *)

Inductive Res (A : Type) := Ok (a : A) (w : World) | Panic.
Arguments Ok {A} a w.
Arguments Panic {A}.

Definition M (A : Type) : Type := World -> Res A.

#[global] Instance M_ret : MRet M := fun A a w => Ok a w.
#[global] Instance M_bind : MBind M := fun A B f m w =>
  match m w with
  | Ok a w' => f a w'
  | Panic => Panic
  end.

(** The value a run returned, if it returned. *)
Definition value {A} (r : Res A) : option A :=
  match r with
  | Ok a _ => Some a
  | Panic => None
  end.

Definition panic {A} : M A := fun _ => Panic.
Definition gets {A} (f : World -> A) : M A := fun w => Ok (f w) w.
Definition modify (f : World -> World) : M unit := fun w => Ok tt (f w).

(** Allocation of a new object. *)
Definition alloc (o : Obj) : M Trace := fun w =>
  Ok (Ref (length (heap w))) (set_heap (heap w ++ [o]) w).

(** Dereference of a pointer. *)
Definition deref (l : nat) : M Obj := fun w =>
  match heap w !! l with
  | Some o => Ok o w
  | None => Panic
  end.

Definition store (l : nat) (o : Obj) : M unit :=
  modify (fun w => set_heap (<[l := o]> (heap w)) w).

(** Go's [fmt] verb processing and the line layout of Go's [log.Logger]
    (prefix, time stamp, message) belong to the standard library; they are
    parameters of the development. *)
Class GoLib := {
  fmt_verbs : string -> list Arg -> string;
  log_line : string -> string -> string
}.

Section Tracing.

Context `{GoLib}.

(** [fmt.Sprintf]: a format without verbs and without arguments is printed
    as it is. *)
Definition Sprintf (format : string) (args : list Arg) : string :=
  match args with
  | [] => if has_percent format then fmt_verbs format args else format
  | _ => fmt_verbs format args
  end.

(** [fmt.Fprintf(w, format, args...)]. *)
Definition Fprintf (wr : Writer) (format : string) (args : list Arg) : M unit :=
  modify (fun w => set_output (output w ++ [(wr, Sprintf format args)]) w).

(** ** _BareBonesTrace (trace2go/root.go) *)

Definition BareBones_Debugf (bbt : nat) (msg : string) (args : list Arg) : M unit :=
  mret tt.

Definition BareBones_Infof (bbt : nat) (msg : string) (args : list Arg) : M unit :=
  mret tt.

Definition BareBones_Errorf (bbt : nat) (msg : string) (args : list Arg) : M unit :=
  o ← deref bbt;
  match o with
  | BareBones None => Fprintf os_Stderr ("[ERROR] " ++ msg ++ nl) args
  | BareBones (Some wr) => Fprintf wr msg args
  | _ => panic
  end.

Definition BareBones_P (bbt : nat) (key : string) (val : Arg) : M Trace :=
  mret (Ref bbt).

Definition BareBones_SetTraceLevel (bbt : nat) (l : TraceLevel) : M unit :=
  mret tt.

Definition BareBones_GetTraceLevel (bbt : nat) : M TraceLevel :=
  mret LevelError.

Definition BareBones_SetOutput (bbt : nat) (wr : Writer) : M unit :=
  store bbt (BareBones (Some wr)).

(** ** Adapter-supplied tracers *)

Definition logLevelPrefix (l : TraceLevel) : string :=
  match l with LevelError => "ERROR " | LevelInfo => "INFO  " | LevelDebug => "DEBUG " end.

(** [gologadapter.Tracer]: [New] starts at [LevelError] on [os.Stderr]; a
    method emits when the tracer's level is not below the method's. *)
Definition gologTracer : TraceImpl := {|
  impl_level := LevelError;
  impl_out := os_Stderr;
  impl_SetTraceLevel := fun l _ => l;
  impl_SetOutput := fun wr _ => wr;
  impl_emit := fun m level s args =>
    if (level_num level <? level_num (method_level m))%nat then None
    else Some (log_line (logLevelPrefix (method_level m)) (Sprintf s args))
|}.

(** [testTracer] of the trace2go tests: a [noOpTrace] whose [Infof] writes
    the raw message and whose [SetOutput] redirects. *)
Definition testTracer : TraceImpl := {|
  impl_level := LevelError;
  impl_out := os_Stderr;
  impl_SetTraceLevel := fun _ cur => cur;
  impl_SetOutput := fun wr _ => wr;
  impl_emit := fun m _ s _ => match m with MInfof => Some s | _ => None end
|}.

Definition Tracer_emit (c : TraceImpl) (level : TraceLevel) (out : Writer)
    (m : Method) (msg : string) (args : list Arg) : M unit :=
  match impl_emit c m level msg args with
  | Some text => modify (fun w => set_output (output w ++ [(out, text)]) w)
  | None => mret tt
  end.

(** ** Dynamic dispatch on a [Trace] value

    The [base_] functions dispatch on the tracers an adapter builds; the
    [Trace_] functions add [*rootTracer], whose methods are promoted from
    the embedded [Trace].  No adapter of the model builds a root tracer,
    so a root tracer never embeds one; the [base_] functions have no
    result there. *)

Definition base_emit (m : Method) (t : Trace) (msg : string) (args : list Arg) : M unit :=
  match t with
  | Nil => panic
  | noOpTrace => mret tt
  | Ref l =>
      o ← deref l;
      match o with
      | BareBones _ =>
          match m with
          | MErrorf => BareBones_Errorf l msg args
          | MInfof => BareBones_Infof l msg args
          | MDebugf => BareBones_Debugf l msg args
          end
      | Tracer c level out => Tracer_emit c level out m msg args
      | RootTracer _ => panic
      end
  end.

Definition base_SetTraceLevel (t : Trace) (lv : TraceLevel) : M unit :=
  match t with
  | Nil => panic
  | noOpTrace => mret tt
  | Ref l =>
      o ← deref l;
      match o with
      | BareBones _ => BareBones_SetTraceLevel l lv
      | Tracer c level out => store l (Tracer c (impl_SetTraceLevel c lv level) out)
      | RootTracer _ => panic
      end
  end.

Definition base_GetTraceLevel (t : Trace) : M TraceLevel :=
  match t with
  | Nil => panic
  | noOpTrace => mret LevelError
  | Ref l =>
      o ← deref l;
      match o with
      | BareBones _ => BareBones_GetTraceLevel l
      | Tracer c level out => mret level
      | RootTracer _ => panic
      end
  end.

Definition base_SetOutput (t : Trace) (wr : Writer) : M unit :=
  match t with
  | Nil => panic
  | noOpTrace => mret tt
  | Ref l =>
      o ← deref l;
      match o with
      | BareBones _ => BareBones_SetOutput l wr
      | Tracer c level out => store l (Tracer c level (impl_SetOutput c wr out))
      | RootTracer _ => panic
      end
  end.

(** The embedded [Trace] of the [*rootTracer] behind [t], if [t] is one. *)
Definition embedded (t : Trace) : M Trace :=
  match t with
  | Ref l =>
      o ← deref l;
      match o with
      | RootTracer r => mret (rt_Trace r)
      | _ => mret t
      end
  | _ => mret t
  end.

Definition Trace_emit (m : Method) (t : Trace) (msg : string) (args : list Arg) : M unit :=
  t' ← embedded t; base_emit m t' msg args.

Definition Trace_Errorf := Trace_emit MErrorf.
Definition Trace_Infof := Trace_emit MInfof.
Definition Trace_Debugf := Trace_emit MDebugf.

Definition Trace_SetTraceLevel (t : Trace) (lv : TraceLevel) : M unit :=
  t' ← embedded t; base_SetTraceLevel t' lv.

Definition Trace_GetTraceLevel (t : Trace) : M TraceLevel :=
  t' ← embedded t; base_GetTraceLevel t'.

Definition Trace_SetOutput (t : Trace) (wr : Writer) : M unit :=
  t' ← embedded t; base_SetOutput t' wr.

(** Calling an [Adapter]; calling a nil func panics. *)
Definition call_adapter (a : Adapter) : M Trace :=
  match a with
  | None => panic
  | Some NopAdapter => mret noOpTrace
  | Some BareAdapter => alloc (BareBones None)
  | Some (ImplAdapter c) => alloc (Tracer c (impl_level c) (impl_out c))
  end.

(** ** package trace2go: root and named tracers *)

(** [Root]: the lazy initialisation runs inside [initRoot.Do], a
    [sync.Once], which runs its function on the first call only. *)
Definition Root : M Trace :=
  r ← gets root;
  match r with
  | Nil =>
      done ← gets initRoot;
      (if done : bool then mret tt
       else bb ← alloc (BareBones None);
            modify (set_root bb);;
            modify (set_initRoot true));;
      gets root
  | _ => mret r
  end.

Definition getValue (conf : Configuration) (prefixKey key : string) : string :=
  let v := conf (prefixKey ++ key) in
  if negb (String.eqb v "") then v else
  let v := conf (prefixKey ++ "." ++ key) in
  if negb (String.eqb v "") then v else
  let v := conf (prefixKey ++ "/" ++ key) in
  if negb (String.eqb v "") then v else
  "".

Definition GetTracer (name : string) : M Trace :=
  tbl ← gets selectableTracers;
  match tbl !! name with
  | Some child => mret child
  | None => mret Nil
  end.

(** The type assertion of [t] to a pointer to [rootTracer]. *)
Definition as_rootTracer (t : Trace) : M (option rootTracer) :=
  match t with
  | Ref l =>
      o ← deref l;
      match o with
      | RootTracer r => mret (Some r)
      | _ => mret None
      end
  | _ => mret None
  end.

(** The type assertion of [t] to a pointer to [_BareBonesTrace]. *)
Definition is_BareBones (t : Trace) : M bool :=
  match t with
  | Ref l =>
      o ← deref l;
      match o with
      | BareBones _ => mret true
      | _ => mret false
      end
  | _ => mret false
  end.

Definition NewTracer (name : string) (replace : bool) : M (Trace * Trace) :=
  t ← Root;
  ar ← as_rootTracer t;
  match ar with
  | Some r =>
      trace ← call_adapter (adapter r);
      let level := getValue (config r) (prefixKey r) name in
      Trace_SetTraceLevel trace (TraceLevelFromString level);;
      tbl ← gets selectableTracers;
      match tbl !! name with
      | Some prev =>
          if negb replace then mret (trace, prev)
          else modify (set_selectableTracers (<[name := trace]> tbl));;
               mret (trace, prev)
      | None =>
          modify (set_selectableTracers (<[name := trace]> tbl));;
          mret (trace, Nil)
      end
  | None =>
      t' ← Root;
      mret (t', Nil)
  end.

Definition GetOrCreateTracer (name : string) : M Trace :=
  t ← GetTracer name;
  match t with
  | Nil => p ← NewTracer name false; mret (p.1)
  | _ => mret t
  end.

Definition setTracer (name : string) (trace : Trace) : M Trace :=
  tbl ← gets selectableTracers;
  modify (set_selectableTracers (<[name := trace]> tbl));;
  match tbl !! name with
  | None => mret Nil
  | Some prev =>
      lv ← Trace_GetTraceLevel prev;
      Trace_SetTraceLevel trace lv;;
      mret prev
  end.

(** ** package tracing: selector facade and adapter registry *)

Definition SetTraceSelector (sel : option TraceSelector) : M unit :=
  modify (set_selector sel).

Definition TraceSelector_Select (sel : TraceSelector) (which : string) : M Trace :=
  match sel with
  | trace2goSelector => GetOrCreateTracer which
  | UserSelector f => mret (f which)
  end.

Definition Select (key : string) : M Trace :=
  s ← gets selector;
  match s with
  | Some sel => TraceSelector_Select sel key
  | None => mret noOpTrace
  end.

Definition Debugf (msg : string) (args : list Arg) : M unit :=
  t ← Select "root"; Trace_Debugf t msg args.

Definition Infof (msg : string) (args : list Arg) : M unit :=
  t ← Select "root"; Trace_Infof t msg args.

Definition Errorf (msg : string) (args : list Arg) : M unit :=
  t ← Select "root"; Trace_Errorf t msg args.

Definition RegisterTraceAdapter (key : string) (a : Adapter) (replace : bool) : M unit :=
  Infof ("registering tracing type %q" ++ nl) [AString key];;
  reg ← gets knownTraceAdapters;
  match reg !! key with
  | Some (Some _) =>
      if replace then modify (set_knownTraceAdapters (<[key := a]> reg))
      else mret tt
  | _ => modify (set_knownTraceAdapters (<[key := a]> reg))
  end.

(** The parameter [optKey] is not read by the body. *)
Definition GetAdapterFromConfiguration (conf : Configuration) (optKey : string) : M Adapter :=
  let adapterPackage := conf "tracing.adapter" in
  let adapterPackage :=
    if String.eqb adapterPackage "" then conf "tracing" else adapterPackage in
  reg ← gets knownTraceAdapters;
  match reg !! adapterPackage with
  | Some (Some f) => mret (Some f)
  | _ =>
      Debugf ("no adapter found for tracing type %q" ++ nl) [AString adapterPackage];;
      reg' ← gets knownTraceAdapters;
      mret (default None (reg' !! "bare"))
  end.

(** ** package trace2go: configuring and tearing down the root *)

Definition newRootTracer (conf : Configuration) (prefixKey : string) : rootTracer :=
  {| rt_Trace := Nil; config := conf; prefixKey := prefixKey; optAdapterKey := "";
     adapter := None; replaceChildren := false |}.

(** [rootTracer.init].  The struct is private to [ConfigureRoot] until it
    is installed, so it is passed by value and allocated on installation;
    [t.SetTraceLevel] is the promoted method of the embedded [Trace]. *)
Definition rootTracer_init (t : rootTracer) : M rootTracer :=
  a ← GetAdapterFromConfiguration (config t) (optAdapterKey t);
  let a := match a with None => Some BareAdapter | Some f => Some f end in
  tr ← call_adapter a;
  let l := getValue (config t) (prefixKey t) "root" in
  (if negb (String.eqb l "") then Trace_SetTraceLevel tr (TraceLevelFromString l)
   else mret tt);;
  mret {| rt_Trace := tr; config := config t; prefixKey := prefixKey t;
          optAdapterKey := optAdapterKey t; adapter := a;
          replaceChildren := replaceChildren t |}.

(** A Go [error]; nil is [None]. *)
Definition error := string.

(** [type RootOption], a function from a pointer to a [rootTracer] to an
    [error]: the struct after the call and the error returned. *)
Definition RootOption := rootTracer -> rootTracer * option error.

Definition ReplaceTracers (replace : bool) : RootOption := fun r =>
  ({| rt_Trace := rt_Trace r; config := config r; prefixKey := prefixKey r;
      optAdapterKey := optAdapterKey r; adapter := adapter r;
      replaceChildren := replace |}, None).

Definition AdapterKey (key : string) : RootOption := fun r =>
  ({| rt_Trace := rt_Trace r; config := config r; prefixKey := prefixKey r;
      optAdapterKey := key; adapter := adapter r;
      replaceChildren := replaceChildren r |}, None).

(** The loop over [opts], which stops at the first error. *)
Fixpoint apply_options (opts : list RootOption) (r : rootTracer) : rootTracer * option error :=
  match opts with
  | [] => (r, None)
  | opt :: rest =>
      match opt r with
      | (r', Some err) => (r', Some err)
      | (r', None) => apply_options rest r'
      end
  end.

Definition dquote : string := String (ascii_of_nat 34) EmptyString.

(** The body of the loop over the named tracers, for key [k]; [rt] points
    to the new root [r]. *)
Definition replaceTracer (rt : Trace) (r : rootTracer) (k : string) : M unit :=
  if String.eqb k "root" then mret tt
  else
    Trace_Errorf rt ("replacing tracer " ++ dquote ++ "%s" ++ dquote) [AString k];;
    ch ← call_adapter (adapter r);
    prevCh ← setTracer k ch;
    Trace_Infof prevCh "replacing this tracer" [];;
    Trace_Infof ch "welcome to the new tracer" [].

Fixpoint replaceTracers_loop (rt : Trace) (r : rootTracer) (ks : list string) : M unit :=
  match ks with
  | [] => mret tt
  | k :: rest => replaceTracer rt r k;; replaceTracers_loop rt r rest
  end.

(** [ConfigureRoot].  Go ranges over the map in an unspecified order; the
    model ranges in the order of [map_to_list]. *)
Definition ConfigureRoot (conf : Configuration) (prefixKey : string)
    (opts : list RootOption) : M (option error) :=
  match apply_options opts (newRootTracer conf prefixKey) with
  | (_, Some err) => mret (Some err)
  | (r, None) =>
      r ← rootTracer_init r;
      old ← gets root;
      isBB ← is_BareBones old;
      if bool_decide (old = Nil) || isBB then
        rt ← alloc (RootTracer r);
        modify (set_root rt);;
        mret None
      else
        Trace_Infof old "replacing root tracer" [];;
        rt ← alloc (RootTracer r);
        modify (set_root rt);;
        Trace_Infof rt "welcome to the new root tracer" [];;
        (if replaceChildren r then
           tbl ← gets selectableTracers;
           replaceTracers_loop rt r (map_to_list tbl).*1
         else mret tt);;
        mret None
  end.

Definition Teardown : M unit :=
  Fprintf os_Stdout ("Tearing down trace2go tracing" ++ nl) [];;
  modify (set_selectableTracers ∅);;
  modify (set_root Nil);;
  SetTraceSelector None.

(** ** Process histories *)

(** The calls a client can make on the two packages and on the tracers
    it holds. *)
Inductive Call :=
| CallRoot
| CallConfigureRoot (conf : Configuration) (prefixKey : string) (opts : list RootOption)
| CallTeardown
| CallGetTracer (name : string)
| CallGetOrCreateTracer (name : string)
| CallNewTracer (name : string) (replace : bool)
| CallSelect (key : string)
| CallSetTraceSelector (sel : option TraceSelector)
| CallRegisterTraceAdapter (key : string) (a : Adapter) (replace : bool)
| CallGetAdapterFromConfiguration (conf : Configuration) (optKey : string)
| CallFacade (m : Method) (msg : string) (args : list Arg)
| CallEmit (m : Method) (t : Trace) (msg : string) (args : list Arg)
| CallSetTraceLevel (t : Trace) (lv : TraceLevel)
| CallGetTraceLevel (t : Trace)
| CallSetOutput (t : Trace) (wr : Writer).

Definition do_call (c : Call) : M unit :=
  match c with
  | CallRoot => Root;; mret tt
  | CallConfigureRoot conf p opts => ConfigureRoot conf p opts;; mret tt
  | CallTeardown => Teardown
  | CallGetTracer n => GetTracer n;; mret tt
  | CallGetOrCreateTracer n => GetOrCreateTracer n;; mret tt
  | CallNewTracer n b => NewTracer n b;; mret tt
  | CallSelect k => Select k;; mret tt
  | CallSetTraceSelector s => SetTraceSelector s
  | CallRegisterTraceAdapter k a b => RegisterTraceAdapter k a b
  | CallGetAdapterFromConfiguration conf k => GetAdapterFromConfiguration conf k;; mret tt
  | CallFacade MErrorf msg args => Errorf msg args
  | CallFacade MInfof msg args => Infof msg args
  | CallFacade MDebugf msg args => Debugf msg args
  | CallEmit m t msg args => Trace_emit m t msg args
  | CallSetTraceLevel t lv => Trace_SetTraceLevel t lv
  | CallGetTraceLevel t => Trace_GetTraceLevel t;; mret tt
  | CallSetOutput t wr => Trace_SetOutput t wr
  end.

(** The worlds a process can be in: the initial one and those a call that
    returns leads to. *)
Inductive reachable : World -> Prop :=
| reachable_init : reachable init_world
| reachable_call w c w' :
    reachable w -> do_call c w = Ok tt w' -> reachable w'.

Fixpoint exec (cs : list Call) : M unit :=
  match cs with
  | [] => mret tt
  | c :: rest => do_call c;; exec rest
  end.

(** The world after the calls [cs] from the start ([init_world] itself if
    one of them panics). *)
Definition after (cs : list Call) : World :=
  match exec cs init_world with
  | Ok _ w => w
  | Panic => init_world
  end.

(** ** Well-formed worlds *)

(** [t] is a tracer as an adapter builds it. *)
Definition base_valid (h : list Obj) (t : Trace) : Prop :=
  match t with
  | Nil => False
  | noOpTrace => True
  | Ref l =>
      match h !! l with
      | Some (BareBones _) | Some (Tracer _ _ _) => True
      | _ => False
      end
  end.

(** [t] is a tracer whose methods can be called. *)
Definition valid (h : list Obj) (t : Trace) : Prop :=
  match t with
  | Nil => False
  | noOpTrace => True
  | Ref l =>
      match h !! l with
      | Some (RootTracer r) => base_valid h (rt_Trace r)
      | Some _ => True
      | None => False
      end
  end.

(** What the variable [root] can hold: nil, a bare-bones tracer, or a
    root tracer after [init]. *)
Definition root_ok (h : list Obj) (t : Trace) : Prop :=
  match t with
  | Nil => True
  | noOpTrace => False
  | Ref l =>
      match h !! l with
      | Some (BareBones _) => True
      | Some (RootTracer r) => base_valid h (rt_Trace r) /\ adapter r <> None
      | _ => False
      end
  end.

(** The root is a configured [rootTracer]. *)
Definition configured (w : World) : Prop :=
  match root w with
  | Ref l => match heap w !! l with Some (RootTracer _) => True | _ => False end
  | _ => False
  end.

#[global] Instance configured_dec (w : World) : Decision (configured w).
Proof. unfold configured. repeat case_match; apply _. Defined.

Record Inv (w : World) : Prop := {
  inv_root : root_ok (heap w) (root w);
  inv_table : map_Forall (fun _ t => base_valid (heap w) t) (selectableTracers w);
  inv_empty : ~ configured w -> selectableTracers w = ∅
}.

(** [Root] will not return nil: a root is installed or the once-guard is
    unused. *)
Definition root_available (w : World) : Prop :=
  root w <> Nil \/ initRoot w = false.

(** The installed selector yields a usable tracer for "root": it is the
    default one, trace2go's with a root to hand out, or one of the client
    that returns a tracer. *)
Definition selector_ok (w : World) : Prop :=
  match selector w with
  | None => True
  | Some trace2goSelector => root_available w
  | Some (UserSelector f) => valid (heap w) (f "root")
  end.

(** Every object of [h] is in [h'], unchanged. *)
Definition heap_sub (h h' : list Obj) : Prop :=
  forall l o, h !! l = Some o -> h' !! l = Some o.

(** The level [GetTraceLevel] reports for a tracer an adapter built. *)
Definition base_level (h : list Obj) (t : Trace) : TraceLevel :=
  match t with
  | Ref l => match h !! l with Some (Tracer _ lv _) => lv | _ => LevelError end
  | _ => LevelError
  end.

(** The level [GetTraceLevel] reports, also through a root tracer. *)
Definition level_of (h : list Obj) (t : Trace) : TraceLevel :=
  match t with
  | Ref l =>
      match h !! l with
      | Some (RootTracer r) => base_level h (rt_Trace r)
      | _ => base_level h t
      end
  | _ => LevelError
  end.

(** The heap after [SetTraceLevel lv] on a tracer an adapter built. *)
Definition set_level (h : list Obj) (t : Trace) (lv : TraceLevel) : list Obj :=
  match t with
  | Ref l =>
      match h !! l with
      | Some (Tracer c cur out) => <[l := Tracer c (impl_SetTraceLevel c lv cur) out]> h
      | _ => h
      end
  | _ => h
  end.

(** [t] was allocated after the heap had the extent of [h]. *)
Definition fresh_in (h : list Obj) (t : Trace) : Prop :=
  match t with
  | Ref l => length h <= l
  | _ => True
  end.

(** The globals of package tracing are the same in [w] and [w']. *)
Definition keeps (w w' : World) : Prop :=
  selector w' = selector w /\ knownTraceAdapters w' = knownTraceAdapters w.

(** What a call through the facade guarantees when it returns. *)
Definition facade_post (w w' : World) : Prop :=
  Inv w' /\ heap_sub (heap w) (heap w') /\ keeps w w' /\
  (configured w -> root w' = root w) /\
  (~ configured w -> ~ configured w') /\
  (forall k, k <> "root" -> selectableTracers w' !! k = selectableTracers w !! k).

(** The adapter [GetAdapterFromConfiguration] resolves from a registry. *)
Definition resolve (conf : Configuration) (reg : gmap string Adapter) : Adapter :=
  let adapterPackage := conf "tracing.adapter" in
  let adapterPackage :=
    if String.eqb adapterPackage "" then conf "tracing" else adapterPackage in
  match reg !! adapterPackage with
  | Some (Some f) => Some f
  | _ => default None (reg !! "bare")
  end.

(** The registry after [RegisterTraceAdapter key a replace]. *)
Definition registered (key : string) (a : Adapter) (replace : bool)
    (reg : gmap string Adapter) : gmap string Adapter :=
  match reg !! key with
  | Some (Some _) => if replace then <[key := a]> reg else reg
  | _ => <[key := a]> reg
  end.

(** The level a tracer built by adapter [a] reports after
    [SetTraceLevel lv]. *)
Definition inherited_level (a : Adapter) (lv : TraceLevel) : TraceLevel :=
  match a with
  | Some (ImplAdapter c) => impl_SetTraceLevel c lv (impl_level c)
  | _ => LevelError
  end.

(** The named tracer [prev] of world [w] has a replacement in [w']: a
    tracer built by adapter [a] after the heap of [w], on which
    [SetTraceLevel] was called with the level of [prev]. *)
Definition replaced_by (a : Adapter) (w w' : World) (k : string) (prev : Trace) : Prop :=
  exists ch, selectableTracers w' !! k = Some ch /\
    base_valid (heap w') ch /\ fresh_in (heap w) ch /\
    level_of (heap w') ch = inherited_level a (level_of (heap w) prev).

(** What [ConfigureRoot] leaves when the options gave [r0] without an
    error: a new root tracer with the fields of [r0] and the resolved
    adapter; the named tracers other than "root" are replaced when a
    configured root was installed and [replaceChildren] is set, and are
    kept otherwise. *)
Definition configure_post (r0 : rootTracer) (w w' : World) : Prop :=
  exists l r', root w' = Ref l /\ heap w' !! l = Some (RootTracer r') /\
    length (heap w) <= l /\
    config r' = config r0 /\ prefixKey r' = prefixKey r0 /\
    optAdapterKey r' = optAdapterKey r0 /\ replaceChildren r' = replaceChildren r0 /\
    adapter r' =
      Some (default BareAdapter (resolve (config r0) (knownTraceAdapters w))) /\
    Inv w' /\ heap_sub (heap w) (heap w') /\ keeps w w' /\
    (forall k prev, k <> "root" -> selectableTracers w !! k = Some prev ->
       if bool_decide (configured w) && replaceChildren r0
       then replaced_by (adapter r') w w' k prev
       else selectableTracers w' !! k = Some prev).

(** [o'] is [o] after a method call: the same type of object, and the
    same struct for a root tracer. *)
Definition same_kind (o o' : Obj) : Prop :=
  match o, o' with
  | BareBones _, BareBones _ => True
  | RootTracer r, RootTracer r' => r = r'
  | Tracer _ _ _, Tracer _ _ _ => True
  | _, _ => False
  end.

(** An implementation whose [SetTraceLevel] stores the level it is given. *)
Definition honours_level (c : TraceImpl) : Prop :=
  forall l cur, impl_SetTraceLevel c l cur = l.

(** ** Sample configurations and histories *)

(** A configuration that selects the adapter registered as "go". *)
Definition conf_go : Configuration := Conf {[ "tracing.adapter" := "go" ]}.

(** A configuration that selects the built-in "nop" adapter. *)
Definition conf_nop : Configuration := Conf {[ "tracing.adapter" := "nop" ]}.

(** A configuration that names the "nop" adapter under a key of its own. *)
Definition conf_own_key : Configuration := Conf {[ "my.adapter" := "nop" ]}.

(** The root is created lazily and then torn down. *)
Definition lazy_then_teardown : list Call := [CallRoot; CallTeardown].

(** As before, and trace2go's selector is installed again. *)
Definition lazy_teardown_select : list Call :=
  [CallRoot; CallTeardown; CallSetTraceSelector (Some trace2goSelector)].

(** gologadapter is registered as "go" and the root is configured with it. *)
Definition golog_root : list Call :=
  [CallRegisterTraceAdapter "go" (Some (ImplAdapter gologTracer)) true;
   CallSetTraceSelector (Some trace2goSelector);
   CallConfigureRoot conf_go "" []].

(** As before, and the tracer "a" is created. *)
Definition golog_root_a : list Call :=
  golog_root ++ [CallGetOrCreateTracer "a"].

(** With the tracer "a" in the table, the root is configured again, with
    the "nop" adapter and the named tracers to be replaced. *)
Definition golog_then_nop : list Call :=
  golog_root_a ++ [CallConfigureRoot conf_nop "" [ReplaceTracers true]].

(** The factory of the trace2go tests, registered as "test". *)
Definition getTT : Adapter := Some (ImplAdapter testTracer).

Definition register_test : list Call :=
  [CallRegisterTraceAdapter "test" getTT true].

Definition register_test_twice : list Call :=
  register_test ++ [CallRegisterTraceAdapter "test" getTT false].

End Tracing.


(** An instance of the library parameters, for running the model. *)
Definition plain_go : GoLib := {|
  fmt_verbs := fun format _ => format;
  log_line := fun prefix msg => prefix ++ msg ++ nl
|}.

(** * Further code of the repository *)

Section MoreCode.

Context `{GoLib}.

(** ** package tracing (tracing/tracing.go) *)

(** [TraceLevel.String], on the three constants. *)
Definition TraceLevel_String (tl : TraceLevel) : string :=
  match tl with
  | LevelDebug => "Debug"
  | LevelInfo => "Info"
  | LevelError => "Error"
  end.


(** ** package schuko (schuko.go): its own adapter registry *)

Definition schuko_knownTraceAdapters : gmap string Adapter :=
  {[ "go" := Some (ImplAdapter gologTracer) ]}.

Definition schuko_AddTraceAdapter (key : string) (a : Adapter)
    (reg : gmap string Adapter) : gmap string Adapter :=
  <[key := a]> reg.

(** [schuko.GetAdapterFromConfiguration]: a missing key reads as nil, and
    nil is replaced by gologadapter's factory. *)
Definition schuko_GetAdapterFromConfiguration (conf : Configuration)
    (reg : gmap string Adapter) : Adapter :=
  match default None (reg !! conf "tracing") with
  | None => Some (ImplAdapter gologTracer)
  | Some f => Some f
  end.

(** ** package testadapter: [Conf], a map from keys to strings *)

Definition testadapter_New : gmap string string := ∅.

(** [Conf.Set] returns the old value and the map after the call. *)
Definition testadapter_Set (key value : string) (c : gmap string string)
    : string * gmap string string :=
  (default "" (c !! key), <[key := value]> c).

Definition testadapter_IsSet (key : string) (c : gmap string string) : bool :=
  bool_decide (is_Some (c !! key)).

Definition testadapter_GetString (key : string) (c : gmap string string) : string :=
  default "" (c !! key).

(** [Conf.GetBool].  [strings.EqualFold(v, "true")]: the letters of "true"
    fold with their ASCII capitals only. *)
Definition testadapter_GetBool (key : string) (c : gmap string string) : bool :=
  match c !! key with
  | None => false
  | Some v => String.eqb (ToLower v) "true"
  end.

(** ** package gotestingadapter (tracing/gotestingadapter/gotestingadapter.go) *)

(** [gotestingadapter.Tracer] for the [testing.T] number [t], which is not
    nil: the log of [t] is kept as the buffer of that number, and [Logf]
    gives the text [t.Logf] appends to it.  [SetOutput] is ignored.  This
    is the tracer as an adapter builds it and the [Trace] methods other
    than [P] leave it, with the prefix [p] empty; [testing_Tracer] below has
    the field [p] and the method [P]. *)
Definition gotestingTracer (Logf : string -> list Arg -> string) (t : nat) : TraceImpl := {|
  impl_level := LevelError;
  impl_out := Buffer t;
  impl_SetTraceLevel := fun l _ => l;
  impl_SetOutput := fun _ cur => cur;
  impl_emit := fun m level s args =>
    if (level_num level <? level_num (method_level m))%nat then None
    else Some (Logf (logLevelPrefix (method_level m) ++ s) args)
|}.

Definition gotesting_GetAdapter (Logf : string -> list Arg -> string) (t : nat) : Adapter :=
  Some (ImplAdapter (gotestingTracer Logf t)).

(** [gotestingadapter.Tracer] with all its fields: the [testing.T] (nil
    or the number of its log), the prefix [p] that [P] leaves for the next
    message, and the level, a [uint8].  [gotestingTracer] above is this
    tracer with a [testing.T] while [p] is empty. *)
Record testing_Tracer := {
  tr_t : option nat;
  tr_p : string;
  tr_level : nat
}.

(** [New(t)] and the function [GetAdapter(t)] returns. *)
Definition gotesting_New (t : option nat) : testing_Tracer :=
  {| tr_t := t; tr_p := ""; tr_level := level_num LevelError |}.

(** [Tracer.P]: the type switch on [val] chooses the verb; [tr] is
    returned. *)
Definition gotesting_P (key : string) (val : Arg) (tr : testing_Tracer) : testing_Tracer :=
  let p :=
    match val with
    | ANat _ => fmt_verbs "[%s=%d] " [AString key; val]
    | AString _ => fmt_verbs "[%s=%s] " [AString key; val]
    end in
  {| tr_t := tr_t tr; tr_p := p; tr_level := tr_level tr |}.

(** [Tracer.output]: the tracer afterwards and the entry appended to a
    test log, if any.  [fmt.Sprintf("%s%s", a, b)] is the two strings one
    after the other. *)
Definition gotesting_output (Logf : string -> list Arg -> string)
    (globalTestingT : option nat) (l : TraceLevel) (s : string) (args : list Arg)
    (tr : testing_Tracer) : testing_Tracer * option (Writer * string) :=
  match tr_t tr with
  | Some t =>
      let prefix := logLevelPrefix l ++ tr_p tr in
      ({| tr_t := tr_t tr; tr_p := ""; tr_level := tr_level tr |},
       Some (Buffer t, Logf (prefix ++ s) args))
  | None =>
      match globalTestingT with
      | Some g =>
          let prefix := logLevelPrefix l ++ tr_p tr in
          ({| tr_t := tr_t tr; tr_p := ""; tr_level := tr_level tr |},
           Some (Buffer g, Logf (("depr." ++ prefix) ++ s) args))
      | None => (tr, None)
      end
  end.

(** [Tracer.Debugf], [Infof] and [Errorf]. *)
Definition gotesting_emit (Logf : string -> list Arg -> string)
    (globalTestingT : option nat) (m : Method) (s : string) (args : list Arg)
    (tr : testing_Tracer) : testing_Tracer * option (Writer * string) :=
  if (tr_level tr <? level_num (method_level m))%nat then (tr, None)
  else gotesting_output Logf globalTestingT (method_level m) s args tr.

Definition gotesting_SetTraceLevel (l : nat) (tr : testing_Tracer) : testing_Tracer :=
  {| tr_t := tr_t tr; tr_p := ""; tr_level := l |}.

Definition gotesting_GetTraceLevel (tr : testing_Tracer) : nat := tr_level tr.

(** The configuration [QuickConfig] builds for the names [selectors]. *)
Definition QuickConfig_conf (selectors : list string) : gmap string string :=
  foldl (fun c sel => <["tracelevel." ++ sel := "Debug"]> c)
    (<["tracelevel.root" := "Debug"]> {[ "tracing.adapter" := "test" ]}) selectors.

(** [QuickConfig].  [t.Fatal] does not return; the function returned is
    [Teardown]. *)
Definition QuickConfig (Logf : string -> list Arg -> string) (t : nat)
    (selectors : list string) : M unit :=
  RegisterTraceAdapter "test" (gotesting_GetAdapter Logf t) true;;
  err ← ConfigureRoot (Conf (QuickConfig_conf selectors)) "tracelevel" [ReplaceTracers true];
  match err with
  | Some _ => panic
  | None => SetTraceSelector (Some trace2goSelector)
  end.

(** ** Levels and results used in the statements *)

(** The level of a tracer as the factory [a] builds it. *)
Definition factory_level (a : Adapter) : TraceLevel :=
  match a with
  | Some (ImplAdapter c) => impl_level c
  | _ => LevelError
  end.

(** The level [rootTracer.init] leaves on the tracer built by [a], for
    the value [l] found for the key of "root". *)
Definition init_level (a : Adapter) (l : string) : TraceLevel :=
  if String.eqb l "" then factory_level a
  else inherited_level a (TraceLevelFromString l).

(** An option of the package: [ReplaceTracers] or [AdapterKey]. *)
Definition builtin_option (o : RootOption) : Prop :=
  (exists b, o = ReplaceTracers b) \/ (exists k, o = AdapterKey k).

(** ** package logrusadapter (tracing/logrusadapter/logrusadapter.go) *)

(** [logrus.Level], the seven levels of the logrus library in their order. *)
Inductive logrus_Level :=
| logrus_PanicLevel | logrus_FatalLevel | logrus_ErrorLevel | logrus_WarnLevel
| logrus_InfoLevel | logrus_DebugLevel | logrus_TraceLevel.

Definition translateLogLevel (l : logrus_Level) : TraceLevel :=
  match l with
  | logrus_DebugLevel => LevelDebug
  | logrus_InfoLevel => LevelInfo
  | logrus_ErrorLevel => LevelError
  | _ => LevelDebug
  end.

(** [translateTraceLevel], on the numeric value of its argument:
    [TraceLevel] is a [uint8], and a value that is none of the three
    constants takes the [return] after the switch. *)
Definition translateTraceLevel (l : nat) : logrus_Level :=
  if Nat.eqb l (level_num LevelDebug) then logrus_DebugLevel
  else if Nat.eqb l (level_num LevelInfo) then logrus_InfoLevel
  else if Nat.eqb l (level_num LevelError) then logrus_ErrorLevel
  else logrus_DebugLevel.

(** [Tracer.SetTraceLevel] and [Tracer.GetTraceLevel] of logrusadapter, on
    the level of the tracer's logger. *)
Definition logrus_SetTraceLevel (l : nat) (log_Level : logrus_Level) : logrus_Level :=
  translateTraceLevel l.

Definition logrus_GetTraceLevel (log_Level : logrus_Level) : TraceLevel :=
  translateLogLevel log_Level.

(** ** Tracing destinations (tracing/tracing.go, tracing/appender/appender.go) *)

(** An [io.WriteCloser] as [Destination] returns it: nil, a nil pointer to
    an [os.File] inside the interface (what [return os.Create(fname)] gives
    when [os.Create] fails), or a writer. *)
Inductive WriteCloser := NilWC | NilFile | WC (w : Writer).

(** What net/url, os and path/filepath answer.  [url.Parse] gives the
    scheme, host and path of the URL or an error; [os.OpenFile] (with the
    flags of [Destination]) and [os.Create] give a file or an error. *)
Class GoOS := {
  url_Parse : string -> (string * string * string) + error;
  os_OpenFile : string -> Writer + error;
  os_Create : string -> Writer + error;
  os_MkdirAll : string -> option error;
  filepath_Dir : string -> string;
  is_ErrNotExist : error -> bool
}.

Context `{GoOS}.

(** [tracing.Destination].  No character outside ASCII lowers to a letter
    of "stdout" or "stderr", and the scheme of a parsed URL is ASCII, so
    [ToLower] on the ASCII letters decides the three comparisons as
    [strings.ToLower] does. *)
Definition tracing_Destination (dest : string) : WriteCloser * option error :=
  if String.eqb (ToLower dest) "stdout" then (WC os_Stdout, None)
  else if String.eqb (ToLower dest) "stderr" then (WC os_Stderr, None)
  else
    match url_Parse dest with
    | inr err => (WC os_Stderr, Some err)
    | inl (Scheme, Host, Path) =>
        if String.eqb (ToLower Scheme) "file" then
          let fname := if String.eqb Path "" then Host else Path in
          match os_OpenFile fname with
          | inl f => (WC f, None)
          | inr err =>
              if is_ErrNotExist err then
                match os_Create fname with
                | inl f => (WC f, None)
                | inr err => (NilFile, Some err)
                end
              else (NilWC, Some err)
          end
        else (WC os_Stderr, None)
    end.

(** [appender.Destination], which also creates the directory of the file. *)
Definition appender_Destination (dest : string) : WriteCloser * option error :=
  if String.eqb (ToLower dest) "stdout" then (WC os_Stdout, None)
  else if String.eqb (ToLower dest) "stderr" then (WC os_Stderr, None)
  else
    match url_Parse dest with
    | inr err => (WC os_Stderr, Some err)
    | inl (Scheme, Host, Path) =>
        if String.eqb (ToLower Scheme) "file" then
          let fname := if String.eqb Path "" then Host else Path in
          match os_OpenFile fname with
          | inl f => (WC f, None)
          | inr err =>
              if is_ErrNotExist err then
                match os_MkdirAll (filepath_Dir fname) with
                | Some err => (NilWC, Some err)
                | None =>
                    match os_Create fname with
                    | inl f => (WC f, None)
                    | inr err => (NilFile, Some err)
                    end
                end
              else (NilWC, Some err)
          end
        else (WC os_Stderr, None)
    end.

(** [appender.AppenderFromConfig]; [fmt.Errorf] with the verb [%w] formats
    the wrapped error like [fmt_verbs], and [err.Error()] is that text. *)
Definition AppenderFromConfig (conf : Configuration) : M (WriteCloser * option error) :=
  let dest := conf "tracing.destination" in
  if negb (String.eqb dest "") then
    Infof ("opening tracing destination %q" ++ nl) [AString dest];;
    match appender_Destination dest with
    | (_, Some err) =>
        let err := fmt_verbs "re-directing trace output failed: %w" [AString err] in
        Errorf err [];;
        mret (WC os_Stderr, Some err)
    | (w, None) => mret (w, None)
    end
  else mret (WC os_Stderr, None).

(** ** package gtrace *)

(** The global tracers of package gtrace.  Its [NoOpTrace] is a type of
    its own with the methods of [tracing.NoOpTrace()], and is modelled by
    the same value. *)
Record gtraceVars := {
  EquationsTracer : Trace;
  InterpreterTracer : Trace;
  SyntaxTracer : Trace;
  CommandTracer : Trace;
  GraphicsTracer : Trace;
  ScriptingTracer : Trace;
  CoreTracer : Trace;
  EngineTracer : Trace
}.

Definition gtrace_init : gtraceVars := {|
  EquationsTracer := noOpTrace; InterpreterTracer := noOpTrace;
  SyntaxTracer := noOpTrace; CommandTracer := noOpTrace;
  GraphicsTracer := noOpTrace; ScriptingTracer := noOpTrace;
  CoreTracer := noOpTrace; EngineTracer := noOpTrace
|}.

Definition set_EquationsTracer (t : Trace) (g : gtraceVars) : gtraceVars :=
  {| EquationsTracer := t; InterpreterTracer := InterpreterTracer g;
     SyntaxTracer := SyntaxTracer g; CommandTracer := CommandTracer g;
     GraphicsTracer := GraphicsTracer g; ScriptingTracer := ScriptingTracer g;
     CoreTracer := CoreTracer g; EngineTracer := EngineTracer g |}.

Definition set_InterpreterTracer (t : Trace) (g : gtraceVars) : gtraceVars :=
  {| EquationsTracer := EquationsTracer g; InterpreterTracer := t;
     SyntaxTracer := SyntaxTracer g; CommandTracer := CommandTracer g;
     GraphicsTracer := GraphicsTracer g; ScriptingTracer := ScriptingTracer g;
     CoreTracer := CoreTracer g; EngineTracer := EngineTracer g |}.

Definition set_SyntaxTracer (t : Trace) (g : gtraceVars) : gtraceVars :=
  {| EquationsTracer := EquationsTracer g; InterpreterTracer := InterpreterTracer g;
     SyntaxTracer := t; CommandTracer := CommandTracer g;
     GraphicsTracer := GraphicsTracer g; ScriptingTracer := ScriptingTracer g;
     CoreTracer := CoreTracer g; EngineTracer := EngineTracer g |}.

Definition set_CommandTracer (t : Trace) (g : gtraceVars) : gtraceVars :=
  {| EquationsTracer := EquationsTracer g; InterpreterTracer := InterpreterTracer g;
     SyntaxTracer := SyntaxTracer g; CommandTracer := t;
     GraphicsTracer := GraphicsTracer g; ScriptingTracer := ScriptingTracer g;
     CoreTracer := CoreTracer g; EngineTracer := EngineTracer g |}.

Definition set_GraphicsTracer (t : Trace) (g : gtraceVars) : gtraceVars :=
  {| EquationsTracer := EquationsTracer g; InterpreterTracer := InterpreterTracer g;
     SyntaxTracer := SyntaxTracer g; CommandTracer := CommandTracer g;
     GraphicsTracer := t; ScriptingTracer := ScriptingTracer g;
     CoreTracer := CoreTracer g; EngineTracer := EngineTracer g |}.

Definition set_ScriptingTracer (t : Trace) (g : gtraceVars) : gtraceVars :=
  {| EquationsTracer := EquationsTracer g; InterpreterTracer := InterpreterTracer g;
     SyntaxTracer := SyntaxTracer g; CommandTracer := CommandTracer g;
     GraphicsTracer := GraphicsTracer g; ScriptingTracer := t;
     CoreTracer := CoreTracer g; EngineTracer := EngineTracer g |}.

Definition set_CoreTracer (t : Trace) (g : gtraceVars) : gtraceVars :=
  {| EquationsTracer := EquationsTracer g; InterpreterTracer := InterpreterTracer g;
     SyntaxTracer := SyntaxTracer g; CommandTracer := CommandTracer g;
     GraphicsTracer := GraphicsTracer g; ScriptingTracer := ScriptingTracer g;
     CoreTracer := t; EngineTracer := EngineTracer g |}.

Definition set_EngineTracer (t : Trace) (g : gtraceVars) : gtraceVars :=
  {| EquationsTracer := EquationsTracer g; InterpreterTracer := InterpreterTracer g;
     SyntaxTracer := SyntaxTracer g; CommandTracer := CommandTracer g;
     GraphicsTracer := GraphicsTracer g; ScriptingTracer := ScriptingTracer g;
     CoreTracer := CoreTracer g; EngineTracer := t |}.

(** The assignments of [CreateTracers] in their order.  A call of a nil
    adapter panics; the deferred function recovers and sets the error, and
    the variables assigned before the panic keep their new values. *)
Fixpoint CreateTracers_from (newTrace : Adapter)
    (vars : list (Trace -> gtraceVars -> gtraceVars))
    (g : gtraceVars) (w : World) : gtraceVars * option error * World :=
  match vars with
  | [] => (g, None, w)
  | set :: rest =>
      match call_adapter newTrace w with
      | Ok t w1 => CreateTracers_from newTrace rest (set t g) w1
      | Panic => (g, Some "unable to create global tracers", w)
      end
  end.

Definition CreateTracers (newTrace : Adapter) (g : gtraceVars) (w : World)
    : gtraceVars * option error * World :=
  CreateTracers_from newTrace
    [set_EquationsTracer; set_InterpreterTracer; set_SyntaxTracer; set_CommandTracer;
     set_GraphicsTracer; set_ScriptingTracer; set_CoreTracer; set_EngineTracer] g w.

Definition Mute (g : gtraceVars) : M unit :=
  Trace_SetTraceLevel (InterpreterTracer g) LevelError;;
  Trace_SetTraceLevel (CommandTracer g) LevelError;;
  Trace_SetTraceLevel (EquationsTracer g) LevelError;;
  Trace_SetTraceLevel (SyntaxTracer g) LevelError;;
  Trace_SetTraceLevel (GraphicsTracer g) LevelError;;
  Trace_SetTraceLevel (ScriptingTracer g) LevelError;;
  Trace_SetTraceLevel (CoreTracer g) LevelError;;
  Trace_SetTraceLevel (EngineTracer g) LevelError.

(** The eight global tracers. *)
Definition gtracers (g : gtraceVars) : list Trace :=
  [EquationsTracer g; InterpreterTracer g; SyntaxTracer g; CommandTracer g;
   GraphicsTracer g; ScriptingTracer g; CoreTracer g; EngineTracer g].

(** [t] is the no-op or a bare-bones tracer, or a tracer whose
    implementation stores the level it is given. *)
Definition takes_level (h : list Obj) (t : Trace) : Prop :=
  match t with
  | Ref l =>
      match h !! l with
      | Some (Tracer c _ _) => honours_level c
      | Some (BareBones _) => True
      | _ => False
      end
  | noOpTrace => True
  | Nil => False
  end.

End MoreCode.

(** An instance of the operating-system parameters, for running the model:
    every destination parses as a path and every file opens. *)
Definition plain_os : GoOS := {|
  url_Parse := fun dest => inl (EmptyString, EmptyString, dest);
  os_OpenFile := fun _ => inl (Buffer 0);
  os_Create := fun _ => inl (Buffer 0);
  os_MkdirAll := fun _ => None;
  filepath_Dir := fun fname => fname;
  is_ErrNotExist := fun _ => false
|}.

(** * Properties *)

Section Theory.

Context `{GoLib}.

(** ** Running computations *)

Lemma bind_run {A B} (m : M A) (f : A -> M B) (w : World) :
  (m ≫= f) w = match m w with Ok a w' => f a w' | Panic => Panic end.
Proof. reflexivity. Qed.

Lemma bind_Ok {A B} (m : M A) (f : A -> M B) (w w2 : World) (b : B) :
  (m ≫= f) w = Ok b w2 ->
  exists a w1, m w = Ok a w1 /\ f a w1 = Ok b w2.
Proof.
  rewrite bind_run. destruct (m w) as [a w1|] eqn:E; [|discriminate].
  intros Hf. by exists a, w1.
Qed.

Lemma bind_Ok_intro {A B} (m : M A) (f : A -> M B) (w w1 w2 : World) a (b : B) :
  m w = Ok a w1 -> f a w1 = Ok b w2 -> (m ≫= f) w = Ok b w2.
Proof. intros E1 E2. by rewrite bind_run, E1. Qed.

(** ** Heaps *)

Lemma heap_sub_refl h : heap_sub h h.
Proof. by intros l o. Qed.

Lemma heap_sub_trans h1 h2 h3 : heap_sub h1 h2 -> heap_sub h2 h3 -> heap_sub h1 h3.
Proof. intros H12 H23 l o Hl. by apply H23, H12. Qed.

Lemma heap_sub_app h o : heap_sub h (h ++ [o]).
Proof. intros l o' Hl. by apply lookup_app_l_Some. Qed.

Lemma lookup_snoc (h : list Obj) (o : Obj) : ((h ++ [o])%list) !! length h = Some o.
Proof. by apply list_lookup_middle. Qed.

Lemma heap_sub_length h h' : heap_sub h h' -> length h <= length h'.
Proof.
  intros Hs. destruct (decide (length h <= length h')) as [|Hn]; [done|].
  assert (Hlt : length h' < length h) by lia.
  destruct (lookup_lt_is_Some_2 h (length h') Hlt) as [o Ho].
  apply Hs in Ho. apply lookup_lt_Some in Ho. lia.
Qed.

(** A store to an object outside [h] is not seen from [h]. *)
Lemma heap_sub_insert h h' l o :
  heap_sub h h' -> length h <= l -> heap_sub h (<[l := o]> h').
Proof.
  intros Hs Hl l' o' Hl'. rewrite list_lookup_insert_ne; [by apply Hs|].
  apply lookup_lt_Some in Hl'. lia.
Qed.

Lemma base_valid_sub h h' t : heap_sub h h' -> base_valid h t -> base_valid h' t.
Proof.
  intros Hs. destruct t as [| |l]; simpl; try done.
  destruct (h !! l) as [o|] eqn:E; [|done]. by rewrite (Hs _ _ E).
Qed.

Lemma valid_sub h h' t : heap_sub h h' -> valid h t -> valid h' t.
Proof.
  intros Hs. destruct t as [| |l]; simpl; try done.
  destruct (h !! l) as [o|] eqn:E; [|done]. rewrite (Hs _ _ E).
  destruct o; try done. by apply base_valid_sub.
Qed.

Lemma root_ok_sub h h' t : heap_sub h h' -> root_ok h t -> root_ok h' t.
Proof.
  intros Hs. destruct t as [| |l]; simpl; try done.
  destruct (h !! l) as [o|] eqn:E; [|done]. rewrite (Hs _ _ E).
  destruct o; try done. intros [Hv Ha]. split; [by eapply base_valid_sub|done].
Qed.

Lemma base_valid_valid h t : base_valid h t -> valid h t.
Proof.
  destruct t as [| |l]; simpl; try done. by destruct (h !! l) as [[]|].
Qed.

Lemma base_valid_not_Nil h t : base_valid h t -> t <> Nil.
Proof. by destruct t. Qed.

Lemma base_valid_lt h l : base_valid h (Ref l) -> l < length h.
Proof.
  simpl. destruct (h !! l) as [o|] eqn:E; [|done].
  intros _. by eapply lookup_lt_Some.
Qed.

(** ** Method calls on valid tracers *)

(** A base tracer is its own receiver. *)
Lemma embedded_base t w : base_valid (heap w) t -> embedded t w = Ok t w.
Proof.
  destruct t as [| |l]; simpl; try done.
  unfold mbind, M_bind, deref. by destruct (heap w !! l) as [[]|].
Qed.

Lemma embedded_valid t w :
  valid (heap w) t -> exists t', embedded t w = Ok t' w /\ base_valid (heap w) t'.
Proof.
  destruct t as [| |l]; simpl; try done.
  - by exists noOpTrace.
  - unfold mbind, M_bind, deref.
    destruct (heap w !! l) as [[o|r|c lv o]|] eqn:E; try done; intros Hv.
    + exists (Ref l). simpl. by rewrite E.
    + by exists (rt_Trace r).
    + exists (Ref l). simpl. by rewrite E.
Qed.

(** Emitting changes the output only. *)
Lemma base_emit_ok m t msg args w :
  base_valid (heap w) t ->
  exists o, base_emit m t msg args w = Ok tt (set_output o w).
Proof.
  destruct w as [h out r i tb sl reg].
  destruct t as [| |l]; simpl; try done.
  - intros _. by exists out.
  - unfold mbind, M_bind, deref; simpl.
    destruct (h !! l) as [[o|r'|c lv o]|] eqn:E; try done; intros _.
    + destruct m; simpl; try by exists out.
      unfold BareBones_Errorf, mbind, M_bind, deref; simpl. rewrite E.
      destruct o; eexists; reflexivity.
    + unfold Tracer_emit. destruct (impl_emit c m lv msg args); eexists; reflexivity.
Qed.

Lemma Trace_emit_ok m t msg args w :
  valid (heap w) t ->
  exists o, Trace_emit m t msg args w = Ok tt (set_output o w).
Proof.
  intros Hv. destruct (embedded_valid _ _ Hv) as (t' & E & Hb).
  unfold Trace_emit. rewrite bind_run, E. by apply base_emit_ok.
Qed.

(** [GetTraceLevel] reads the level and changes nothing. *)
Lemma Trace_GetTraceLevel_ok t w :
  valid (heap w) t -> Trace_GetTraceLevel t w = Ok (level_of (heap w) t) w.
Proof.
  unfold Trace_GetTraceLevel, embedded, base_GetTraceLevel.
  unfold mbind, M_bind, deref, BareBones_GetTraceLevel, mret, M_ret.
  destruct t as [| |l]; simpl; try done.
  destruct (heap w !! l) as [[o|r'|c lv' o]|] eqn:E; try done; simpl; rewrite ?E; try done.
  destruct (rt_Trace r') as [| |l']; simpl; try done.
  by destruct (heap w !! l') as [[o|r''|c lv' o]|] eqn:E'.
Qed.

Lemma level_of_base h t : base_valid h t -> level_of h t = base_level h t.
Proof.
  destruct t as [| |l]; simpl; try done. by destruct (h !! l) as [[]|].
Qed.

Lemma base_level_sub h h' t :
  heap_sub h h' -> base_valid h t -> base_level h' t = base_level h t.
Proof.
  intros Hs. destruct t as [| |l]; simpl; try done.
  destruct (h !! l) as [o|] eqn:E; [|done]. by rewrite (Hs _ _ E).
Qed.

(** ** [SetTraceLevel] on a tracer an adapter built *)

Lemma length_set_level h t lv : length (set_level h t lv) = length h.
Proof.
  destruct t as [| |l]; simpl; try done.
  destruct (h !! l) as [[]|]; try done. by rewrite length_insert.
Qed.

Lemma heap_sub_set_level h0 h t lv :
  heap_sub h0 h -> fresh_in h0 t -> heap_sub h0 (set_level h t lv).
Proof.
  intros Hs Hf. destruct t as [| |l]; simpl in *; try done.
  destruct (h !! l) as [[]|]; try done. by apply heap_sub_insert.
Qed.

Lemma base_valid_set_level h t lv t' :
  base_valid h t' -> base_valid (set_level h t lv) t'.
Proof.
  destruct t as [| |l]; simpl; try done.
  destruct (h !! l) as [[o|r|c cur o]|] eqn:E; try done.
  destruct t' as [| |l']; simpl; try done.
  destruct (decide (l = l')) as [->|Hne].
  - rewrite E. rewrite list_lookup_insert_eq; [done|]. by eapply lookup_lt_Some.
  - by rewrite list_lookup_insert_ne.
Qed.

Lemma base_level_set_level h t lv :
  base_level (set_level h t lv) t =
  match t with
  | Ref l =>
      match h !! l with
      | Some (Tracer c cur _) => impl_SetTraceLevel c lv cur
      | _ => LevelError
      end
  | _ => LevelError
  end.
Proof.
  destruct t as [| |l]; simpl; try done.
  destruct (h !! l) as [[o|r|c cur o]|] eqn:E; simpl; rewrite ?E; try done.
  rewrite list_lookup_insert_eq; [done|]. by eapply lookup_lt_Some.
Qed.

Lemma Trace_SetTraceLevel_ok t lv w :
  base_valid (heap w) t ->
  exists w', Trace_SetTraceLevel t lv w = Ok tt w' /\
    heap w' = set_level (heap w) t lv /\
    root w' = root w /\ selectableTracers w' = selectableTracers w /\
    keeps w w'.
Proof.
  intros Hb. unfold Trace_SetTraceLevel. rewrite bind_run, (embedded_base _ _ Hb).
  destruct t as [| |l]; simpl in *; try done.
  - by exists w.
  - unfold mbind, M_bind, deref.
    destruct (heap w !! l) as [[o|r'|c cur o]|] eqn:E; try done.
    + by exists w.
    + eexists. split; [reflexivity|]. by simpl.
Qed.

(** ** Adapters *)

Lemma call_adapter_ok a w :
  a <> None ->
  exists t w', call_adapter a w = Ok t w' /\
    heap_sub (heap w) (heap w') /\ base_valid (heap w') t /\
    fresh_in (heap w) t /\
    root w' = root w /\ selectableTracers w' = selectableTracers w /\
    keeps w w'.
Proof.
  destruct a as [[| |c]|]; [| | |done]; intros _; simpl.
  - exists noOpTrace, w. repeat split; try done. apply heap_sub_refl.
  - eexists _, _. split; [reflexivity|]. simpl.
    repeat split; try done; [apply heap_sub_app|].
    by rewrite lookup_app_r, Nat.sub_diag.
  - eexists _, _. split; [reflexivity|]. simpl.
    repeat split; try done; [apply heap_sub_app|].
    by rewrite lookup_app_r, Nat.sub_diag.
Qed.

(** ** The invariant under growth of the heap *)

Lemma configured_sub w w' :
  heap_sub (heap w) (heap w') -> root w' = root w -> configured w -> configured w'.
Proof.
  unfold configured. intros Hs ->. destruct (root w) as [| |l]; try done.
  destruct (heap w !! l) as [o|] eqn:E; [|done]. by rewrite (Hs _ _ E).
Qed.

Lemma unconfigured_sub w w' :
  root_ok (heap w) (root w) ->
  heap_sub (heap w) (heap w') -> root w' = root w -> ~ configured w -> ~ configured w'.
Proof.
  unfold configured. intros Hr Hs ->. destruct (root w) as [| |l]; try done.
  simpl in Hr. destruct (heap w !! l) as [o|] eqn:E; [|done]. by rewrite (Hs _ _ E).
Qed.

Lemma table_valid_sub h h' (tbl : gmap string Trace) :
  heap_sub h h' ->
  map_Forall (fun _ t => base_valid h t) tbl ->
  map_Forall (fun _ t => base_valid h' t) tbl.
Proof. intros Hs Ht k t Hk. eapply base_valid_sub; [done|]. by eapply Ht. Qed.

Lemma Inv_sub w w' :
  Inv w -> heap_sub (heap w) (heap w') -> root w' = root w ->
  selectableTracers w' = selectableTracers w -> Inv w'.
Proof.
  intros [Hr Ht He] Hs Er Et. split.
  - rewrite Er. by eapply root_ok_sub.
  - rewrite Et. by eapply table_valid_sub.
  - rewrite Et. intros Hn. apply He. intros Hc. apply Hn. by eapply configured_sub.
Qed.

(** The invariant when a valid tracer is stored under a name of a
    configured world. *)
Lemma Inv_insert w w' n t :
  Inv w -> configured w -> heap_sub (heap w) (heap w') -> root w' = root w ->
  base_valid (heap w') t ->
  selectableTracers w' = <[n := t]> (selectableTracers w) -> Inv w'.
Proof.
  intros [Hr Ht He] Hc Hs Er Hb Et. split.
  - rewrite Er. by eapply root_ok_sub.
  - rewrite Et. apply map_Forall_insert_2; [done|]. by eapply table_valid_sub.
  - intros Hn. exfalso. apply Hn. by eapply configured_sub.
Qed.

(** ** [Root] *)

Lemma Root_configured w : configured w -> Root w = Ok (root w) w.
Proof.
  unfold configured, Root. rewrite bind_run. simpl.
  by destruct (root w).
Qed.

Lemma Root_installed w : root w <> Nil -> Root w = Ok (root w) w.
Proof. unfold Root. rewrite bind_run. simpl. by destruct (root w). Qed.

(** When the root is nil and the once-guard is spent, [Root] returns nil. *)
Lemma Root_spent w : root w = Nil -> initRoot w = true -> Root w = Ok Nil w.
Proof.
  destruct w as [h out r i tb sl reg]; simpl. by intros -> ->.
Qed.

(** When the root is nil and the once-guard is unused, [Root] installs a
    bare-bones tracer. *)
Lemma Root_lazy w :
  root w = Nil -> initRoot w = false ->
  Root w = Ok (Ref (length (heap w)))
    (set_initRoot true (set_root (Ref (length (heap w)))
       (set_heap (heap w ++ [BareBones None]) w))).
Proof.
  destruct w as [h out r i tb sl reg]; simpl. by intros -> ->.
Qed.

Lemma as_rootTracer_unconfigured w :
  root_ok (heap w) (root w) -> ~ configured w -> as_rootTracer (root w) w = Ok None w.
Proof.
  unfold configured, as_rootTracer. destruct (root w) as [| |l]; simpl; try done.
  unfold mbind, M_bind, deref. by destruct (heap w !! l) as [[]|].
Qed.

Lemma keeps_refl w : keeps w w.
Proof. by split. Qed.

Lemma keeps_trans w1 w2 w3 : keeps w1 w2 -> keeps w2 w3 -> keeps w1 w3.
Proof. intros [E1 E2] [E3 E4]. split; congruence. Qed.

(** [Root] in a world without a configured root: the result is the root
    of the world it leaves, and calling again gives the same. *)
Lemma Root_unconfigured w :
  Inv w -> ~ configured w ->
  exists t w', Root w = Ok t w' /\ Root w' = Ok t w' /\ root w' = t /\
    ~ configured w' /\ Inv w' /\ heap_sub (heap w) (heap w') /\
    selectableTracers w' = selectableTracers w /\ keeps w w'.
Proof.
  intros HI Hn. destruct (root w) as [| |l] eqn:Er.
  - destruct (initRoot w) eqn:Ei.
    + exists Nil, w. rewrite (Root_spent _ Er Ei).
      split_and!; try done; try apply heap_sub_refl; try apply keeps_refl.
    + eexists _, _. split; [by apply Root_lazy|]. split; [by apply Root_installed|].
      simpl. split; [done|]. split.
      { unfold configured. simpl. rewrite lookup_snoc. tauto. }
      split; [|split_and!; try done; try apply heap_sub_app].
      destruct HI as [Hr Ht He]. split; simpl.
      * by rewrite lookup_snoc.
      * eapply table_valid_sub; [apply heap_sub_app|done].
      * intros _. by apply He.
  - destruct HI as [Hr _ _]. by rewrite Er in Hr.
  - exists (Ref l), w. rewrite <- Er.
    rewrite Root_installed by (by rewrite Er).
    split_and!; try done; try apply heap_sub_refl; try apply keeps_refl.
Qed.

(** ** [NewTracer] and [GetOrCreateTracer] *)

(** Without a configured root, [NewTracer] hands out the root. *)
Lemma NewTracer_unconfigured name replace w :
  Inv w -> ~ configured w ->
  exists t w', Root w = Ok t w' /\ NewTracer name replace w = Ok (t, Nil) w' /\
    root w' = t /\ ~ configured w' /\ Inv w' /\ heap_sub (heap w) (heap w') /\
    selectableTracers w' = selectableTracers w /\ keeps w w'.
Proof.
  intros HI Hn.
  destruct (Root_unconfigured w HI Hn) as (t & w' & E1 & E2 & Er & Hn' & HI' & Hs & Et & Hk).
  exists t, w'. split; [done|]. split; [|done].
  unfold NewTracer. rewrite bind_run, E1, bind_run. rewrite <- Er.
  rewrite as_rootTracer_unconfigured; [|apply HI'|done].
  rewrite bind_run, E2. by rewrite Er.
Qed.

(** With a configured root, [NewTracer] builds a tracer with the root's
    adapter, sets its level from the configuration, and stores it unless
    the name is taken and [replace] is false. *)
Lemma NewTracer_configured name replace w l r :
  Inv w -> root w = Ref l -> heap w !! l = Some (RootTracer r) ->
  exists trace w1 w',
    call_adapter (adapter r) w = Ok trace w1 /\
    NewTracer name replace w =
      Ok (trace, default Nil (selectableTracers w !! name)) w' /\
    heap w' = set_level (heap w1) trace
      (TraceLevelFromString (getValue (config r) (prefixKey r) name)) /\
    base_valid (heap w') trace /\ fresh_in (heap w) trace /\
    heap_sub (heap w) (heap w') /\ root w' = root w /\
    selectableTracers w' =
      (if bool_decide (is_Some (selectableTracers w !! name)) && negb replace
       then selectableTracers w else <[name := trace]> (selectableTracers w)) /\
    keeps w w' /\ Inv w'.
Proof.
  intros HI Er El.
  assert (Hc : configured w) by (unfold configured; by rewrite Er, El).
  assert (Ha : adapter r <> None).
  { destruct HI as [Hr _ _]. rewrite Er in Hr. simpl in Hr. rewrite El in Hr. tauto. }
  destruct (call_adapter_ok (adapter r) w Ha)
    as (trace & w1 & E1 & Hs1 & Hb1 & Hf & Er1 & Et1 & Hk1).
  destruct (Trace_SetTraceLevel_ok trace
    (TraceLevelFromString (getValue (config r) (prefixKey r) name)) w1 Hb1)
    as (w2 & E2 & Eh2 & Er2 & Et2 & Hk2).
  assert (Hs2 : heap_sub (heap w) (heap w2)).
  { rewrite Eh2. by apply heap_sub_set_level. }
  assert (Hb2 : base_valid (heap w2) trace).
  { rewrite Eh2. by apply base_valid_set_level. }
  assert (Hk : keeps w w2) by (by eapply keeps_trans).
  exists trace, w1.
  unfold NewTracer. rewrite bind_run, (Root_configured _ Hc), bind_run, Er. simpl.
  unfold mbind at 1, M_bind at 1, deref at 1. rewrite El. simpl.
  rewrite bind_run, E1, bind_run, E2, bind_run. simpl.
  rewrite Et2, Et1.
  destruct (selectableTracers w !! name) as [prev|] eqn:En; simpl.
  - destruct replace; simpl.
    + eexists. split; [reflexivity|]. simpl.
      split_and!; try done; simpl; try congruence.
      eapply (Inv_insert w); simpl; try done. congruence.
    + exists w2. split_and!; try done; try congruence.
      eapply (Inv_sub w); try done; congruence.
  - eexists. split; [reflexivity|]. simpl.
    split_and!; try done; simpl; try congruence.
    eapply (Inv_insert w); simpl; try done. congruence.
Qed.

Lemma Root_available w t w' :
  root_available w -> Root w = Ok t w' -> t <> Nil.
Proof.
  intros Ha. destruct (root w) as [| |l] eqn:Er.
  - destruct Ha as [Ha|Ei]; [done|]. rewrite (Root_lazy _ Er Ei). by intros [= <- _].
  - rewrite Root_installed by (by rewrite Er). rewrite Er. by intros [= <- _].
  - rewrite Root_installed by (by rewrite Er). rewrite Er. by intros [= <- _].
Qed.

Lemma root_ok_valid h t : root_ok h t -> t <> Nil -> valid h t.
Proof.
  destruct t as [| |l]; simpl; try done.
  destruct (h !! l) as [[]|]; try done. tauto.
Qed.

Lemma GetTracer_run name w :
  GetTracer name w = Ok (default Nil (selectableTracers w !! name)) w.
Proof.
  unfold GetTracer. rewrite bind_run. simpl.
  by destruct (selectableTracers w !! name).
Qed.

(** A name in the table: [GetOrCreateTracer] returns its tracer. *)
Lemma GetOrCreateTracer_found name w t :
  Inv w -> selectableTracers w !! name = Some t ->
  GetOrCreateTracer name w = Ok t w.
Proof.
  intros HI En. unfold GetOrCreateTracer. rewrite bind_run, GetTracer_run, En. simpl.
  assert (Hb : base_valid (heap w) t) by (by eapply (inv_table _ HI)).
  by destruct t.
Qed.

(** A name not in the table: [GetOrCreateTracer] is [NewTracer]. *)
Lemma GetOrCreateTracer_missing name w :
  selectableTracers w !! name = None ->
  GetOrCreateTracer name w = (p ← NewTracer name false; mret (p.1)) w.
Proof.
  intros En. unfold GetOrCreateTracer. by rewrite bind_run, GetTracer_run, En.
Qed.

Lemma GetOrCreateTracer_configured name w :
  Inv w -> configured w ->
  exists t w', GetOrCreateTracer name w = Ok t w' /\
    Inv w' /\ heap_sub (heap w) (heap w') /\ keeps w w' /\
    root w' = root w /\ base_valid (heap w') t /\
    selectableTracers w' !! name = Some t /\
    (forall k, k <> name -> selectableTracers w' !! k = selectableTracers w !! k).
Proof.
  intros HI Hc. destruct (selectableTracers w !! name) as [t|] eqn:En.
  - exists t, w. rewrite (GetOrCreateTracer_found _ _ _ HI En).
    split_and!; try done; try apply heap_sub_refl; try apply keeps_refl.
    by eapply (inv_table _ HI).
  - unfold configured in Hc. destruct (root w) as [| |l] eqn:Er; try done.
    destruct (heap w !! l) as [[o|r|c lv o]|] eqn:El; try done.
    destruct (NewTracer_configured name false w l r HI Er El)
      as (trace & w1 & w' & _ & E & _ & Hb & _ & Hs & Er' & Et & Hk & HI').
    exists trace, w'. rewrite (GetOrCreateTracer_missing _ _ En), bind_run, E. simpl.
    rewrite En in Et. simpl in Et.
    split_and!; try done; try congruence.
    + rewrite Et. apply lookup_insert_eq.
    + intros k Hk'. rewrite Et. by apply lookup_insert_ne.
Qed.

Lemma GetOrCreateTracer_unconfigured name w :
  Inv w -> ~ configured w ->
  exists t w', GetOrCreateTracer name w = Ok t w' /\ Root w = Ok t w' /\
    root w' = t /\ ~ configured w' /\ Inv w' /\ heap_sub (heap w) (heap w') /\
    selectableTracers w' = selectableTracers w /\ keeps w w'.
Proof.
  intros HI Hn.
  destruct (NewTracer_unconfigured name false w HI Hn)
    as (t & w' & E1 & E2 & Hrest).
  exists t, w'. split; [|done].
  rewrite GetOrCreateTracer_missing, bind_run, E2; [done|].
  rewrite (inv_empty _ HI Hn). apply lookup_empty.
Qed.

(** ** The facade *)

(** [Select "root"] returns; with a usable selector it yields a tracer
    whose methods can be called. *)
Lemma Select_root_spec w :
  Inv w ->
  exists t w', Select "root" w = Ok t w' /\
    (selector_ok w -> valid (heap w') t) /\
    Inv w' /\ heap_sub (heap w) (heap w') /\ keeps w w' /\
    (configured w -> root w' = root w) /\
    (~ configured w -> ~ configured w') /\
    (forall k, k <> "root" -> selectableTracers w' !! k = selectableTracers w !! k).
Proof.
  intros HI. unfold selector_ok. unfold Select. rewrite bind_run. simpl.
  destruct (selector w) as [[|f]|] eqn:Es; simpl.
  - destruct (decide (configured w)) as [Hc|Hn].
    + destruct (GetOrCreateTracer_configured "root" w HI Hc)
        as (t & w' & E & HI' & Hsub & Hk & Er & Hb & _ & Ht).
      exists t, w'. split_and!; try done. intros _. by apply base_valid_valid.
    + destruct (GetOrCreateTracer_unconfigured "root" w HI Hn)
        as (t & w' & E & ER & Er & Hn' & HI' & Hsub & Et & Hk).
      exists t, w'. split_and!; try done.
      * intros Ha. apply root_ok_valid; [rewrite <- Er; apply HI'|].
        by eapply Root_available.
      * intros k _. by rewrite Et.
  - exists (f "root"), w.
    split_and!; try done; try apply heap_sub_refl; try apply keeps_refl.
  - exists noOpTrace, w.
    split_and!; try done; try apply heap_sub_refl; try apply keeps_refl.
Qed.

(** The invariant does not read the output. *)
Lemma Inv_set_output o w : Inv w -> Inv (set_output o w).
Proof. intros [Hr Ht He]. by split. Qed.

(** An emitting method that returns has changed the output only. *)
Lemma Trace_emit_inv m t msg args w w' :
  Trace_emit m t msg args w = Ok tt w' -> exists o, w' = set_output o w.
Proof.
  destruct w as [h out r i tb sl reg].
  unfold Trace_emit, embedded, base_emit, BareBones_Errorf, BareBones_Infof,
    BareBones_Debugf, Tracer_emit, Fprintf, modify, mbind, M_bind, deref, mret, M_ret, panic.
  simpl. intros E.
  repeat (case_match; simplify_eq/=; try by eexists).
Qed.

Lemma facade_spec m msg args w :
  Inv w ->
  match (t ← Select "root"; Trace_emit m t msg args) w with
  | Ok _ w' => facade_post w w'
  | Panic => ~ selector_ok w
  end.
Proof.
  intros HI.
  destruct (Select_root_spec w HI) as (t & w1 & E & Hv & HI1 & Hsub & Hk & Hc & Hn & Ht).
  rewrite bind_run, E.
  destruct (Trace_emit m t msg args w1) as [[] w'|] eqn:E2.
  - destruct (Trace_emit_inv _ _ _ _ _ _ E2) as [o ->].
    unfold facade_post. split_and!; try done. by apply Inv_set_output.
  - intros Hs. destruct (Trace_emit_ok m t msg args w1 (Hv Hs)) as (o & E3). congruence.
Qed.

Lemma facade_post_trans w1 w2 w3 :
  Inv w1 -> facade_post w1 w2 -> facade_post w2 w3 -> facade_post w1 w3.
Proof.
  intros HI (HI2 & Hs2 & Hk2 & Hc2 & Hn2 & Ht2) (HI3 & Hs3 & Hk3 & Hc3 & Hn3 & Ht3).
  unfold facade_post. split_and!; try done.
  - by eapply heap_sub_trans.
  - by eapply keeps_trans.
  - intros Hc. rewrite <- (Hc2 Hc). apply Hc3. eapply configured_sub; eauto.
  - intros Hn. by apply Hn3, Hn2.
  - intros k Hk. rewrite Ht3, Ht2; done.
Qed.

Lemma facade_post_refl w : Inv w -> facade_post w w.
Proof.
  intros HI. unfold facade_post.
  split_and!; try done; try apply heap_sub_refl; try apply keeps_refl.
Qed.

(** ** The adapter registry *)

Lemma Inv_set_knownTraceAdapters reg w : Inv w -> Inv (set_knownTraceAdapters reg w).
Proof. intros [Hr Ht He]. by split. Qed.

Lemma RegisterTraceAdapter_spec key a replace w :
  Inv w ->
  match RegisterTraceAdapter key a replace w with
  | Ok _ w' =>
      knownTraceAdapters w' = registered key a replace (knownTraceAdapters w) /\
      selector w' = selector w /\ Inv w'
  | Panic => ~ selector_ok w
  end.
Proof.
  intros HI. unfold RegisterTraceAdapter, Infof, Trace_Infof.
  rewrite bind_run.
  pose proof (facade_spec MInfof ("registering tracing type %q" ++ nl) [AString key] w HI) as Hf.
  destruct ((Select "root" ≫= _) w) as [[] w1|]; [|done].
  destruct Hf as (HI1 & _ & [Hk1 Hk2] & _).
  rewrite bind_run. simpl. unfold registered. rewrite Hk2.
  destruct (knownTraceAdapters w !! key) as [[f|]|]; simpl;
    try destruct replace; simpl; split_and!; try done;
    by apply Inv_set_knownTraceAdapters.
Qed.

Lemma GetAdapterFromConfiguration_spec conf optKey w :
  Inv w ->
  match GetAdapterFromConfiguration conf optKey w with
  | Ok a w' => a = resolve conf (knownTraceAdapters w) /\ facade_post w w'
  | Panic => ~ selector_ok w
  end.
Proof.
  intros HI. unfold GetAdapterFromConfiguration, resolve, Debugf, Trace_Debugf.
  rewrite bind_run. simpl.
  destruct (knownTraceAdapters w !! _) as [[f|]|] eqn:E; simpl.
  - split; [done|]. by apply facade_post_refl.
  - rewrite bind_run.
    pose proof (facade_spec MDebugf ("no adapter found for tracing type %q" ++ nl)
      [AString (if String.eqb (conf "tracing.adapter") "" then conf "tracing"
                else conf "tracing.adapter")] w HI) as Hf.
    destruct ((Select "root" ≫= _) w) as [[] w1|]; [|done].
    rewrite bind_run. simpl. split; [|done].
    destruct Hf as (_ & _ & [_ ->] & _). done.
  - rewrite bind_run.
    pose proof (facade_spec MDebugf ("no adapter found for tracing type %q" ++ nl)
      [AString (if String.eqb (conf "tracing.adapter") "" then conf "tracing"
                else conf "tracing.adapter")] w HI) as Hf.
    destruct ((Select "root" ≫= _) w) as [[] w1|]; [|done].
    rewrite bind_run. simpl. split; [|done].
    destruct Hf as (_ & _ & [_ ->] & _). done.
Qed.

(** ** [rootTracer.init] *)

Lemma facade_post_sub w w' :
  Inv w -> heap_sub (heap w) (heap w') -> root w' = root w ->
  selectableTracers w' = selectableTracers w -> keeps w w' -> facade_post w w'.
Proof.
  intros HI Hs Er Et Hk. unfold facade_post. split_and!; try done.
  - by eapply Inv_sub.
  - intros Hn. eapply unconfigured_sub; eauto. apply HI.
  - intros k _. by rewrite Et.
Qed.

Lemma adapter_set_level a w t w1 lv :
  call_adapter a w = Ok t w1 ->
  base_level (set_level (heap w1) t lv) t = inherited_level a lv.
Proof.
  destruct a as [[| |c]|]; simpl; try done.
  - by intros [= <- <-].
  - intros [= <- <-]. simpl. by rewrite !lookup_snoc.
  - intros [= <- <-]. simpl. rewrite !lookup_snoc.
    rewrite list_lookup_insert_eq; [done|]. rewrite length_app. simpl. lia.
Qed.

Lemma rootTracer_init_spec r w :
  Inv w ->
  match rootTracer_init r w with
  | Ok r' w' =>
      facade_post w w' /\
      base_valid (heap w') (rt_Trace r') /\ fresh_in (heap w) (rt_Trace r') /\
      adapter r' = Some (default BareAdapter (resolve (config r) (knownTraceAdapters w))) /\
      config r' = config r /\ prefixKey r' = prefixKey r /\
      optAdapterKey r' = optAdapterKey r /\ replaceChildren r' = replaceChildren r
  | Panic => ~ selector_ok w
  end.
Proof.
  intros HI. unfold rootTracer_init. rewrite bind_run.
  pose proof (GetAdapterFromConfiguration_spec (config r) (optAdapterKey r) w HI) as Hg.
  destruct (GetAdapterFromConfiguration _ _ w) as [a w1|]; [|done].
  destruct Hg as [-> Hp1].
  set (a := match resolve (config r) (knownTraceAdapters w) with
            | Some f => Some f | None => Some BareAdapter end).
  assert (Ha : a <> None) by (unfold a; by destruct (resolve _ _)).
  assert (Ea : a = Some (default BareAdapter (resolve (config r) (knownTraceAdapters w)))).
  { unfold a. by destruct (resolve _ _). }
  assert (HI1 : Inv w1) by apply Hp1.
  destruct (call_adapter_ok a w1 Ha) as (tr & w2 & E2 & Hs2 & Hb2 & Hf2 & Er2 & Et2 & Hk2).
  rewrite bind_run, E2, bind_run.
  assert (Hfw : fresh_in (heap w) tr).
  { destruct tr as [| |l]; simpl in *; try done.
    destruct Hp1 as (_ & Hs1 & _). apply heap_sub_length in Hs1. lia. }
  destruct (negb (String.eqb (getValue (config r) (prefixKey r) "root") "")).
  - destruct (Trace_SetTraceLevel_ok tr
      (TraceLevelFromString (getValue (config r) (prefixKey r) "root")) w2 Hb2)
      as (w3 & E3 & Eh3 & Er3 & Et3 & Hk3).
    rewrite E3. simpl. split_and!; try done.
    + eapply facade_post_trans; [done|done|].
      apply facade_post_sub; try done; try congruence.
      * rewrite Eh3. by apply heap_sub_set_level.
      * by eapply keeps_trans.
    + rewrite Eh3. by apply base_valid_set_level.
  - simpl. split_and!; try done.
    eapply facade_post_trans; [done|done|]. by apply facade_post_sub.
Qed.

(** ** Replacing the named tracers *)

Lemma setTracer_found k ch prev w :
  base_valid (heap w) ch -> base_valid (heap w) prev ->
  selectableTracers w !! k = Some prev ->
  exists w', setTracer k ch w = Ok prev w' /\
    heap w' = set_level (heap w) ch (level_of (heap w) prev) /\
    selectableTracers w' = <[k := ch]> (selectableTracers w) /\
    root w' = root w /\ keeps w w'.
Proof.
  intros Hc Hp Ek. unfold setTracer. rewrite !bind_run. simpl. rewrite Ek.
  rewrite bind_run. simpl.
  rewrite bind_run, Trace_GetTraceLevel_ok by (by apply base_valid_valid).
  simpl.
  destruct (Trace_SetTraceLevel_ok ch (level_of (heap w) prev)
    (set_selectableTracers (<[k := ch]> (selectableTracers w)) w) Hc)
    as (w' & E & Eh & Er & Et & Hk).
  exists w'. rewrite bind_run, E. simpl. split_and!; try done.
Qed.

Lemma replaceTracer_spec l r k prev w :
  Inv w -> root w = Ref l -> heap w !! l = Some (RootTracer r) ->
  k <> "root" -> selectableTracers w !! k = Some prev ->
  exists ch w', replaceTracer (Ref l) r k w = Ok tt w' /\
    Inv w' /\ heap_sub (heap w) (heap w') /\ root w' = root w /\ keeps w w' /\
    selectableTracers w' = <[k := ch]> (selectableTracers w) /\
    base_valid (heap w') ch /\ fresh_in (heap w) ch /\
    level_of (heap w') ch = inherited_level (adapter r) (level_of (heap w) prev).
Proof.
  intros HI Er El Hk Ek.
  assert (Hc : configured w) by (unfold configured; by rewrite Er, El).
  assert (Hro : base_valid (heap w) (rt_Trace r) /\ adapter r <> None).
  { destruct HI as [Hr _ _]. rewrite Er in Hr. simpl in Hr. by rewrite El in Hr. }
  destruct Hro as [Hrv Ha].
  assert (Hp : base_valid (heap w) prev) by (by eapply (inv_table _ HI)).
  unfold replaceTracer. rewrite (proj2 (String.eqb_neq _ _) Hk).
  assert (Hv : valid (heap w) (Ref l)) by (simpl; by rewrite El).
  destruct (Trace_emit_ok MErrorf (Ref l)
    ("replacing tracer " ++ dquote ++ "%s" ++ dquote) [AString k] w Hv) as (o1 & E1).
  unfold Trace_Errorf. rewrite bind_run, E1.
  destruct (call_adapter_ok (adapter r) (set_output o1 w) Ha)
    as (ch & w2 & E2 & Hs2 & Hb2 & Hf2 & Er2 & Et2 & Hk2).
  simpl in *. rewrite bind_run, E2.
  assert (Hp2 : base_valid (heap w2) prev) by (by eapply base_valid_sub).
  assert (Ek2 : selectableTracers w2 !! k = Some prev) by (by rewrite Et2).
  destruct (setTracer_found k ch prev w2 Hb2 Hp2 Ek2) as (w3 & E3 & Eh3 & Et3 & Er3 & Hk3).
  rewrite bind_run, E3.
  assert (Hb3 : base_valid (heap w3) ch) by (rewrite Eh3; by apply base_valid_set_level).
  assert (Hp3 : base_valid (heap w3) prev) by (rewrite Eh3; by apply base_valid_set_level).
  destruct (Trace_emit_ok MInfof prev "replacing this tracer" [] w3
    (base_valid_valid _ _ Hp3)) as (o4 & E4).
  unfold Trace_Infof. rewrite bind_run, E4.
  destruct (Trace_emit_ok MInfof ch "welcome to the new tracer" [] (set_output o4 w3)
    (base_valid_valid _ _ Hb3)) as (o5 & E5).
  rewrite E5. exists ch. eexists. split; [reflexivity|]. simpl.
  assert (Hs3 : heap_sub (heap w) (heap w3)).
  { rewrite Eh3. by apply heap_sub_set_level. }
  split_and!; try done; try congruence.
  - eapply (Inv_insert w _ k ch); simpl; try done; try congruence.
  - eapply keeps_trans; [|apply Hk3]. destruct Hk2 as [? ?]. by split.
  - rewrite level_of_base by done. rewrite Eh3.
    rewrite (adapter_set_level _ _ _ _ _ E2). f_equal.
    rewrite !level_of_base by done. by apply base_level_sub.
Qed.

Lemma fresh_in_sub h h' t : heap_sub h h' -> fresh_in h' t -> fresh_in h t.
Proof.
  intros Hs. destruct t as [| |l]; simpl; try done.
  apply heap_sub_length in Hs. lia.
Qed.

Lemma replaceTracers_loop_spec l r ks :
  forall w,
  Inv w -> root w = Ref l -> heap w !! l = Some (RootTracer r) ->
  NoDup ks -> (forall k, k ∈ ks -> is_Some (selectableTracers w !! k)) ->
  exists w', replaceTracers_loop (Ref l) r ks w = Ok tt w' /\
    Inv w' /\ heap_sub (heap w) (heap w') /\ root w' = root w /\ keeps w w' /\
    (forall k, k ∉ ks \/ k = "root" ->
       selectableTracers w' !! k = selectableTracers w !! k) /\
    (forall k prev, k ∈ ks -> k <> "root" -> selectableTracers w !! k = Some prev ->
       replaced_by (adapter r) w w' k prev).
Proof.
  induction ks as [|k rest IH]; intros w HI Er El Hnd Hin.
  - exists w. simpl. split_and!; try done; try apply heap_sub_refl; try apply keeps_refl.
    intros k prev Hk. by apply elem_of_nil in Hk.
  - apply NoDup_cons in Hnd as [Hk Hnd].
    assert (Hstep : exists w1, replaceTracer (Ref l) r k w = Ok tt w1 /\
      Inv w1 /\ heap_sub (heap w) (heap w1) /\ root w1 = root w /\ keeps w w1 /\
      (forall k', k' <> k \/ k = "root" ->
         selectableTracers w1 !! k' = selectableTracers w !! k') /\
      (forall prev, k <> "root" -> selectableTracers w !! k = Some prev ->
         replaced_by (adapter r) w w1 k prev)).
    { destruct (decide (k = "root")) as [->|Hne].
      - exists w. unfold replaceTracer. simpl.
        split_and!; try done; try apply heap_sub_refl; try apply keeps_refl.
      - destruct (Hin k) as [prev Ek]; [by left|].
        destruct (replaceTracer_spec l r k prev w HI Er El Hne Ek)
          as (ch & w1 & E & HI1 & Hs1 & Er1 & Hk1 & Et1 & Hb1 & Hf1 & Hl1).
        exists w1. split_and!; try done.
        + intros k' [Hk'|Hk']; [|done]. rewrite Et1. by apply lookup_insert_ne.
        + intros prev' _ Ek'. assert (prev' = prev) as -> by congruence.
          exists ch. split_and!; try done. rewrite Et1. apply lookup_insert_eq. }
    destruct Hstep as (w1 & E1 & HI1 & Hs1 & Er1 & Hk1 & Hoth & Hrep).
    assert (El1 : heap w1 !! l = Some (RootTracer r)) by (by apply Hs1).
    assert (Hin1 : forall k', k' ∈ rest -> is_Some (selectableTracers w1 !! k')).
    { intros k' Hk'. rewrite Hoth; [apply Hin; by right|].
      left. intros ->. done. }
    destruct (IH w1 HI1 (eq_trans Er1 Er) El1 Hnd Hin1)
      as (w' & E & HI' & Hs' & Er' & Hk' & Hoth' & Hrep').
    exists w'. simpl. rewrite bind_run, E1.
    split_and!; try done.
    + by eapply heap_sub_trans.
    + congruence.
    + by eapply keeps_trans.
    + intros k' Hk''. rewrite Hoth'.
      * apply Hoth. destruct Hk'' as [Hk''|Hk'']; [|destruct (decide (k' = k)); subst; auto].
        left. intros ->. apply Hk''. by left.
      * destruct Hk'' as [Hk''|Hk'']; [|by right].
        left. intros Hr. apply Hk''. by right.
    + intros k' prev Hel Hne Ek'. apply elem_of_cons in Hel as [->|Hel].
      * destruct (Hrep prev Hne Ek') as (ch & Et & Hb & Hf & Hl).
        exists ch. split_and!; try done.
        -- rewrite Hoth'; [done|by left].
        -- by eapply base_valid_sub.
        -- rewrite <- Hl. rewrite !level_of_base; [by apply base_level_sub|done|].
           by eapply base_valid_sub.
      * assert (Hkk : k' <> k) by (intros ->; done).
        assert (Ek1 : selectableTracers w1 !! k' = Some prev).
        { rewrite Hoth; [done|by left]. }
        destruct (Hrep' k' prev Hel Hne Ek1) as (ch & Et & Hb & Hf & Hl).
        exists ch. split_and!; try done.
        -- by eapply fresh_in_sub.
        -- rewrite Hl. f_equal.
           assert (Hp : base_valid (heap w) prev) by (by eapply (inv_table _ HI)).
           rewrite !level_of_base; [by apply base_level_sub|done|].
           by eapply base_valid_sub.
Qed.

(** ** [ConfigureRoot] *)

Lemma ConfigureRoot_error conf prefixKey opts r err w :
  apply_options opts (newRootTracer conf prefixKey) = (r, Some err) ->
  ConfigureRoot conf prefixKey opts w = Ok (Some err) w.
Proof. intros E. unfold ConfigureRoot. by rewrite E. Qed.

Lemma is_BareBones_unconfigured w :
  root_ok (heap w) (root w) -> ~ configured w ->
  exists b, is_BareBones (root w) w = Ok b w /\ bool_decide (root w = Nil) || b = true.
Proof.
  unfold configured, is_BareBones. destruct (root w) as [| |l]; simpl; try done.
  - by exists false.
  - unfold mbind, M_bind, deref. destruct (heap w !! l) as [[]|]; try done.
    by exists true.
Qed.

Lemma is_BareBones_configured w :
  configured w ->
  is_BareBones (root w) w = Ok false w /\ bool_decide (root w = Nil) = false.
Proof.
  unfold configured, is_BareBones. destruct (root w) as [| |l]; simpl; try done.
  unfold mbind, M_bind, deref. by destruct (heap w !! l) as [[]|].
Qed.

Lemma ConfigureRoot_spec conf p opts r0 w :
  Inv w ->
  apply_options opts (newRootTracer conf p) = (r0, None) ->
  match ConfigureRoot conf p opts w with
  | Ok e w' => e = None /\ configure_post r0 w w'
  | Panic => ~ selector_ok w
  end.
Proof.
  intros HI Eo. unfold ConfigureRoot. rewrite Eo, bind_run.
  pose proof (rootTracer_init_spec r0 w HI) as Hi.
  destruct (rootTracer_init r0 w) as [r' w1|]; [|done].
  destruct Hi as (Hp & Hb & Hf & Ea & Ec & Ep & Ek & Erc).
  destruct Hp as (HI1 & Hs1 & Hk1 & Hc1 & Hn1 & Ht1).
  rewrite bind_run. simpl. rewrite bind_run.
  assert (Hnew : forall h, heap_sub (heap w1) h ->
    h !! length (heap w1) = Some (RootTracer r') ->
    root_ok h (Ref (length (heap w1)))).
  { intros h Hs Hl. simpl. rewrite Hl. split; [by eapply base_valid_sub|].
    by rewrite Ea. }
  destruct (decide (configured w)) as [Hc|Hn].
  - (* a configured root is replaced *)
    assert (Hcw1 : configured w1) by (eapply configured_sub; eauto).
    destruct (is_BareBones_configured w1 Hcw1) as [-> ->]. simpl.
    assert (Hv : valid (heap w1) (root w1)).
    { apply root_ok_valid; [apply HI1|]. unfold configured in Hcw1.
      by destruct (root w1). }
    destruct (Trace_emit_ok MInfof (root w1) "replacing root tracer" [] w1 Hv) as (o2 & E2).
    unfold Trace_Infof. rewrite bind_run, E2, bind_run. simpl.
    rewrite bind_run. simpl.
    set (h3 := (heap w1 ++ [RootTracer r'])%list).
    set (rt := Ref (length (heap w1))).
    set (w3 := set_root rt (set_heap h3 (set_output o2 w1))).
    assert (El3 : h3 !! length (heap w1) = Some (RootTracer r')) by apply lookup_snoc.
    assert (Hs3 : heap_sub (heap w1) h3) by apply heap_sub_app.
    assert (Hv3 : valid (heap w3) rt).
    { simpl. rewrite El3. by eapply base_valid_sub. }
    destruct (Trace_emit_ok MInfof rt "welcome to the new root tracer" [] w3 Hv3)
      as (o4 & E4).
    rewrite bind_run, E4.
    set (w4 := set_output o4 w3).
    assert (HI4 : Inv w4).
    { split; simpl.
      - by eapply Hnew.
      - eapply table_valid_sub; [done|apply HI1].
      - intros Hn. exfalso. apply Hn. unfold configured. simpl. by rewrite El3. }
    assert (Hs4 : heap_sub (heap w) (heap w4)) by (by eapply heap_sub_trans).
    assert (Hlen : length (heap w) <= length (heap w1)) by (by apply heap_sub_length).
    destruct (replaceChildren r') eqn:Erc'.
    + rewrite bind_run, bind_run. simpl.
      destruct (replaceTracers_loop_spec (length (heap w1)) r'
        (map_to_list (selectableTracers w1)).*1 w4 HI4 eq_refl El3)
        as (w5 & E5 & HI5 & Hs5 & Er5 & Hk5 & Hoth5 & Hrep5).
      { apply NoDup_fst_map_to_list. }
      { intros k Hk'. apply list_elem_of_fmap in Hk' as [[k' t] [-> Hk']].
        apply elem_of_map_to_list in Hk'. simpl. eauto. }
      unfold rt. rewrite E5. simpl. split; [done|].
      exists (length (heap w1)), r'. split_and!; try done; try congruence.
      * by apply Hs5.
      * by eapply heap_sub_trans.
      * eapply keeps_trans; [apply Hk1|]. destruct Hk5 as [? ?]. by split.
      * intros k prev Hk' Ek'. rewrite bool_decide_eq_true_2 by done.
        rewrite <- Erc. simpl.
        assert (Ek4 : selectableTracers w4 !! k = Some prev).
        { simpl. by rewrite Ht1. }
        assert (Hel : k ∈ (map_to_list (selectableTracers w1)).*1).
        { apply list_elem_of_fmap. exists (k, prev). split; [done|].
          apply elem_of_map_to_list. by rewrite Ht1. }
        destruct (Hrep5 k prev Hel Hk' Ek4) as (ch & Et & Hb5 & Hf5 & Hl5).
        exists ch. split_and!; try done.
        -- by eapply fresh_in_sub.
        -- rewrite Hl5. f_equal.
           assert (Hpv : base_valid (heap w) prev) by (by eapply (inv_table _ HI)).
           rewrite !level_of_base; [by apply base_level_sub|done|].
           by eapply base_valid_sub.
    + rewrite bind_run. simpl. split; [done|].
      exists (length (heap w1)), r'. split_and!; try done; try congruence.
      intros k prev Hk' Ek'. rewrite <- Erc, andb_false_r. simpl.
      by rewrite Ht1.
  - (* no configured root before *)
    assert (Hnw1 : ~ configured w1) by auto.
    destruct (is_BareBones_unconfigured w1 (inv_root _ HI1) Hnw1) as (b & -> & ->).
    simpl. split; [done|].
    assert (Hlen : length (heap w) <= length (heap w1)) by (by apply heap_sub_length).
    exists (length (heap w1)), r'. simpl. rewrite lookup_snoc.
    split_and!; try done.
    + split; simpl.
      * apply Hnew; [apply heap_sub_app|apply lookup_snoc].
      * eapply table_valid_sub; [apply heap_sub_app|apply HI1].
      * intros Hn'. exfalso. apply Hn'. unfold configured. simpl. by rewrite lookup_snoc.
    + eapply heap_sub_trans; [done|apply heap_sub_app].
    + intros k prev Hk' Ek'. rewrite bool_decide_eq_false_2 by done. simpl.
      by rewrite Ht1.
Qed.

(** ** The invariant holds in every reachable world *)

Lemma lookup_insert_kind (h : list Obj) (l : nat) o o' (l' : nat) :
  h !! l = Some o -> same_kind o o' ->
  match h !! l', <[l := o']> h !! l' with
  | Some a, Some b => same_kind a b
  | None, None => True
  | _, _ => False
  end.
Proof.
  intros El Hk. destruct (decide (l = l')) as [<-|Hne].
  - rewrite El, list_lookup_insert_eq; [done|]. by eapply lookup_lt_Some.
  - rewrite list_lookup_insert_ne by done.
    destruct (h !! l') as [[]|]; simpl; done.
Qed.

Lemma base_valid_insert (h : list Obj) (l : nat) o o' t :
  h !! l = Some o -> same_kind o o' -> base_valid h t -> base_valid (<[l := o']> h) t.
Proof.
  intros El Hk. destruct t as [| |l']; simpl; try done.
  pose proof (lookup_insert_kind h l o o' l' El Hk) as Hl.
  destruct (h !! l') as [[]|], (<[l := o']> h !! l') as [[]|]; simpl in *; done.
Qed.

Lemma Inv_insert_kind w l o o' :
  Inv w -> heap w !! l = Some o -> same_kind o o' ->
  Inv (set_heap (<[l := o']> (heap w)) w).
Proof.
  intros [Hr Ht He] El Hk. split; simpl.
  - destruct (root w) as [| |l']; simpl in *; try done.
    pose proof (lookup_insert_kind (heap w) l o o' l' El Hk) as Hl.
    destruct (heap w !! l') as [[| r |]|], (<[l := o']> (heap w) !! l') as [[| r' |]|];
      simpl in *; try done.
    subst r'. destruct Hr as [Hb Ha]. split; [|done]. by eapply base_valid_insert.
  - intros k t Hk'. eapply base_valid_insert; [done|done|]. by eapply Ht.
  - intros Hn. apply He. intros Hc. apply Hn. unfold configured in *. simpl.
    destruct (root w) as [| |l']; try done.
    pose proof (lookup_insert_kind (heap w) l o o' l' El Hk) as Hl.
    destruct (heap w !! l') as [[| r |]|], (<[l := o']> (heap w) !! l') as [[| r' |]|];
      simpl in *; done.
Qed.

(** [SetTraceLevel] and [SetOutput], when they return, have changed one
    object at most and kept its type. *)
Lemma Trace_SetTraceLevel_inv t lv w w' :
  Trace_SetTraceLevel t lv w = Ok tt w' ->
  w' = w \/ exists l o o', heap w !! l = Some o /\ same_kind o o' /\
    w' = set_heap (<[l := o']> (heap w)) w.
Proof.
  unfold Trace_SetTraceLevel, embedded, base_SetTraceLevel, BareBones_SetTraceLevel,
    store, modify, mbind, M_bind, deref, mret, M_ret, panic.
  intros E.
  repeat (case_match; simplify_eq/=; try by left).
  all: match goal with
       | Hl : heap _ !! ?l = Some _ |- _ =>
           right; exists l; eexists _, _; split; [exact Hl|];
           split; [|reflexivity]; done
       end.
Qed.

Lemma Trace_SetOutput_inv t wr w w' :
  Trace_SetOutput t wr w = Ok tt w' ->
  w' = w \/ exists l o o', heap w !! l = Some o /\ same_kind o o' /\
    w' = set_heap (<[l := o']> (heap w)) w.
Proof.
  unfold Trace_SetOutput, embedded, base_SetOutput, BareBones_SetOutput,
    store, modify, mbind, M_bind, deref, mret, M_ret, panic.
  intros E.
  repeat (case_match; simplify_eq/=; try by left).
  all: match goal with
       | Hl : heap _ !! ?l = Some _ |- _ =>
           right; exists l; eexists _, _; split; [exact Hl|];
           split; [|reflexivity]; done
       end.
Qed.

Lemma Trace_GetTraceLevel_inv t lv w w' :
  Trace_GetTraceLevel t w = Ok lv w' -> w' = w.
Proof.
  unfold Trace_GetTraceLevel, embedded, base_GetTraceLevel, BareBones_GetTraceLevel,
    mbind, M_bind, deref, mret, M_ret, panic.
  intros E. by repeat (case_match; simplify_eq/=).
Qed.

Lemma Inv_init : Inv init_world.
Proof.
  split; simpl; try done; try apply map_Forall_empty.
Qed.

Lemma Inv_Teardown w w' : Teardown w = Ok tt w' -> Inv w'.
Proof.
  intros [= <-]. split; simpl; try done; try apply map_Forall_empty.
Qed.

Lemma Inv_set_selector s w : Inv w -> Inv (set_selector s w).
Proof. intros [Hr Ht He]. by split. Qed.

Lemma Inv_Root w t w' : Inv w -> Root w = Ok t w' -> Inv w'.
Proof.
  intros HI E. destruct (decide (configured w)) as [Hc|Hn].
  - rewrite (Root_configured _ Hc) in E. by simplify_eq.
  - destruct (Root_unconfigured w HI Hn) as (t1 & w1 & E1 & _ & _ & _ & HI1 & _).
    rewrite E in E1. by simplify_eq.
Qed.

Lemma Inv_NewTracer name replace w p w' :
  Inv w -> NewTracer name replace w = Ok p w' -> Inv w'.
Proof.
  intros HI E. destruct (decide (configured w)) as [Hc|Hn].
  - unfold configured in Hc. destruct (root w) as [| |l] eqn:Er; try done.
    destruct (heap w !! l) as [[o|r|c lv o]|] eqn:El; try done.
    destruct (NewTracer_configured name replace w l r HI Er El)
      as (trace & w1 & w2 & _ & E2 & Hrest).
    rewrite E in E2. simplify_eq. apply Hrest.
  - destruct (NewTracer_unconfigured name replace w HI Hn)
      as (t & w2 & _ & E2 & _ & _ & HI2 & _).
    rewrite E in E2. by simplify_eq.
Qed.

Lemma Inv_GetOrCreateTracer name w t w' :
  Inv w -> GetOrCreateTracer name w = Ok t w' -> Inv w'.
Proof.
  intros HI E. destruct (decide (configured w)) as [Hc|Hn].
  - destruct (GetOrCreateTracer_configured name w HI Hc) as (t2 & w2 & E2 & HI2 & _).
    rewrite E in E2. by simplify_eq.
  - destruct (GetOrCreateTracer_unconfigured name w HI Hn)
      as (t2 & w2 & E2 & _ & _ & _ & HI2 & _).
    rewrite E in E2. by simplify_eq.
Qed.

Lemma Inv_Select key w t w' : Inv w -> Select key w = Ok t w' -> Inv w'.
Proof.
  intros HI. unfold Select. rewrite bind_run. simpl.
  destruct (selector w) as [[|f]|]; simpl.
  - by apply Inv_GetOrCreateTracer.
  - by intros [= _ <-].
  - by intros [= _ <-].
Qed.

(** Every call that returns keeps the invariant. *)
Lemma Inv_do_call c w w' : Inv w -> do_call c w = Ok tt w' -> Inv w'.
Proof.
  intros HI. destruct c; simpl.
  - intros E. apply bind_Ok in E as (t & w1 & E & [= <-]). by eapply Inv_Root.
  - intros E. apply bind_Ok in E as (e & w1 & E & [= <-]).
    destruct (apply_options opts (newRootTracer conf prefixKey0)) as [r0 [err|]] eqn:Eo.
    + rewrite (ConfigureRoot_error _ _ _ _ _ _ Eo) in E. by simplify_eq.
    + pose proof (ConfigureRoot_spec conf prefixKey0 opts r0 w HI Eo) as Hs.
      rewrite E in Hs. destruct Hs as (_ & l & r' & Hrest). apply Hrest.
  - apply Inv_Teardown.
  - rewrite bind_run, GetTracer_run. by intros [= <-].
  - intros E. apply bind_Ok in E as (t & w1 & E & [= <-]).
    by eapply Inv_GetOrCreateTracer.
  - intros E. apply bind_Ok in E as (t & w1 & E & [= <-]). by eapply Inv_NewTracer.
  - intros E. apply bind_Ok in E as (t & w1 & E & [= <-]). by eapply Inv_Select.
  - intros [= <-]. by apply Inv_set_selector.
  - intros E. pose proof (RegisterTraceAdapter_spec key a replace w HI) as Hs.
    rewrite E in Hs. apply Hs.
  - intros E. apply bind_Ok in E as (t & w1 & E & [= <-]).
    pose proof (GetAdapterFromConfiguration_spec conf optKey w HI) as Hs.
    rewrite E in Hs. apply Hs.
  - intros E.
    assert (Hf : (t ← Select "root"; Trace_emit m t msg args) w = Ok tt w')
      by (by destruct m).
    pose proof (facade_spec m msg args w HI) as Hs. rewrite Hf in Hs. apply Hs.
  - intros E. destruct (Trace_emit_inv _ _ _ _ _ _ E) as [o ->].
    by apply Inv_set_output.
  - intros E. destruct (Trace_SetTraceLevel_inv _ _ _ _ E)
      as [->|(l & o & o' & El & Hk & ->)]; [done|]. by eapply Inv_insert_kind.
  - intros E. apply bind_Ok in E as (lv & w1 & E & [= <-]).
    by rewrite (Trace_GetTraceLevel_inv _ _ _ _ E).
  - intros E. destruct (Trace_SetOutput_inv _ _ _ _ E)
      as [->|(l & o & o' & El & Hk & ->)]; [done|]. by eapply Inv_insert_kind.
Qed.

Lemma reachable_Inv w : reachable w -> Inv w.
Proof.
  induction 1 as [|w c w' _ IH E]; [apply Inv_init|]. by eapply Inv_do_call.
Qed.

(** The world after a list of calls that return is reachable. *)
Lemma reachable_exec cs : forall w w',
  reachable w -> exec cs w = Ok tt w' -> reachable w'.
Proof.
  induction cs as [|c cs IH]; intros w w' Hr; simpl.
  - by intros [= <-].
  - intros E. apply bind_Ok in E as ([] & w1 & E1 & E2).
    eapply IH; [|done]. by eapply reachable_call.
Qed.

Lemma reachable_after cs : reachable (after cs).
Proof.
  unfold after. destruct (exec cs init_world) as [[] w|] eqn:E.
  - eapply reachable_exec; [apply reachable_init|done].
  - apply reachable_init.
Qed.

(** * The claims *)

(** ** C1: [Root] after [Teardown] *)

(** After [Teardown], [Root] depends on the once-guard: unused, it installs
    a bare-bones tracer; spent, it returns nil. *)
Lemma Root_after_Teardown w w1 :
  Teardown w = Ok tt w1 ->
  if initRoot w then Root w1 = Ok Nil w1
  else exists w2, Root w1 = Ok (Ref (length (heap w))) w2 /\
         heap w2 !! length (heap w) = Some (BareBones None) /\
         Trace_GetTraceLevel (Ref (length (heap w))) w2 = Ok LevelError w2.
Proof.
  intros E.
  assert (Hw : heap w1 = heap w /\ root w1 = Nil /\ initRoot w1 = initRoot w)
    by (by injection E as <-).
  destruct Hw as (Eh & Er & Ei). destruct (initRoot w).
  - by apply Root_spent.
  - rewrite (Root_lazy _ Er Ei), Eh. eexists. split; [reflexivity|]. simpl.
    split; [apply lookup_snoc|].
    rewrite Trace_GetTraceLevel_ok; simpl; by rewrite ?lookup_snoc.
Qed.

(** C1, at the history [Root(); Teardown()]: the next [Root()] returns nil,
    not a bare-bones tracer, because [Teardown] clears the root but the
    once-guard of [Root] stays spent. *)
Theorem Root_nil_after_lazy_root_and_Teardown :
  value (exec lazy_then_teardown init_world) = Some tt /\
  root (after lazy_then_teardown) = Nil /\
  value (Root (after lazy_then_teardown)) = Some Nil.
Proof. split_and!; by vm_compute. Qed.

(** ** C2 and C3: adapter resolution *)

(** The result of [GetAdapterFromConfiguration] does not depend on
    [optKey]. *)
Lemma GetAdapterFromConfiguration_optKey conf optKey optKey' w :
  GetAdapterFromConfiguration conf optKey w = GetAdapterFromConfiguration conf optKey' w.
Proof. reflexivity. Qed.

(** C2, at a configuration that maps the key "my.adapter" to the
    registered adapter "nop": [GetAdapterFromConfiguration] called with
    that key returns nil, not the factory of "nop". *)
Theorem GetAdapterFromConfiguration_ignores_optKey :
  knownTraceAdapters init_world !! "nop" = Some (Some NopAdapter) /\
  conf_own_key "my.adapter" = "nop" /\
  GetAdapterFromConfiguration conf_own_key "my.adapter" init_world = Ok None init_world.
Proof. split_and!; reflexivity. Qed.

(** C3, at the empty configuration and the initial registry:
    [GetAdapterFromConfiguration] returns nil, since no adapter is
    registered under "bare". *)
Theorem GetAdapterFromConfiguration_returns_nil :
  knownTraceAdapters init_world !! "bare" = None /\
  GetAdapterFromConfiguration (Conf ∅) "" init_world = Ok None init_world.
Proof. split; reflexivity. Qed.

(** The guard of [rootTracer.init] makes up for it: the adapter a root
    tracer remembers is never nil. *)
Lemma rootTracer_init_adapter r w r' w' :
  Inv w -> rootTracer_init r w = Ok r' w' -> adapter r' <> None.
Proof.
  intros HI E. pose proof (rootTracer_init_spec r w HI) as Hs. rewrite E in Hs.
  destruct Hs as (_ & _ & _ & -> & _). done.
Qed.

(** ** C4: the level of a new named tracer *)

Lemma TraceLevelFromString_empty : TraceLevelFromString "" = LevelInfo.
Proof. reflexivity. Qed.

(** [NewTracer] calls [SetTraceLevel] on the new tracer whether or not the
    configuration holds a level for its name. *)
Lemma NewTracer_level name replace w l r :
  Inv w -> root w = Ref l -> heap w !! l = Some (RootTracer r) ->
  exists trace w',
    NewTracer name replace w = Ok (trace, default Nil (selectableTracers w !! name)) w' /\
    Trace_GetTraceLevel trace w' =
      Ok (inherited_level (adapter r)
            (TraceLevelFromString (getValue (config r) (prefixKey r) name))) w'.
Proof.
  intros HI Er El.
  destruct (NewTracer_configured name replace w l r HI Er El)
    as (trace & w1 & w' & E1 & E & Eh & Hb & _).
  exists trace, w'. split; [done|].
  rewrite Trace_GetTraceLevel_ok by (by apply base_valid_valid).
  rewrite level_of_base by done. rewrite Eh. f_equal.
  by eapply adapter_set_level.
Qed.

(** C4, with gologadapter's factory (level Error) and a configuration
    without a level key for "a": the tracer [NewTracer] creates for "a" has
    level Info, not the level the factory gave it. *)
Theorem NewTracer_overrides_factory_level :
  value (exec golog_root init_world) = Some tt /\
  getValue conf_go "" "a" = "" /\
  impl_level gologTracer = LevelError /\
  value ((p ← NewTracer "a" false; Trace_GetTraceLevel p.1) (after golog_root)) =
    Some LevelInfo.
Proof. split_and!; by vm_compute. Qed.

(** ** C6: options that fail, options that succeed *)

(** An option that errs: [ConfigureRoot] returns the error and leaves the
    world as it is.  No option errs: [ConfigureRoot] installs the new root
    and returns nil, provided the facade can hand out a tracer for "root"
    (which [rootTracer.init] logs to when no adapter is found). *)
Lemma ConfigureRoot_atomic conf p opts w :
  Inv w ->
  match apply_options opts (newRootTracer conf p) with
  | (_, Some err) => ConfigureRoot conf p opts w = Ok (Some err) w
  | (r0, None) =>
      selector_ok w ->
      exists w', ConfigureRoot conf p opts w = Ok None w' /\ configure_post r0 w w'
  end.
Proof.
  intros HI. destruct (apply_options _ _) as [r0 [err|]] eqn:Eo.
  - by eapply ConfigureRoot_error.
  - intros Hs. pose proof (ConfigureRoot_spec conf p opts r0 w HI Eo) as Hc.
    destruct (ConfigureRoot conf p opts w) as [e w'|]; [|done].
    destruct Hc as [-> Hp]. by exists w'.
Qed.

(** C6, after the history [Root(); Teardown(); SetTraceSelector(Selector())]:
    [ConfigureRoot] with the empty configuration and no option panics and
    installs nothing.  [Root] returns nil there, the facade selects it for
    "root", and [rootTracer.init] calls [Debugf] on it. *)
Theorem ConfigureRoot_panics_on_nil_root :
  value (exec lazy_teardown_select init_world) = Some tt /\
  apply_options [] (newRootTracer (Conf ∅) "") = (newRootTracer (Conf ∅) "", None) /\
  value (Select "root" (after lazy_teardown_select)) = Some Nil /\
  ConfigureRoot (Conf ∅) "" [] (after lazy_teardown_select) = Panic.
Proof. split_and!; by vm_compute. Qed.

(** ** C7: the bare-bones tracer *)

Lemma string_app_assoc (a b c : string) : (a ++ b) ++ c = a ++ (b ++ c).
Proof.
  induction a as [|x a IH]; [done|].
  change (String x ((a ++ b) ++ c) = String x (a ++ (b ++ c))). by rewrite IH.
Qed.

Lemma string_app_nil_r (a : string) : a ++ "" = a.
Proof.
  induction a as [|x a IH]; [done|].
  change (String x (a ++ "") = String x a). by rewrite IH.
Qed.

Lemma written_app w sink o :
  written (set_output (output w ++ o) w) sink =
  written w sink ++ written (set_output o w) sink.
Proof.
  unfold written. simpl. induction (output w) as [|e out IH]; simpl; [done|].
  rewrite IH. destruct (decide (e.1 = sink)); [|done].
  by rewrite string_app_assoc.
Qed.

(** The methods of a bare-bones tracer. *)
Lemma BareBones_methods w l out msg args lv sink :
  heap w !! l = Some (BareBones out) ->
  Trace_Debugf (Ref l) msg args w = Ok tt w /\
  Trace_Infof (Ref l) msg args w = Ok tt w /\
  Trace_GetTraceLevel (Ref l) w = Ok LevelError w /\
  Trace_SetTraceLevel (Ref l) lv w = Ok tt w /\
  Trace_Errorf (Ref l) msg args w =
    Ok tt (set_output
      (output w ++
       [match out with
        | Some wr => (wr, Sprintf msg args)
        | None => (os_Stderr, Sprintf ("[ERROR] " ++ msg ++ nl) args)
        end]) w) /\
  Trace_SetOutput (Ref l) sink w =
    Ok tt (set_heap (<[l := BareBones (Some sink)]> (heap w)) w).
Proof.
  intros El.
  unfold Trace_SetOutput, Trace_Errorf, Trace_Debugf, Trace_Infof, Trace_emit,
    Trace_GetTraceLevel, Trace_SetTraceLevel, embedded, base_SetOutput, base_emit,
    base_GetTraceLevel, base_SetTraceLevel, BareBones_Errorf,
    mbind, M_bind, deref.
  rewrite !El. simpl. rewrite !El. split_and!; try done. by destruct out.
Qed.

(** C7: on a bare-bones tracer redirected to [sink], [Errorf] writes the
    formatted message to [sink] and nothing else, [Debugf] and [Infof]
    write nothing, [GetTraceLevel] is Error, and [SetTraceLevel] and [P]
    change nothing; [P] returns the tracer itself. *)
Theorem BareBones_redirected w l o sink msg args lv key val :
  heap w !! l = Some (BareBones o) ->
  exists w1,
    Trace_SetOutput (Ref l) sink w = Ok tt w1 /\
    (exists w2, Trace_Errorf (Ref l) msg args w1 = Ok tt w2 /\
       output w2 = (output w1 ++ [(sink, Sprintf msg args)])%list /\
       written w2 sink = written w1 sink ++ Sprintf msg args /\
       heap w2 = heap w1) /\
    Sprintf "boom" [] = "boom" /\
    Trace_Debugf (Ref l) msg args w1 = Ok tt w1 /\
    Trace_Infof (Ref l) msg args w1 = Ok tt w1 /\
    Trace_GetTraceLevel (Ref l) w1 = Ok LevelError w1 /\
    Trace_SetTraceLevel (Ref l) lv w1 = Ok tt w1 /\
    BareBones_P l key val w1 = Ok (Ref l) w1.
Proof.
  intros El.
  assert (Hlt : l < length (heap w)) by (by eapply lookup_lt_Some).
  set (w1 := set_heap (<[l := BareBones (Some sink)]> (heap w)) w).
  assert (El1 : heap w1 !! l = Some (BareBones (Some sink)))
    by (by apply list_lookup_insert_eq).
  destruct (BareBones_methods w l o msg args lv sink El) as (_ & _ & _ & _ & _ & Eo).
  destruct (BareBones_methods w1 l (Some sink) msg args lv sink El1)
    as (Ed & Ei & Eg & Es & Ee & _).
  exists w1. split_and!; try done.
  eexists. split; [exact Ee|]. split_and!; try done.
  rewrite written_app. f_equal. unfold written. simpl.
  rewrite decide_True by done. by rewrite string_app_nil_r.
Qed.

(** ** C8: the registration policy *)

Lemma registered_lookup key a replace (reg : gmap string Adapter) :
  let stores := reg !! key = None \/ reg !! key = Some None \/ replace = true in
  (stores -> registered key a replace reg = <[key := a]> reg) /\
  (~ stores -> registered key a replace reg = reg) /\
  (registered key a replace reg !! key = Some a <-> stores \/ reg !! key = Some a) /\
  (forall k, k <> key -> registered key a replace reg !! k = reg !! k).
Proof.
  simpl.
  assert (Hcase : (reg !! key = None \/ reg !! key = Some None \/ replace = true) /\
                    registered key a replace reg = <[key := a]> reg \/
                  ~ (reg !! key = None \/ reg !! key = Some None \/ replace = true) /\
                    registered key a replace reg = reg).
  { unfold registered. destruct (reg !! key) as [[f|]|] eqn:E; [|left; tauto|left; tauto].
    destruct replace; [left; tauto|]. right. split; [|done].
    intros [?|[?|?]]; done. }
  destruct Hcase as [[Hs ->]|[Hn ->]].
  - split_and!; try done.
    + rewrite lookup_insert_eq. tauto.
    + intros k Hk. by rewrite lookup_insert_ne.
  - split_and!; try done. tauto.
Qed.

(** C8: when [RegisterTraceAdapter key a replace] returns, it has stored
    [a] under [key] if no entry existed, the entry was nil, or [replace] is
    true, and has left the registry as it was otherwise, so that the first
    registration that is not nil wins over later calls without [replace].
    The registry then maps [key] to [a] exactly if one of the three holds,
    or (registering again what is registered) the entry was [a] already.
    Other keys are not touched.  The call returns whenever the facade can
    hand out a tracer for "root". *)
Theorem RegisterTraceAdapter_policy key a replace w :
  reachable w ->
  let reg := knownTraceAdapters w in
  let stores := reg !! key = None \/ reg !! key = Some None \/ replace = true in
  match RegisterTraceAdapter key a replace w with
  | Ok _ w' =>
      let reg' := knownTraceAdapters w' in
      (stores -> reg' = <[key := a]> reg) /\
      (~ stores -> reg' = reg) /\
      (reg' !! key = Some a <-> stores \/ reg !! key = Some a) /\
      (forall k, k <> key -> reg' !! k = reg !! k) /\
      (reg !! key <> Some a -> (reg' !! key = Some a <-> stores)) /\
      (~ stores -> reg' !! key = reg !! key /\
         exists f, reg !! key = Some (Some f) /\ replace = false)
  | Panic => ~ selector_ok w
  end.
Proof.
  intros Hr. apply reachable_Inv in Hr.
  pose proof (RegisterTraceAdapter_spec key a replace w Hr) as Hs.
  destruct (RegisterTraceAdapter key a replace w) as [[] w'|]; [|done].
  destruct Hs as (-> & _).
  destruct (registered_lookup key a replace (knownTraceAdapters w)) as (H1 & H2 & H3 & H4).
  simpl. split_and!; try done.
  - intros Hne. rewrite H3. tauto.
  - intros Hns. rewrite (H2 Hns). split; [done|].
    destruct (knownTraceAdapters w !! key) as [[f|]|] eqn:E.
    + exists f. split; [done|]. destruct replace; [|done]. destruct Hns. tauto.
    + destruct Hns. tauto.
    + destruct Hns. tauto.
Qed.

(** ** C9: selecting a name twice *)

(** C9: with trace2go's selector installed and a configured root, the
    first [Select n] returns a tracer that is stored under [n], and the
    second returns the same tracer and changes nothing; likewise for
    [GetOrCreateTracer]. *)
Theorem Select_twice_same n w :
  reachable w -> selector w = Some trace2goSelector -> configured w ->
  exists t w1,
    Select n w = Ok t w1 /\ Select n w1 = Ok t w1 /\
    GetOrCreateTracer n w = Ok t w1 /\ GetOrCreateTracer n w1 = Ok t w1 /\
    t <> Nil /\ selectableTracers w1 !! n = Some t.
Proof.
  intros Hr Es Hc. apply reachable_Inv in Hr.
  destruct (GetOrCreateTracer_configured n w Hr Hc)
    as (t & w1 & E & HI1 & _ & [Es1 _] & _ & Hb & Et & _).
  assert (E1 : GetOrCreateTracer n w1 = Ok t w1) by (by apply GetOrCreateTracer_found).
  exists t, w1. unfold Select. rewrite !bind_run. simpl. rewrite Es1, Es. simpl.
  split_and!; try done. by eapply base_valid_not_Nil.
Qed.

(** ** C10: named tracers without a configured root *)

(** C10: when the root is not a configured [rootTracer], [GetOrCreateTracer]
    and [NewTracer] return the root tracer, whatever the name, and the table
    of named tracers stays as it is, empty; called again, they return the
    same once more.  The root tracer is the installed root, a bare-bones
    tracer, and nothing changes; when no root is installed and the
    once-guard is unused it is the bare-bones tracer that [Root] creates and
    installs in this call. *)
Theorem unconfigured_root_is_every_tracer w :
  reachable w -> ~ configured w ->
  exists t w',
    Root w = Ok t w' /\ root w' = t /\ ~ configured w' /\
    selectableTracers w' = selectableTracers w /\ selectableTracers w' = ∅ /\
    (root w <> Nil ->
       t = root w /\ t <> Nil /\ w' = w /\
       exists l out, t = Ref l /\ heap w !! l = Some (BareBones out)) /\
    (root w = Nil -> initRoot w = false ->
       t = Ref (length (heap w)) /\
       heap w' = (heap w ++ [BareBones None])%list /\
       heap w' !! length (heap w) = Some (BareBones None) /\
       initRoot w' = true /\ output w' = output w) /\
    forall n replace,
      GetOrCreateTracer n w = Ok t w' /\
      NewTracer n replace w = Ok (t, Nil) w' /\
      GetOrCreateTracer n w' = Ok t w' /\
      NewTracer n replace w' = Ok (t, Nil) w'.
Proof.
  intros Hr Hn. apply reachable_Inv in Hr.
  destruct (Root_unconfigured w Hr Hn) as (t & w' & E & E' & Er & Hn' & HI' & _ & Et & _).
  exists t, w'. split_and!; try done.
  - by apply (inv_empty _ HI').
  - intros Hnil. rewrite (Root_installed _ Hnil) in E. injection E as <- <-.
    split_and!; try done.
    pose proof (inv_root _ Hr) as Hro. unfold configured in Hn.
    destruct (root w) as [| |l]; try done. simpl in Hro.
    destruct (heap w !! l) as [[out|r|c lv o]|] eqn:El; try done.
    by exists l, out.
  - intros Hnil Hi. rewrite (Root_lazy _ Hnil Hi) in E. injection E as <- <-.
    simpl. split_and!; try done. apply lookup_snoc.
  - intros n replace.
    destruct (NewTracer_unconfigured n replace w Hr Hn) as (t1 & w1 & E1 & E2 & _).
    destruct (GetOrCreateTracer_unconfigured n w Hr Hn) as (t2 & w2 & E3 & E4 & _).
    destruct (NewTracer_unconfigured n replace w' HI' Hn') as (t3 & w3 & E5 & E6 & _).
    destruct (GetOrCreateTracer_unconfigured n w' HI' Hn') as (t4 & w4 & E7 & E8 & _).
    rewrite E in E1, E4. rewrite E' in E5, E8. by simplify_eq.
Qed.

(** ** C5: replacing the named tracers *)

(** C5, amended: when [ConfigureRoot] replaces a configured root with
    [replaceChildren] set and returns, it returns nil, and every named
    tracer [prev] other than "root" is replaced by a tracer that the new
    root's adapter built after the call began and on which [SetTraceLevel]
    was called with the level of [prev]: it reports that level when the
    adapter's tracers store the level they are given, and what they make of
    it otherwise.  The call returns whenever the facade can hand out a
    tracer for "root". *)
Theorem ConfigureRoot_replaces_tracers conf p opts r0 w :
  reachable w -> configured w ->
  apply_options opts (newRootTracer conf p) = (r0, None) ->
  replaceChildren r0 = true ->
  match ConfigureRoot conf p opts w with
  | Ok e w' =>
      e = None /\
      exists l r',
        root w' = Ref l /\ heap w' !! l = Some (RootTracer r') /\
        adapter r' =
          Some (default BareAdapter (resolve (config r0) (knownTraceAdapters w))) /\
        forall k prev,
          k <> "root" -> selectableTracers w !! k = Some prev ->
          exists ch lv,
            selectableTracers w' !! k = Some ch /\ fresh_in (heap w) ch /\
            Trace_GetTraceLevel prev w = Ok lv w /\
            Trace_GetTraceLevel ch w' = Ok (inherited_level (adapter r') lv) w' /\
            (forall c, adapter r' = Some (ImplAdapter c) -> honours_level c ->
               Trace_GetTraceLevel ch w' = Ok lv w')
  | Panic => ~ selector_ok w
  end.
Proof.
  intros Hr Hc Eo Erc. apply reachable_Inv in Hr.
  pose proof (ConfigureRoot_spec conf p opts r0 w Hr Eo) as Hp.
  destruct (ConfigureRoot conf p opts w) as [e w'|]; [|done].
  destruct Hp as (-> & l & r' & Er & El & _ & _ & _ & _ & _ & Ea & HI' & _ & _ & Hrep).
  split; [done|]. exists l, r'. split_and!; try done.
  intros k prev Hk Ek. specialize (Hrep k prev Hk Ek).
  rewrite bool_decide_eq_true_2, Erc in Hrep by done. simpl in Hrep.
  destruct Hrep as (ch & Et & Hb & Hf & Hl).
  assert (Hpv : base_valid (heap w) prev) by (by eapply (inv_table _ Hr)).
  exists ch, (level_of (heap w) prev). split_and!; try done.
  - by apply Trace_GetTraceLevel_ok, base_valid_valid.
  - rewrite Trace_GetTraceLevel_ok by (by apply base_valid_valid). by rewrite Hl.
  - intros c Ec Hh. rewrite Trace_GetTraceLevel_ok by (by apply base_valid_valid).
    rewrite Hl, Ec. simpl. by rewrite Hh.
Qed.

End Theory.

(** * Further properties *)

Section MoreTheory.

Context `{GoLib}.

(** ** Trace levels *)

Lemma ToLower_level_names tl tl' :
  ToLower (TraceLevel_String tl) = ToLower (TraceLevel_String tl') -> tl = tl'.
Proof. by destruct tl, tl'. Qed.

(** X1: [TraceLevelFromString] is the inverse of [TraceLevel.String] up to
    the case of the letters, and gives Info for every other string: it
    returns [tl] exactly if the string lowers to the lowered name of [tl],
    or [tl] is Info and the string lowers to no level's name. *)
Theorem TraceLevelFromString_spec s tl :
  TraceLevelFromString s = tl <->
  ToLower s = ToLower (TraceLevel_String tl) \/
  (tl = LevelInfo /\ forall tl', ToLower s <> ToLower (TraceLevel_String tl')).
Proof.
  unfold TraceLevelFromString.
  destruct (String.eqb_spec (ToLower s) "debug") as [Ed|Nd].
  { split; [intros <-; by left|]. rewrite Ed. intros [E|[_ Hn]].
    - by apply (ToLower_level_names LevelDebug tl).
    - by destruct (Hn LevelDebug). }
  destruct (String.eqb_spec (ToLower s) "info") as [Ei|Ni].
  { split; [intros <-; by left|]. rewrite Ei. intros [E|[-> _]]; [|done].
    by apply (ToLower_level_names LevelInfo tl). }
  destruct (String.eqb_spec (ToLower s) "error") as [Ee|Ne].
  { split; [intros <-; by left|]. rewrite Ee. intros [E|[_ Hn]].
    - by apply (ToLower_level_names LevelError tl).
    - by destruct (Hn LevelError). }
  split.
  - intros <-. right. split; [done|]. by intros [].
  - intros [E|[-> _]]; [|done]. by destruct tl.
Qed.

(** ** Teardown, and the facade without a selector *)

Lemma Select_default key w : selector w = None -> Select key w = Ok noOpTrace w.
Proof. intros Es. unfold Select. rewrite bind_run. simpl. by rewrite Es. Qed.

Lemma facade_default m msg args w :
  selector w = None -> (t ← Select "root"; Trace_emit m t msg args) w = Ok tt w.
Proof. intros Es. by rewrite bind_run, Select_default. Qed.

(** X2: [Teardown] always returns.  It empties the table of named
    tracers, clears the root and removes the selector, so that afterwards
    [Select] gives the no-op tracer for every key, [GetTracer] gives nil and
    the facade functions do nothing.  It keeps the tracer objects, the
    adapter registry and the once-guard of [Root]. *)
Theorem Teardown_resets w :
  exists w1, Teardown w = Ok tt w1 /\
    root w1 = Nil /\ selectableTracers w1 = ∅ /\ selector w1 = None /\
    heap w1 = heap w /\ knownTraceAdapters w1 = knownTraceAdapters w /\
    initRoot w1 = initRoot w /\
    forall key m msg args,
      Select key w1 = Ok noOpTrace w1 /\ GetTracer key w1 = Ok Nil w1 /\
      (t ← Select "root"; Trace_emit m t msg args) w1 = Ok tt w1.
Proof.
  eexists. split; [reflexivity|]. simpl. split_and!; done.
Qed.

(** X3: with no selector installed, package tracing leaves trace2go alone
    and writes nothing: [RegisterTraceAdapter] changes the registry only,
    [GetAdapterFromConfiguration] returns the resolved adapter and changes
    nothing, and the facade functions change nothing. *)
Theorem tracing_without_selector key a replace conf optKey m msg args w :
  selector w = None ->
  RegisterTraceAdapter key a replace w =
    Ok tt (set_knownTraceAdapters (registered key a replace (knownTraceAdapters w)) w) /\
  GetAdapterFromConfiguration conf optKey w = Ok (resolve conf (knownTraceAdapters w)) w /\
  (t ← Select "root"; Trace_emit m t msg args) w = Ok tt w.
Proof.
  intros Es. split_and!.
  - unfold RegisterTraceAdapter, Infof, Trace_Infof.
    rewrite bind_run, (facade_default _ _ _ _ Es), bind_run. simpl.
    unfold registered. destruct w as [h out r i tb sl reg]; simpl in *.
    destruct (reg !! key) as [[f|]|]; try destruct replace; simpl; try done.
    all: unfold modify, set_knownTraceAdapters; simpl.
    all: try (f_equal; f_equal; by rewrite ?insert_id).
  - unfold GetAdapterFromConfiguration, resolve, Debugf, Trace_Debugf.
    rewrite bind_run. simpl.
    destruct (knownTraceAdapters w !! _) as [[f|]|]; simpl; try done;
      by rewrite bind_run, (facade_default _ _ _ _ Es).
  - by apply facade_default.
Qed.

(** ** [Root] *)

(** X4: [Root] always returns, and calling it again returns the same
    tracer and changes nothing more.  It never replaces an installed root,
    and it changes neither the named tracers nor the objects already
    there. *)
Theorem Root_idempotent w :
  exists t w', Root w = Ok t w' /\ Root w' = Ok t w' /\ root w' = t /\
    (root w <> Nil -> w' = w) /\
    heap_sub (heap w) (heap w') /\ selectableTracers w' = selectableTracers w /\
    keeps w w'.
Proof.
  destruct (root w) as [| |l] eqn:Er.
  - destruct (initRoot w) eqn:Ei.
    + exists Nil, w. rewrite (Root_spent _ Er Ei).
      split_and!; try done; try apply heap_sub_refl; try apply keeps_refl.
    + eexists _, _. split; [by apply Root_lazy|]. split; [by apply Root_installed|].
      simpl. split_and!; try done; try apply heap_sub_app.
  - exists noOpTrace, w. rewrite <- Er. rewrite Root_installed by (by rewrite Er).
    split_and!; try done; try apply heap_sub_refl; try apply keeps_refl.
  - exists (Ref l), w. rewrite <- Er. rewrite Root_installed by (by rewrite Er).
    split_and!; try done; try apply heap_sub_refl; try apply keeps_refl.
Qed.

(** ** The registry of package schuko *)

(** X5: [schuko.GetAdapterFromConfiguration] never returns nil: it returns
    the factory registered under the value of "tracing" if there is one
    that is not nil, and gologadapter's factory otherwise, as for every
    configuration on the initial registry, whose one entry is that factory.
    A factory added with [AddTraceAdapter] under the configured value is the
    one returned, whatever was registered before. *)
Theorem schuko_adapter_resolution conf f (reg : gmap string Adapter) :
  schuko_GetAdapterFromConfiguration conf reg <> None /\
  schuko_GetAdapterFromConfiguration conf schuko_knownTraceAdapters =
    Some (ImplAdapter gologTracer) /\
  schuko_GetAdapterFromConfiguration conf
    (schuko_AddTraceAdapter (conf "tracing") (Some f) reg) = Some f /\
  schuko_GetAdapterFromConfiguration conf
    (schuko_AddTraceAdapter (conf "tracing") None reg) = Some (ImplAdapter gologTracer).
Proof.
  unfold schuko_GetAdapterFromConfiguration, schuko_AddTraceAdapter,
    schuko_knownTraceAdapters.
  rewrite !lookup_insert_eq. simpl. split_and!; try done.
  - by destruct (default None (reg !! conf "tracing")).
  - destruct (decide (conf "tracing" = "go")) as [->|Hne].
    + by rewrite lookup_singleton_eq.
    + by rewrite lookup_singleton_ne.
Qed.

(** ** The test configuration *)

(** X6: [Conf.Set] stores the value and returns the one it replaces ("" if
    there was none): afterwards the key is set and [GetString] returns the
    value, while every other key reads as before. *)
Theorem testadapter_Set_Get key value key' (c : gmap string string) :
  (testadapter_Set key value c).1 = testadapter_GetString key c /\
  testadapter_GetString key (testadapter_Set key value c).2 = value /\
  testadapter_IsSet key (testadapter_Set key value c).2 = true /\
  (key' <> key ->
   testadapter_GetString key' (testadapter_Set key value c).2 =
     testadapter_GetString key' c /\
   testadapter_IsSet key' (testadapter_Set key value c).2 = testadapter_IsSet key' c /\
   testadapter_GetBool key' (testadapter_Set key value c).2 = testadapter_GetBool key' c).
Proof.
  unfold testadapter_Set, testadapter_GetString, testadapter_IsSet, testadapter_GetBool.
  simpl. rewrite lookup_insert_eq. split_and!; try done.
  intros Hne. by rewrite !lookup_insert_ne.
Qed.

(** X7: a key that is not set reads as "" and as false, and nothing is
    set in a new configuration; [GetBool] is true exactly for a key set to
    "true" in whatever case, so after [Set key value] it tells whether
    [value] lowers to "true". *)
Theorem testadapter_unset_and_bool key value (c : gmap string string) :
  testadapter_IsSet key testadapter_New = false /\
  (testadapter_IsSet key c = false ->
   testadapter_GetString key c = "" /\ testadapter_GetBool key c = false) /\
  (testadapter_GetBool key c = true <->
   exists v, c !! key = Some v /\ ToLower v = "true") /\
  (testadapter_GetBool key (testadapter_Set key value c).2 = true <->
   ToLower value = "true").
Proof.
  unfold testadapter_Set, testadapter_GetString, testadapter_IsSet, testadapter_GetBool,
    testadapter_New.
  simpl. rewrite lookup_insert_eq, lookup_empty. split_and!.
  - done.
  - intros Hn. apply bool_decide_eq_false in Hn.
    destruct (c !! key) as [v|]; [|done]. destruct Hn. by exists v.
  - destruct (c !! key) as [v|]; split.
    + intros Hv. exists v. split; [done|]. by apply String.eqb_eq.
    + intros (v' & [= <-] & Hv). by apply String.eqb_eq.
    + done.
    + by intros (v' & ? & _).
  - apply String.eqb_eq.
Qed.

(** ** Tracers that keep a level *)

Lemma gologTracer_honours_level : honours_level gologTracer.
Proof. by intros l cur. Qed.

Lemma gotestingTracer_honours_level Logf t : honours_level (gotestingTracer Logf t).
Proof. by intros l cur. Qed.

(** X9: a gologadapter tracer at level [lv] writes a message exactly for
    the methods whose level is not above [lv], so [Errorf] always writes;
    what it writes is one line of the logger, with the prefix of the
    method, to its output, and nothing else changes. *)
Theorem gologTracer_filter lv out l m msg args w :
  heap w !! l = Some (Tracer gologTracer lv out) ->
  Trace_emit m (Ref l) msg args w =
    Ok tt (if (level_num (method_level m) <=? level_num lv)%nat
           then set_output
                  (output w ++
                   [(out, log_line (logLevelPrefix (method_level m)) (Sprintf msg args))]) w
           else w) /\
  exists o, Trace_Errorf (Ref l) msg args w = Ok tt (set_output (output w ++ [o]) w).
Proof.
  intros El.
  assert (Hb : base_valid (heap w) (Ref l)) by (simpl; by rewrite El).
  unfold Trace_Errorf, Trace_emit. rewrite !bind_run, (embedded_base _ _ Hb). simpl.
  unfold mbind, M_bind, deref. rewrite El. unfold Tracer_emit. simpl.
  split.
  - destruct (Nat.leb_spec (level_num (method_level m)) (level_num lv)) as [Hle|Hgt].
    + rewrite (proj2 (Nat.ltb_ge _ _)) by lia. done.
    + rewrite (proj2 (Nat.ltb_lt _ _)) by lia. done.
  - eexists. by destruct lv.
Qed.

(** X10: a gotestingadapter tracer logs a message exactly when the
    method's level is not above the tracer's and a [testing.T] is at hand,
    its own or else the global one (the text is then marked "depr.").  The
    text handed to [Logf] is the method's prefix, the prefix [P] left, and
    the message.  Writing clears the prefix of [P], so that it shows in one
    message only, whereas a message that is not written leaves the tracer as
    it is and the prefix pending.  [SetTraceLevel] sets the level
    [GetTraceLevel] returns and drops a pending prefix.  With a [testing.T]
    and no pending prefix the tracer writes what [gotestingTracer] writes. *)
Theorem gotestingTracer_filter Logf G m s args tr :
  (tr_level tr < level_num (method_level m) \/ (tr_t tr = None /\ G = None) ->
   gotesting_emit Logf G m s args tr = (tr, None)) /\
  (forall t, level_num (method_level m) <= tr_level tr -> tr_t tr = Some t ->
   gotesting_emit Logf G m s args tr =
     ({| tr_t := Some t; tr_p := ""; tr_level := tr_level tr |},
      Some (Buffer t, Logf ((logLevelPrefix (method_level m) ++ tr_p tr) ++ s) args))) /\
  (forall g, level_num (method_level m) <= tr_level tr -> tr_t tr = None -> G = Some g ->
   gotesting_emit Logf G m s args tr =
     ({| tr_t := None; tr_p := ""; tr_level := tr_level tr |},
      Some (Buffer g,
            Logf (("depr." ++ logLevelPrefix (method_level m) ++ tr_p tr) ++ s) args))) /\
  (forall t key val m' s' args',
     tr_t tr = Some t -> level_num (method_level m) <= tr_level tr ->
     level_num (method_level m') <= tr_level tr ->
     exists tr1,
       gotesting_emit Logf G m s args (gotesting_P key val tr) =
         (tr1, Some (Buffer t,
            Logf ((logLevelPrefix (method_level m) ++ tr_p (gotesting_P key val tr)) ++ s)
              args)) /\
       gotesting_emit Logf G m' s' args' tr1 =
         (tr1, Some (Buffer t, Logf (logLevelPrefix (method_level m') ++ s') args'))) /\
  (forall key val, tr_level tr < level_num (method_level m) ->
     gotesting_emit Logf G m s args (gotesting_P key val tr) =
       (gotesting_P key val tr, None)) /\
  (forall l, gotesting_GetTraceLevel (gotesting_SetTraceLevel l tr) = l /\
             tr_p (gotesting_SetTraceLevel l tr) = "" /\
             tr_t (gotesting_SetTraceLevel l tr) = tr_t tr) /\
  (forall t lv, tr_t tr = Some t -> tr_p tr = "" -> tr_level tr = level_num lv ->
     gotesting_emit Logf G m s args tr =
       (tr, option_map (fun text => (Buffer t, text))
              (impl_emit (gotestingTracer Logf t) m lv s args))).
Proof.
  destruct tr as [t0 p0 lv0]. unfold gotesting_emit, gotesting_output. simpl.
  split_and!.
  - intros [Hlt|[-> ->]].
    + by rewrite (proj2 (Nat.ltb_lt _ _)) by lia.
    + by destruct (lv0 <? _)%nat.
  - intros t Hle ->. by rewrite (proj2 (Nat.ltb_ge _ _)) by lia.
  - intros g Hle -> ->. by rewrite (proj2 (Nat.ltb_ge _ _)) by lia.
  - intros t key val m' s' args' -> Hle Hle'.
    rewrite (proj2 (Nat.ltb_ge _ _)) by lia. eexists. split; [reflexivity|].
    simpl. rewrite (proj2 (Nat.ltb_ge _ _)) by lia.
    by rewrite string_app_nil_r.
  - intros key val Hlt. by rewrite (proj2 (Nat.ltb_lt _ _)) by lia.
  - done.
  - intros t lv -> -> ->. destruct (level_num lv <? _)%nat; simpl; [done|].
    by rewrite string_app_nil_r.
Qed.

(** ** [Dump] *)


(** ** What every reachable world satisfies *)

(** X12: in every reachable world the table of named tracers holds no
    nil: a tracer stored under a name is one whose methods return, and
    [GetTracer] finds it.  Names are stored under a configured root only:
    without one the table is empty. *)
Theorem named_tracers_usable w k t :
  reachable w -> selectableTracers w !! k = Some t ->
  t <> Nil /\ configured w /\
  GetTracer k w = Ok t w /\
  Trace_GetTraceLevel t w = Ok (level_of (heap w) t) w /\
  forall m msg args, exists o, Trace_emit m t msg args w = Ok tt (set_output o w).
Proof.
  intros Hr Ek. apply reachable_Inv in Hr.
  assert (Hb : base_valid (heap w) t) by (by eapply (inv_table _ Hr)).
  split_and!.
  - by eapply base_valid_not_Nil.
  - destruct (decide (configured w)) as [|Hn]; [done|].
    rewrite (inv_empty _ Hr Hn), lookup_empty in Ek. done.
  - by rewrite GetTracer_run, Ek.
  - by apply Trace_GetTraceLevel_ok, base_valid_valid.
  - intros m msg args. by apply Trace_emit_ok, base_valid_valid.
Qed.

(** X13: among the calls of a client, only [RegisterTraceAdapter] changes
    the adapter registry, and only [SetTraceSelector] and [Teardown] change
    the selector. *)
Theorem registry_and_selector_frame c w w' :
  reachable w -> do_call c w = Ok tt w' ->
  match c with
  | CallRegisterTraceAdapter _ _ _ => selector w' = selector w
  | CallSetTraceSelector _ | CallTeardown =>
      knownTraceAdapters w' = knownTraceAdapters w
  | _ => keeps w w'
  end.
Proof.
  intros Hr. apply reachable_Inv in Hr. destruct c; simpl.
  - intros E. apply bind_Ok in E as (t & w1 & E & [= <-]).
    destruct (Root_idempotent w) as (t' & w2 & E' & _ & _ & _ & _ & _ & Hk).
    rewrite E in E'. by simplify_eq.
  - intros E. apply bind_Ok in E as (e & w1 & E & [= <-]).
    destruct (apply_options opts (newRootTracer conf prefixKey0)) as [r0 [err|]] eqn:Eo.
    + rewrite (ConfigureRoot_error _ _ _ _ _ _ Eo) in E. simplify_eq. apply keeps_refl.
    + pose proof (ConfigureRoot_spec conf prefixKey0 opts r0 w Hr Eo) as Hs.
      rewrite E in Hs. destruct Hs as (_ & l & r' & Hrest). apply Hrest.
  - by intros [= <-].
  - rewrite bind_run, GetTracer_run. intros [= <-]. apply keeps_refl.
  - intros E. apply bind_Ok in E as (t & w1 & E & [= <-]).
    destruct (decide (configured w)) as [Hc|Hn].
    + destruct (GetOrCreateTracer_configured name w Hr Hc) as (t2 & w2 & E2 & _ & _ & Hk & _).
      rewrite E in E2. by simplify_eq.
    + destruct (GetOrCreateTracer_unconfigured name w Hr Hn)
        as (t2 & w2 & E2 & _ & _ & _ & _ & _ & _ & Hk).
      rewrite E in E2. by simplify_eq.
  - intros E. apply bind_Ok in E as (t & w1 & E & [= <-]).
    destruct (decide (configured w)) as [Hc|Hn].
    + unfold configured in Hc. destruct (root w) as [| |l] eqn:Er; try done.
      destruct (heap w !! l) as [[o|r|c lv o]|] eqn:El; try done.
      destruct (NewTracer_configured name replace w l r Hr Er El)
        as (trace & w1' & w2 & _ & E2 & _ & _ & _ & _ & _ & _ & Hk & _).
      rewrite E in E2. by simplify_eq.
    + destruct (NewTracer_unconfigured name replace w Hr Hn)
        as (t2 & w2 & _ & E2 & _ & _ & _ & _ & _ & Hk).
      rewrite E in E2. by simplify_eq.
  - intros E. apply bind_Ok in E as (t & w1 & E & [= <-]).
    unfold Select in E. rewrite bind_run in E. simpl in E.
    destruct (selector w) as [[|f]|] eqn:Es; simpl in E.
    + destruct (decide (configured w)) as [Hc|Hn].
      * destruct (GetOrCreateTracer_configured key w Hr Hc) as (t2 & w2 & E2 & _ & _ & Hk & _).
        rewrite E in E2. by simplify_eq.
      * destruct (GetOrCreateTracer_unconfigured key w Hr Hn)
          as (t2 & w2 & E2 & _ & _ & _ & _ & _ & _ & Hk).
        rewrite E in E2. by simplify_eq.
    + unfold mret, M_ret in E. simplify_eq. apply keeps_refl.
    + unfold mret, M_ret in E. simplify_eq. apply keeps_refl.
  - by intros [= <-].
  - intros E. pose proof (RegisterTraceAdapter_spec key a replace w Hr) as Hs.
    rewrite E in Hs. apply Hs.
  - intros E. apply bind_Ok in E as (t & w1 & E & [= <-]).
    pose proof (GetAdapterFromConfiguration_spec conf optKey w Hr) as Hs.
    rewrite E in Hs. apply Hs.
  - intros E.
    assert (Hf : (t ← Select "root"; Trace_emit m t msg args) w = Ok tt w')
      by (by destruct m).
    pose proof (facade_spec m msg args w Hr) as Hs. rewrite Hf in Hs. apply Hs.
  - intros E. destruct (Trace_emit_inv _ _ _ _ _ _ E) as [o ->]. by split.
  - intros E. destruct (Trace_SetTraceLevel_inv _ _ _ _ E)
      as [->|(l & o & o' & El & Hk & ->)]; by split.
  - intros E. apply bind_Ok in E as (lv & w1 & E & [= <-]).
    rewrite (Trace_GetTraceLevel_inv _ _ _ _ E). apply keeps_refl.
  - intros E. destruct (Trace_SetOutput_inv _ _ _ _ E)
      as [->|(l & o & o' & El & Hk & ->)]; by split.
Qed.

(** ** Named tracers under a configured root *)

(** X14: with a configured root, [NewTracer] returns a newly built
    tracer, never nil and allocated by this call, together with the previous
    holder of the name (nil if there was none).  The new tracer takes the
    name unless the name was taken and [replace] is false; no other name
    and not the root is touched. *)
Theorem NewTracer_stores name replace w :
  reachable w -> configured w ->
  exists trace w',
    NewTracer name replace w =
      Ok (trace, default Nil (selectableTracers w !! name)) w' /\
    trace <> Nil /\ fresh_in (heap w) trace /\
    GetTracer name w' =
      Ok (match selectableTracers w !! name with
          | Some old => if replace then trace else old
          | None => trace
          end) w' /\
    (forall k, k <> name -> selectableTracers w' !! k = selectableTracers w !! k) /\
    root w' = root w.
Proof.
  intros Hr Hc. apply reachable_Inv in Hr.
  unfold configured in Hc. destruct (root w) as [| |l] eqn:Er; try done.
  destruct (heap w !! l) as [[o|r|c lv o]|] eqn:El; try done.
  destruct (NewTracer_configured name replace w l r Hr Er El)
    as (trace & w1 & w' & _ & E & _ & Hb & Hf & _ & Er' & Et & _).
  exists trace, w'. split_and!; try done.
  - by eapply base_valid_not_Nil.
  - rewrite GetTracer_run, Et.
    destruct (selectableTracers w !! name) as [old|] eqn:En; simpl.
    + destruct replace; simpl; [by rewrite lookup_insert_eq|by rewrite En].
    + by rewrite lookup_insert_eq.
  - intros k Hk. rewrite Et. case_match; [done|]. by apply lookup_insert_ne.
  - congruence.
Qed.

(** X15: the level of a tracer created for a new name under a configured
    root whose adapter's tracers store the level they are given: it is read
    from the configuration under the prefix followed by the name, then with
    a dot, then with a slash between them; a name without an entry gets
    Info, whatever level the adapter built the tracer with. *)
Theorem named_tracer_level name c l r w :
  reachable w -> root w = Ref l -> heap w !! l = Some (RootTracer r) ->
  adapter r = Some (ImplAdapter c) -> honours_level c ->
  selectableTracers w !! name = None ->
  exists t w', GetOrCreateTracer name w = Ok t w' /\
    selectableTracers w' !! name = Some t /\
    Trace_GetTraceLevel t w' =
      Ok (TraceLevelFromString (getValue (config r) (prefixKey r) name)) w' /\
    (forall v, v <> "" ->
       config r (prefixKey r ++ name) = v \/
       (config r (prefixKey r ++ name) = "" /\
        (config r (prefixKey r ++ "." ++ name) = v \/
         (config r (prefixKey r ++ "." ++ name) = "" /\
          config r (prefixKey r ++ "/" ++ name) = v))) ->
       Trace_GetTraceLevel t w' = Ok (TraceLevelFromString v) w') /\
    (config r (prefixKey r ++ name) = "" ->
     config r (prefixKey r ++ "." ++ name) = "" ->
     config r (prefixKey r ++ "/" ++ name) = "" ->
     Trace_GetTraceLevel t w' = Ok LevelInfo w').
Proof.
  intros Hr Er El Ea Hh En. apply reachable_Inv in Hr.
  destruct (NewTracer_configured name false w l r Hr Er El)
    as (trace & w1 & w' & _ & E & _ & _ & _ & _ & _ & Et & _).
  destruct (NewTracer_level name false w l r Hr Er El) as (trace' & w'' & E' & Hl).
  rewrite E in E'. simplify_eq.
  rewrite En in Et. simpl in Et.
  rewrite Ea in Hl. simpl in Hl. rewrite Hh in Hl.
  exists trace', w''. rewrite (GetOrCreateTracer_missing _ _ En), bind_run, E. simpl.
  split_and!; try done.
  - rewrite Et. apply lookup_insert_eq.
  - intros v Hv Hcases. rewrite Hl. do 2 f_equal. unfold getValue.
    destruct Hcases as [E1|[E1 [E2|[E2 E3]]]].
    + rewrite E1. by rewrite (proj2 (String.eqb_neq _ _) Hv).
    + rewrite E1, E2. simpl. by rewrite (proj2 (String.eqb_neq _ _) Hv).
    + rewrite E1, E2, E3. simpl. by rewrite (proj2 (String.eqb_neq _ _) Hv).
  - intros E1 E2 E3. rewrite Hl. unfold getValue. by rewrite E1, E2, E3.
Qed.

(** X16: with trace2go's selector and a configured root, the tracer the
    facade selects for "root" is not the root tracer: the first call creates
    a named tracer "root" of its own, which later calls return, and [Root]
    still returns the root. *)
Theorem Select_root_is_a_named_tracer w :
  reachable w -> configured w -> selector w = Some trace2goSelector ->
  selectableTracers w !! "root" = None ->
  exists t w', Select "root" w = Ok t w' /\
    t <> root w' /\ t <> Nil /\ fresh_in (heap w) t /\
    Select "root" w' = Ok t w' /\
    Root w' = Ok (root w) w' /\ root w' = root w.
Proof.
  intros Hr Hc Es En. apply reachable_Inv in Hr.
  assert (Hsel : forall v, Select "root" v = (s ← gets selector;
     match s with Some sel => TraceSelector_Select sel "root" | None => mret noOpTrace end) v)
    by done.
  pose proof Hc as Hc'.
  unfold configured in Hc. destruct (root w) as [| |l] eqn:Er; try done.
  destruct (heap w !! l) as [[o|r|c lv o]|] eqn:El; try done.
  destruct (NewTracer_configured "root" false w l r Hr Er El)
    as (trace & w1 & w' & _ & E & _ & Hb & Hf & Hs & Er' & Et & [Hk _] & HI').
  rewrite En in Et, E. simpl in Et, E.
  exists trace, w'.
  assert (Ell : l < length (heap w)) by (by eapply lookup_lt_Some).
  split_and!.
  - rewrite Hsel, bind_run. simpl. rewrite Es. simpl.
    by rewrite (GetOrCreateTracer_missing _ _ En), bind_run, E.
  - rewrite Er', Er. intros ->. simpl in Hf. lia.
  - by eapply base_valid_not_Nil.
  - done.
  - rewrite Hsel, bind_run. simpl. rewrite Hk, Es. simpl.
    apply GetOrCreateTracer_found; [done|]. rewrite Et. apply lookup_insert_eq.
  - rewrite Root_installed by (rewrite Er', Er; done). by rewrite Er', Er.
  - congruence.
Qed.

(** ** The facade over a bare-bones root *)

(** X17: with trace2go's selector and no configured root, the facade
    logs to the bare-bones root, creating it if need be: [Errorf] writes the
    message to the root's sink ([os.Stderr] with a prefix and a newline
    unless redirected), [Infof] and [Debugf] write nothing. *)
Theorem facade_on_bare_root msg args w :
  reachable w -> ~ configured w -> root_available w ->
  selector w = Some trace2goSelector ->
  exists l out w1,
    Root w = Ok (Ref l) w1 /\ heap w1 !! l = Some (BareBones out) /\
    Infof msg args w = Ok tt w1 /\
    Debugf msg args w = Ok tt w1 /\
    Errorf msg args w =
      Ok tt (set_output
        (output w1 ++
         [match out with
          | Some wr => (wr, Sprintf msg args)
          | None => (os_Stderr, Sprintf ("[ERROR] " ++ msg ++ nl) args)
          end]) w1).
Proof.
  intros Hr Hn Ha Es. apply reachable_Inv in Hr.
  destruct (GetOrCreateTracer_unconfigured "root" w Hr Hn)
    as (t & w1 & E & ER & Er & Hn1 & HI1 & _).
  pose proof (Root_available _ _ _ Ha ER) as Hnil.
  destruct HI1 as [Hro _ _]. unfold configured in Hn1. rewrite Er in Hro, Hn1.
  destruct t as [| |l]; try done. simpl in Hro.
  destruct (heap w1 !! l) as [[out|r|c lv o]|] eqn:El; try done.
  exists l, out, w1.
  destruct (BareBones_methods w1 l out msg args LevelError os_Stderr El)
    as (Hd & Hi & _ & _ & He & _).
  assert (Hsel : Select "root" w = Ok (Ref l) w1).
  { unfold Select. rewrite bind_run. simpl. by rewrite Es. }
  unfold Infof, Debugf, Errorf. rewrite !bind_run, Hsel. done.
Qed.

(** ** More on [ConfigureRoot] *)

Lemma call_adapter_level a w t w1 :
  call_adapter a w = Ok t w1 -> base_level (heap w1) t = factory_level a.
Proof.
  destruct a as [[| |c]|]; simpl; try done.
  - by intros [= <- <-].
  - intros [= <- <-]. simpl. by rewrite lookup_snoc.
  - intros [= <- <-]. simpl. by rewrite lookup_snoc.
Qed.

(** The level of the tracer [rootTracer.init] embeds in the root. *)
Lemma rootTracer_init_level r w :
  Inv w ->
  match rootTracer_init r w with
  | Ok r' w' =>
      base_level (heap w') (rt_Trace r') =
        init_level (adapter r') (getValue (config r) (prefixKey r) "root")
  | Panic => True
  end.
Proof.
  intros HI. unfold rootTracer_init. rewrite bind_run.
  pose proof (GetAdapterFromConfiguration_spec (config r) (optAdapterKey r) w HI) as Hg.
  destruct (GetAdapterFromConfiguration _ _ w) as [a w1|]; [|done].
  destruct Hg as [-> Hp1].
  set (a := match resolve (config r) (knownTraceAdapters w) with
            | Some f => Some f | None => Some BareAdapter end).
  assert (Ha : a <> None) by (unfold a; by destruct (resolve _ _)).
  destruct (call_adapter_ok a w1 Ha) as (tr & w2 & E2 & Hs2 & Hb2 & Hf2 & Er2 & Et2 & Hk2).
  rewrite bind_run, E2, bind_run. unfold init_level.
  destruct (String.eqb (getValue (config r) (prefixKey r) "root") ""); simpl.
  - by eapply call_adapter_level.
  - destruct (Trace_SetTraceLevel_ok tr
      (TraceLevelFromString (getValue (config r) (prefixKey r) "root")) w2 Hb2)
      as (w3 & E3 & Eh3 & _).
    rewrite E3. simpl. rewrite Eh3. by eapply adapter_set_level.
Qed.

(** [ConfigureRoot] installs the root [rootTracer.init] built, keeps every
    object that existed after [init], and adds no name to the table. *)
Lemma ConfigureRoot_run conf p opts r0 w :
  Inv w -> apply_options opts (newRootTracer conf p) = (r0, None) ->
  match ConfigureRoot conf p opts w with
  | Ok e w' => exists r' w1, rootTracer_init r0 w = Ok r' w1 /\
      heap_sub (heap w1) (heap w') /\ root w' = Ref (length (heap w1)) /\
      heap w' !! length (heap w1) = Some (RootTracer r') /\
      (forall k, selectableTracers w1 !! k = None -> selectableTracers w' !! k = None)
  | Panic => True
  end.
Proof.
  intros HI Eo. unfold ConfigureRoot. rewrite Eo, bind_run.
  pose proof (rootTracer_init_spec r0 w HI) as Hi.
  destruct (rootTracer_init r0 w) as [r' w1|]; [|done].
  destruct Hi as (Hp & Hb & Hf & Ea & Ec & Ep & Ek & Erc).
  destruct Hp as (HI1 & Hs1 & Hk1 & Hc1 & Hn1 & Ht1).
  rewrite bind_run. simpl. rewrite bind_run.
  destruct (decide (configured w)) as [Hc|Hn].
  - assert (Hcw1 : configured w1) by (eapply configured_sub; eauto).
    destruct (is_BareBones_configured w1 Hcw1) as [-> ->]. simpl.
    assert (Hv : valid (heap w1) (root w1)).
    { apply root_ok_valid; [apply HI1|]. unfold configured in Hcw1.
      by destruct (root w1). }
    destruct (Trace_emit_ok MInfof (root w1) "replacing root tracer" [] w1 Hv) as (o2 & E2).
    unfold Trace_Infof. rewrite bind_run, E2, bind_run. simpl.
    rewrite bind_run. simpl.
    set (h3 := (heap w1 ++ [RootTracer r'])%list).
    set (rt := Ref (length (heap w1))).
    set (w3 := set_root rt (set_heap h3 (set_output o2 w1))).
    assert (El3 : h3 !! length (heap w1) = Some (RootTracer r')) by apply lookup_snoc.
    assert (Hs3 : heap_sub (heap w1) h3) by apply heap_sub_app.
    assert (Hv3 : valid (heap w3) rt).
    { simpl. rewrite El3. by eapply base_valid_sub. }
    destruct (Trace_emit_ok MInfof rt "welcome to the new root tracer" [] w3 Hv3)
      as (o4 & E4).
    rewrite bind_run, E4.
    set (w4 := set_output o4 w3).
    assert (HI4 : Inv w4).
    { split; simpl.
      - rewrite El3. split; [by eapply base_valid_sub|by rewrite Ea].
      - eapply table_valid_sub; [done|apply HI1].
      - intros Hn. exfalso. apply Hn. unfold configured. simpl. by rewrite El3. }
    destruct (replaceChildren r') eqn:Erc'.
    + rewrite bind_run, bind_run. simpl.
      destruct (replaceTracers_loop_spec (length (heap w1)) r'
        (map_to_list (selectableTracers w1)).*1 w4 HI4 eq_refl El3)
        as (w5 & E5 & HI5 & Hs5 & Er5 & Hk5 & Hoth5 & Hrep5).
      { apply NoDup_fst_map_to_list. }
      { intros k Hk'. apply list_elem_of_fmap in Hk' as [[k' t] [-> Hk']].
        apply elem_of_map_to_list in Hk'. simpl. eauto. }
      unfold rt. rewrite E5. simpl.
      exists r', w1. split_and!; try done.
      * by eapply heap_sub_trans.
      * by apply Hs5.
      * intros k Ek1. rewrite Hoth5; [done|]. left. intros Hel.
        apply list_elem_of_fmap in Hel as [[k' t] [-> Hk']].
        apply elem_of_map_to_list in Hk'. simpl in Ek1. congruence.
    + rewrite bind_run. simpl. exists r', w1. split_and!; done.
  - assert (Hnw1 : ~ configured w1) by auto.
    destruct (is_BareBones_unconfigured w1 (inv_root _ HI1) Hnw1) as (b & -> & ->).
    simpl. exists r', w1. simpl. rewrite lookup_snoc.
    split_and!; try done. apply heap_sub_app.
Qed.

(** X18: the level of the root [ConfigureRoot] installs.  With an entry
    for "root" under the prefix the root's tracer is set to that level (as
    far as the adapter's tracers take a level); without one it keeps the
    level the adapter built it with, unlike a named tracer, which gets
    Info. *)
Theorem ConfigureRoot_root_level conf p opts r0 w :
  reachable w -> selector_ok w ->
  apply_options opts (newRootTracer conf p) = (r0, None) ->
  exists w', ConfigureRoot conf p opts w = Ok None w' /\
    configured w' /\
    Trace_GetTraceLevel (root w') w' =
      Ok (init_level
            (Some (default BareAdapter (resolve (config r0) (knownTraceAdapters w))))
            (getValue (config r0) (prefixKey r0) "root")) w'.
Proof.
  intros Hr Hok Eo. apply reachable_Inv in Hr.
  pose proof (ConfigureRoot_spec conf p opts r0 w Hr Eo) as Hs.
  pose proof (ConfigureRoot_run conf p opts r0 w Hr Eo) as Hrun.
  destruct (ConfigureRoot conf p opts w) as [e w'|]; [|done].
  destruct Hs as [-> _].
  destruct Hrun as (r' & w1 & Ei & Hsub & Er & El & _).
  pose proof (rootTracer_init_spec r0 w Hr) as Hi.
  pose proof (rootTracer_init_level r0 w Hr) as Hl.
  rewrite Ei in Hi, Hl. destruct Hi as (_ & Hb & _ & Ea & _).
  exists w'. split; [done|]. split.
  - unfold configured. by rewrite Er, El.
  - rewrite Trace_GetTraceLevel_ok.
    + f_equal. rewrite Er. simpl. rewrite El.
      rewrite (base_level_sub _ _ _ Hsub Hb). by rewrite Hl, Ea.
    + rewrite Er. simpl. rewrite El. by eapply base_valid_sub.
Qed.

(** X19: [ConfigureRoot] without [ReplaceTracers(true)] keeps the table
    of named tracers as it is, apart from "root": every name holds the
    tracer it held, at the level it had, and no name is added. *)
Theorem ConfigureRoot_keeps_named_tracers conf p opts r0 w :
  reachable w -> selector_ok w ->
  apply_options opts (newRootTracer conf p) = (r0, None) ->
  replaceChildren r0 = false ->
  exists w', ConfigureRoot conf p opts w = Ok None w' /\
    forall k, k <> "root" ->
      selectableTracers w' !! k = selectableTracers w !! k /\
      forall t, selectableTracers w !! k = Some t ->
        Trace_GetTraceLevel t w' = Ok (level_of (heap w) t) w' /\
        Trace_GetTraceLevel t w = Ok (level_of (heap w) t) w.
Proof.
  intros Hr Hok Eo Erc. apply reachable_Inv in Hr.
  pose proof (ConfigureRoot_spec conf p opts r0 w Hr Eo) as Hs.
  pose proof (ConfigureRoot_run conf p opts r0 w Hr Eo) as Hrun.
  destruct (ConfigureRoot conf p opts w) as [e w'|]; [|done].
  destruct Hs as [-> (l & r' & _ & _ & _ & _ & _ & _ & _ & _ & HI' & Hsub & _ & Hkeep)].
  destruct Hrun as (r'' & w1 & Ei & _ & _ & _ & Hnone).
  pose proof (rootTracer_init_spec r0 w Hr) as Hi. rewrite Ei in Hi.
  destruct Hi as ((_ & _ & _ & _ & _ & Ht1) & _).
  exists w'. split; [done|]. intros k Hk.
  assert (Ek : selectableTracers w' !! k = selectableTracers w !! k).
  { destruct (selectableTracers w !! k) as [t|] eqn:Ek.
    - specialize (Hkeep k t Hk Ek). by rewrite Erc, andb_false_r in Hkeep.
    - apply Hnone. by rewrite Ht1. }
  split; [done|]. intros t Et.
  assert (Hb : base_valid (heap w) t) by (by eapply (inv_table _ Hr)).
  rewrite !Trace_GetTraceLevel_ok.
  - split; [|done]. f_equal. rewrite !level_of_base; [by apply base_level_sub|done|].
    by eapply base_valid_sub.
  - by apply base_valid_valid.
  - apply base_valid_valid. by eapply base_valid_sub.
Qed.

Lemma Teardown_world w :
  exists w1, Teardown w = Ok tt w1 /\ selector w1 = None /\ selectableTracers w1 = ∅.
Proof. eexists. split; [reflexivity|]. done. Qed.

Lemma rootTracer_init_default r w r' w' :
  selector w = None -> rootTracer_init r w = Ok r' w' ->
  selectableTracers w' = selectableTracers w.
Proof.
  intros Es. unfold rootTracer_init. rewrite bind_run.
  assert (Eg : GetAdapterFromConfiguration (config r) (optAdapterKey r) w =
               Ok (resolve (config r) (knownTraceAdapters w)) w).
  { unfold GetAdapterFromConfiguration, resolve, Debugf, Trace_Debugf.
    rewrite bind_run. simpl.
    destruct (knownTraceAdapters w !! _) as [[f|]|]; simpl; try done;
      by rewrite bind_run, (facade_default _ _ _ _ Es). }
  rewrite Eg.
  set (a := match resolve (config r) (knownTraceAdapters w) with
            | Some f => Some f | None => Some BareAdapter end).
  assert (Ha : a <> None) by (unfold a; by destruct (resolve _ _)).
  destruct (call_adapter_ok a w Ha) as (tr & w2 & E2 & Hs2 & Hb2 & Hf2 & Er2 & Et2 & Hk2).
  rewrite bind_run, E2, bind_run.
  destruct (negb (String.eqb (getValue (config r) (prefixKey r) "root") "")).
  - destruct (Trace_SetTraceLevel_ok tr
      (TraceLevelFromString (getValue (config r) (prefixKey r) "root")) w2 Hb2)
      as (w3 & E3 & _ & _ & Et3 & _).
    rewrite E3. simpl. intros [= _ <-]. congruence.
  - simpl. intros [= _ <-]. congruence.
Qed.

(** X20: after [Teardown], [ConfigureRoot] with options that do not err
    always returns nil and installs a configured root, which [Root] then
    returns, also when the once-guard of the lazy root is spent; the table
    of named tracers is empty and no selector is installed. *)
Theorem ConfigureRoot_after_Teardown conf p opts r0 w :
  apply_options opts (newRootTracer conf p) = (r0, None) ->
  exists w1 w', Teardown w = Ok tt w1 /\
    ConfigureRoot conf p opts w1 = Ok None w' /\
    configured w' /\ root w' <> Nil /\ Root w' = Ok (root w') w' /\
    selectableTracers w' = ∅ /\ selector w' = None.
Proof.
  intros Eo.
  destruct (Teardown_world w) as (w1 & Et & Es1 & Etb1).
  assert (HI : Inv w1) by (by eapply Inv_Teardown).
  pose proof (ConfigureRoot_spec conf p opts r0 w1 HI Eo) as Hs.
  pose proof (ConfigureRoot_run conf p opts r0 w1 HI Eo) as Hrun.
  destruct (ConfigureRoot conf p opts w1) as [e w'|] eqn:E.
  - destruct Hs as [-> (l & r' & Er & El & _ & _ & _ & _ & _ & _ & HI' & Hsub & [Hk _] & _)].
    destruct Hrun as (r'' & w2 & Ei & _ & _ & _ & Hnone).
    exists w1, w'. split; [exact Et|]. split; [done|].
    assert (Hroot : root w' <> Nil) by (by rewrite Er).
    split_and!; try done.
    + unfold configured. by rewrite Er, El.
    + by apply Root_installed.
    + apply map_eq. intros k. rewrite lookup_empty. apply Hnone.
      rewrite (rootTracer_init_default _ _ _ _ Es1 Ei), Etb1. apply lookup_empty.
    + congruence.
  - exfalso. apply Hs. unfold selector_ok. by rewrite Es1.
Qed.

(** ** The registry and the options *)

(** X21: an adapter registered with [RegisterTraceAdapter] under a key
    that is free (or with [replace]) is the one
    [GetAdapterFromConfiguration] resolves for a configuration that names
    the key under "tracing.adapter", or under "tracing" when
    "tracing.adapter" is empty. *)
Theorem registered_adapter_is_resolved key f replace conf optKey w :
  reachable w -> selector_ok w ->
  key <> "" ->
  conf "tracing.adapter" = key \/
    (conf "tracing.adapter" = "" /\ conf "tracing" = key) ->
  replace = true \/ knownTraceAdapters w !! key = None \/
    knownTraceAdapters w !! key = Some None ->
  exists w1, RegisterTraceAdapter key (Some f) replace w = Ok tt w1 /\
    GetAdapterFromConfiguration conf optKey w1 = Ok (Some f) w1.
Proof.
  intros Hr Hok Hkey Hconf Hfree. apply reachable_Inv in Hr.
  pose proof (RegisterTraceAdapter_spec key (Some f) replace w Hr) as Hs.
  destruct (RegisterTraceAdapter key (Some f) replace w) as [[] w1|]; [|done].
  destruct Hs as (Ereg & _ & _).
  exists w1. split; [done|].
  assert (El : knownTraceAdapters w1 !! key = Some (Some f)).
  { rewrite Ereg. unfold registered.
    destruct Hfree as [->|[E|E]].
    - destruct (knownTraceAdapters w !! key) as [[g|]|]; apply lookup_insert_eq.
    - destruct (knownTraceAdapters w !! key) as [[g|]|] eqn:E';
        try apply lookup_insert_eq; done.
    - destruct (knownTraceAdapters w !! key) as [[g|]|] eqn:E';
        try apply lookup_insert_eq; done. }
  unfold GetAdapterFromConfiguration.
  assert (Ek : (if String.eqb (conf "tracing.adapter") "" then conf "tracing"
                else conf "tracing.adapter") = key).
  { destruct Hconf as [E|[E1 E2]].
    - rewrite E. by rewrite (proj2 (String.eqb_neq _ _) Hkey).
    - by rewrite E1. }
  simpl. rewrite Ek, bind_run. simpl. by rewrite El.
Qed.

(** X22: the two options of the package, [ReplaceTracers] and
    [AdapterKey], never return an error: a list of them leaves the
    configuration and the prefix as given, and [ConfigureRoot] with such a
    list returns nil and installs a configured root whenever the facade can
    log. *)
Theorem builtin_options_never_err conf p opts w :
  reachable w -> selector_ok w -> Forall builtin_option opts ->
  exists r0 w',
    apply_options opts (newRootTracer conf p) = (r0, None) /\
    config r0 = conf /\ prefixKey r0 = p /\
    ConfigureRoot conf p opts w = Ok None w' /\ configured w'.
Proof.
  intros Hr Hok Hopts. apply reachable_Inv in Hr.
  assert (Ho : forall r, exists r0, apply_options opts r = (r0, None) /\
            config r0 = config r /\ prefixKey r0 = prefixKey r).
  { induction Hopts as [|o rest Hb _ IH]; intros r.
    - by exists r.
    - destruct Hb as [[b ->]|[k ->]]; simpl.
      + destruct (IH {| rt_Trace := rt_Trace r; config := config r;
                        prefixKey := prefixKey r; optAdapterKey := optAdapterKey r;
                        adapter := adapter r; replaceChildren := b |})
          as (r0 & E & Ec & Ep).
        by exists r0.
      + destruct (IH {| rt_Trace := rt_Trace r; config := config r;
                        prefixKey := prefixKey r; optAdapterKey := k;
                        adapter := adapter r; replaceChildren := replaceChildren r |})
          as (r0 & E & Ec & Ep).
        by exists r0. }
  destruct (Ho (newRootTracer conf p)) as (r0 & Eo & Ec & Ep).
  pose proof (ConfigureRoot_spec conf p opts r0 w Hr Eo) as Hs.
  destruct (ConfigureRoot conf p opts w) as [e w'|]; [|done].
  destruct Hs as [-> (l & r' & Er & El & _)].
  exists r0, w'. split_and!; try done.
  unfold configured. by rewrite Er, El.
Qed.

(** ** [QuickConfig] of gotestingadapter *)

Lemma foldl_insert_lookup {A} (f : A -> string) (v : string) (sels : list A) :
  forall (base : gmap string string) k,
  foldl (fun c sel => <[f sel := v]> c) base sels !! k =
    if bool_decide (k ∈ f <$> sels) then Some v else base !! k.
Proof.
  induction sels as [|x xs IH]; intros base k.
  - done.
  - rewrite fmap_cons. cbn [foldl]. rewrite IH. destruct (decide (k = f x)) as [->|Hne].
    + rewrite lookup_insert_eq.
      rewrite (bool_decide_eq_true_2 (f x ∈ f x :: (f <$> xs))) by left.
      by case_bool_decide.
    + rewrite lookup_insert_ne by done.
      repeat case_bool_decide; try done.
      * exfalso. apply H1. by right.
      * exfalso. apply elem_of_cons in H1 as [?|?]; done.
Qed.

Lemma QuickConfig_conf_lookup sels k :
  QuickConfig_conf sels !! k =
    if bool_decide (k ∈ (fun sel => "tracelevel." ++ sel) <$> sels) then Some "Debug"
    else (<["tracelevel.root" := "Debug"]> {[ "tracing.adapter" := "test" ]} : gmap string string) !! k.
Proof.
  unfold QuickConfig_conf.
  apply (foldl_insert_lookup (fun sel => "tracelevel." ++ sel) "Debug").
Qed.

Lemma QuickConfig_conf_adapter sels :
  Conf (QuickConfig_conf sels) "tracing.adapter" = "test".
Proof.
  unfold Conf. rewrite QuickConfig_conf_lookup.
  rewrite bool_decide_eq_false_2; [done|].
  intros Hel. apply list_elem_of_fmap in Hel as (sel & E & _).
  cbv in E. discriminate E.
Qed.

Lemma QuickConfig_conf_level sels sel :
  sel = "root" \/ sel ∈ sels ->
  getValue (Conf (QuickConfig_conf sels)) "tracelevel" sel = "Debug".
Proof.
  intros Hsel.
  assert (H1 : Conf (QuickConfig_conf sels) ("tracelevel" ++ sel) = "Debug" \/
               Conf (QuickConfig_conf sels) ("tracelevel" ++ sel) = "").
  { unfold Conf. rewrite QuickConfig_conf_lookup. case_bool_decide; [by left|].
    destruct (decide ("tracelevel" ++ sel = "tracelevel.root")) as [->|Hne].
    - left. by rewrite lookup_insert_eq.
    - right. rewrite lookup_insert_ne by done.
      rewrite lookup_singleton_ne; [done|].
      intros E. cbv in E. discriminate E. }
  assert (H2 : Conf (QuickConfig_conf sels) ("tracelevel" ++ "." ++ sel) = "Debug").
  { unfold Conf. rewrite QuickConfig_conf_lookup. case_bool_decide as Hm; [done|].
    destruct Hsel as [->|Hel]; [done|].
    exfalso. apply Hm. apply list_elem_of_fmap. by exists sel. }
  unfold getValue. destruct H1 as [-> | ->]; [done|]. simpl. by rewrite H2.
Qed.

(** A call through the facade leaves the selector usable. *)
Lemma facade_selector_ok m msg args w w' :
  Inv w -> selector_ok w ->
  (t ← Select "root"; Trace_emit m t msg args) w = Ok tt w' -> selector_ok w'.
Proof.
  intros HI Hok E. apply bind_Ok in E as (t & w1 & Es & Ee).
  apply Trace_emit_inv in Ee as [o ->].
  enough (Hok1 : selector_ok w1) by done.
  unfold Select in Es. rewrite bind_run in Es. simpl in Es.
  unfold selector_ok in *.
  destruct (selector w) as [[|f]|] eqn:Esel; simpl in Es.
  - destruct (decide (configured w)) as [Hc|Hn].
    + destruct (GetOrCreateTracer_configured "root" w HI Hc)
        as (t2 & w2 & E2 & _ & _ & [Hk _] & Er & _).
      rewrite Es in E2. simplify_eq. rewrite Hk, Esel. left. rewrite Er.
      unfold configured in Hc. by destruct (root w).
    + destruct (GetOrCreateTracer_unconfigured "root" w HI Hn)
        as (t2 & w2 & E2 & ER & Er & _ & _ & _ & _ & [Hk _]).
      rewrite Es in E2. simplify_eq. rewrite Hk, Esel. left.
      by eapply Root_available.
  - unfold mret, M_ret in Es. simplify_eq. by rewrite Esel.
  - unfold mret, M_ret in Es. simplify_eq. by rewrite Esel.
Qed.

Lemma RegisterTraceAdapter_selector_ok key a replace w w' :
  Inv w -> selector_ok w ->
  RegisterTraceAdapter key a replace w = Ok tt w' -> selector_ok w'.
Proof.
  intros HI Hok E. unfold RegisterTraceAdapter, Infof, Trace_Infof in E.
  apply bind_Ok in E as ([] & w1 & E1 & E2).
  pose proof (facade_selector_ok _ _ _ _ _ HI Hok E1) as Hok1.
  rewrite bind_run in E2. simpl in E2.
  destruct (knownTraceAdapters w1 !! key) as [[f|]|]; try destruct replace;
    unfold modify, mret, M_ret in E2; by simplify_eq.
Qed.

(** X23: [QuickConfig] returns whenever the facade can log.  Afterwards
    trace2go's selector is installed, the testing adapter is registered as
    "test", the root is a configured root at level Debug, and selecting one
    of the given names that holds no tracer yet creates a tracer of the
    testing adapter at level Debug, which logs to the test's log. *)
Theorem QuickConfig_traces_at_Debug Logf t selectors w :
  reachable w -> selector_ok w ->
  exists w', QuickConfig Logf t selectors w = Ok tt w' /\
    selector w' = Some trace2goSelector /\
    knownTraceAdapters w' !! "test" = Some (gotesting_GetAdapter Logf t) /\
    configured w' /\
    Trace_GetTraceLevel (root w') w' = Ok LevelDebug w' /\
    forall sel, sel ∈ selectors -> selectableTracers w' !! sel = None ->
      exists l w'', Select sel w' = Ok (Ref l) w'' /\
        heap w'' !! l = Some (Tracer (gotestingTracer Logf t) LevelDebug (Buffer t)) /\
        selectableTracers w'' !! sel = Some (Ref l) /\
        Trace_GetTraceLevel (Ref l) w'' = Ok LevelDebug w''.
Proof.
  intros Hr Hok. apply reachable_Inv in Hr.
  set (a := gotesting_GetAdapter Logf t).
  set (conf := Conf (QuickConfig_conf selectors)).
  pose proof (RegisterTraceAdapter_spec "test" a true w Hr) as Hs.
  destruct (RegisterTraceAdapter "test" a true w) as [[] w1|] eqn:E1; [|done].
  destruct Hs as (Ereg & Esel1 & HI1).
  pose proof (RegisterTraceAdapter_selector_ok _ _ _ _ _ Hr Hok E1) as Hok1.
  assert (Etest : knownTraceAdapters w1 !! "test" = Some a).
  { rewrite Ereg. unfold registered.
    destruct (knownTraceAdapters w !! "test") as [[g|]|]; apply lookup_insert_eq. }
  set (r0 := {| rt_Trace := Nil; config := conf; prefixKey := "tracelevel";
                optAdapterKey := ""; adapter := None; replaceChildren := true |}).
  assert (Eo : apply_options [ReplaceTracers true] (newRootTracer conf "tracelevel")
               = (r0, None)) by reflexivity.
  pose proof (ConfigureRoot_spec conf "tracelevel" _ r0 w1 HI1 Eo) as Hc.
  pose proof (ConfigureRoot_run conf "tracelevel" _ r0 w1 HI1 Eo) as Hrun.
  destruct (ConfigureRoot conf "tracelevel" [ReplaceTracers true] w1) as [e w2|] eqn:E2;
    [|done].
  destruct Hc as [-> (l & r' & Er & El & _ & Ec & Ep & _ & _ & Ea & HI2 & _ & [_ Hk2] & _)].
  destruct Hrun as (r'' & wi & Ei & Hsub & Er2 & El2 & _).
  assert (l = length (heap wi)) as -> by congruence.
  assert (r'' = r') as -> by congruence.
  pose proof (rootTracer_init_spec r0 w1 HI1) as Hi.
  pose proof (rootTracer_init_level r0 w1 HI1) as Hl.
  rewrite Ei in Hi, Hl. destruct Hi as (_ & Hb & _).
  assert (Eres : resolve conf (knownTraceAdapters w1) = a).
  { unfold resolve, conf. rewrite QuickConfig_conf_adapter. simpl.
    unfold Adapter in *. by rewrite Etest. }
  simpl in Ea, Ec, Ep. rewrite Eres in Ea. simpl in Ea.
  exists (set_selector (Some trace2goSelector) w2). split.
  { unfold QuickConfig. fold a. fold conf. rewrite bind_run, E1, bind_run, E2. done. }
  assert (HI' : Inv (set_selector (Some trace2goSelector) w2)) by (by apply Inv_set_selector).
  simpl. split_and!.
  - done.
  - by rewrite Hk2.
  - unfold configured. simpl. by rewrite Er, El.
  - rewrite Trace_GetTraceLevel_ok.
    + f_equal. simpl. rewrite Er. simpl. rewrite El.
      rewrite (base_level_sub _ _ _ Hsub Hb), Hl, Ea. simpl.
      unfold init_level, conf.
      rewrite (QuickConfig_conf_level selectors "root") by (by left). done.
    + simpl. rewrite Er. simpl. rewrite El. by eapply base_valid_sub.
  - intros sel Hel En.
    destruct (NewTracer_configured sel false _ _ r' HI' Er El)
      as (trace & wa & w'' & Ecall & E & Eh & Hbt & _ & _ & _ & Et & _).
    rewrite Ea in Ecall. simpl in Ecall. injection Ecall as <- <-.
    simpl in En, Et, E. rewrite En in Et, E. simpl in Et, E.
    rewrite Ec, Ep in Eh. unfold conf in Eh.
    rewrite (QuickConfig_conf_level selectors sel) in Eh by (by right).
    simpl in Eh. rewrite lookup_snoc in Eh.
    assert (Elk : heap w'' !! length (heap w2) =
                  Some (Tracer (gotestingTracer Logf t) LevelDebug (Buffer t))).
    { rewrite Eh. apply list_lookup_insert_eq. rewrite length_app. simpl. lia. }
    exists (length (heap w2)), w''. split_and!.
    + unfold Select. rewrite bind_run. simpl.
      rewrite (GetOrCreateTracer_missing sel) by done.
      by rewrite bind_run, E.
    + done.
    + rewrite Et. apply lookup_insert_eq.
    + rewrite Trace_GetTraceLevel_ok by (by apply base_valid_valid).
      simpl. by rewrite Elk.
Qed.

(** ** logrusadapter's levels *)

(** X24: for the three level constants the translation of trace levels
    to logrus levels loses nothing: translating back gives the level again,
    so [GetTraceLevel] after [SetTraceLevel l] on a logrusadapter tracer
    returns [l].  Any other value of the [uint8] comes back as Debug.  The
    other way round only Debug, Info and Error survive: a logger at any
    other level, also the quiet levels Panic, Fatal and Warn, reports
    Debug. *)
Theorem logrus_level_round_trip :
  (forall tl, translateLogLevel (translateTraceLevel (level_num tl)) = tl) /\
  (forall tl log_Level,
     logrus_GetTraceLevel (logrus_SetTraceLevel (level_num tl) log_Level) = tl) /\
  (forall n, level_num (translateLogLevel (translateTraceLevel n)) = n <-> n <= 2) /\
  (forall n log_Level, 2 < n ->
     translateTraceLevel n = logrus_DebugLevel /\
     logrus_GetTraceLevel (logrus_SetTraceLevel n log_Level) = LevelDebug) /\
  (forall ll, translateTraceLevel (level_num (translateLogLevel ll)) = ll <->
     ll = logrus_DebugLevel \/ ll = logrus_InfoLevel \/ ll = logrus_ErrorLevel) /\
  (forall ll, ll <> logrus_InfoLevel -> ll <> logrus_ErrorLevel ->
     logrus_GetTraceLevel ll = LevelDebug).
Proof.
  assert (Hbig : forall n, 2 < n -> translateTraceLevel n = logrus_DebugLevel).
  { intros n Hn. unfold translateTraceLevel. simpl.
    do 3 (destruct n as [|n]; [lia|]). done. }
  split_and!.
  - by intros [].
  - by intros [] ?.
  - intros n. split.
    + intros <-. destruct (translateLogLevel _); simpl; lia.
    + intros Hn. do 3 (destruct n as [|n]; [done|]). lia.
  - intros n ? Hn. unfold logrus_GetTraceLevel, logrus_SetTraceLevel.
    by rewrite (Hbig n Hn).
  - intros []; simpl; split; try done; try tauto; intros [?|[?|?]]; done.
  - by intros [].
Qed.

(** ** Tracing destinations *)

Context `{GoOS}.

Lemma appender_Destination_writer dest w :
  appender_Destination dest = (w, None) -> exists wr, w = WC wr.
Proof.
  unfold appender_Destination. repeat case_match; intros; simplify_eq; by eexists.
Qed.

(** X25: both [Destination] functions return [os.Stdout] and [os.Stderr]
    for their names in any letter case, without asking the operating
    system.  When they return no error the destination is a writer, never
    nil; a URL with a scheme other than "file" gives [os.Stderr] and no
    error.  The two functions differ only when opening the file fails
    because it does not exist. *)
Theorem Destination_results dest :
  (ToLower dest = "stdout" ->
   tracing_Destination dest = (WC os_Stdout, None) /\
   appender_Destination dest = (WC os_Stdout, None)) /\
  (ToLower dest = "stderr" ->
   tracing_Destination dest = (WC os_Stderr, None) /\
   appender_Destination dest = (WC os_Stderr, None)) /\
  (forall w, tracing_Destination dest = (w, None) -> exists wr, w = WC wr) /\
  (forall w, appender_Destination dest = (w, None) -> exists wr, w = WC wr) /\
  (forall Scheme Host Path,
     ToLower dest <> "stdout" -> ToLower dest <> "stderr" ->
     url_Parse dest = inl (Scheme, Host, Path) -> ToLower Scheme <> "file" ->
     tracing_Destination dest = (WC os_Stderr, None) /\
     appender_Destination dest = (WC os_Stderr, None)) /\
  (tracing_Destination dest = appender_Destination dest \/
   exists Scheme Host Path err,
     url_Parse dest = inl (Scheme, Host, Path) /\
     os_OpenFile (if String.eqb Path "" then Host else Path) = inr err /\
     is_ErrNotExist err = true).
Proof.
  unfold tracing_Destination, appender_Destination.
  split_and!.
  - by intros ->.
  - by intros ->.
  - intros w. repeat case_match; intros; simplify_eq; by eexists.
  - intros w. fold (appender_Destination dest). apply appender_Destination_writer.
  - intros Scheme Host Path H1 H2 -> H3.
    by rewrite !(proj2 (String.eqb_neq _ _)) by done.
  - destruct (String.eqb (ToLower dest) "stdout"); [by left|].
    destruct (String.eqb (ToLower dest) "stderr"); [by left|].
    destruct (url_Parse dest) as [[[Scheme Host] Path]|err] eqn:Eu; [|by left].
    destruct (String.eqb (ToLower Scheme) "file"); [|by left].
    destruct (os_OpenFile _) as [f|err] eqn:Eo; [by left|].
    destruct (is_ErrNotExist err) eqn:Ee; [|by left].
    right. by exists Scheme, Host, Path, err.
Qed.

(** X26: [AppenderFromConfig] returns whenever the facade can log, and it
    never returns a nil writer.  Without a destination in the configuration
    it gives [os.Stderr], no error, and does nothing else; when the
    destination cannot be opened it gives [os.Stderr] together with the
    error; otherwise it gives the writer [Destination] opened. *)
Theorem AppenderFromConfig_writer conf w :
  reachable w -> selector_ok w ->
  exists wr err w', AppenderFromConfig conf w = Ok (WC wr, err) w' /\
    (conf "tracing.destination" = "" -> wr = os_Stderr /\ err = None /\ w' = w) /\
    (err <> None -> wr = os_Stderr /\
       exists d e, appender_Destination (conf "tracing.destination") = (d, Some e)) /\
    (err = None -> conf "tracing.destination" <> "" ->
       appender_Destination (conf "tracing.destination") = (WC wr, None)) /\
    facade_post w w'.
Proof.
  intros Hr Hok. apply reachable_Inv in Hr. unfold AppenderFromConfig.
  destruct (String.eqb_spec (conf "tracing.destination") "") as [Ed|Hd]; simpl.
  { exists os_Stderr, None, w. split_and!; try done. by apply facade_post_refl. }
  unfold Infof, Trace_Infof. rewrite bind_run.
  pose proof (facade_spec MInfof ("opening tracing destination %q" ++ nl)
    [AString (conf "tracing.destination")] w Hr) as Hf.
  destruct ((Select "root" ≫= _) w) as [[] w1|] eqn:E1; [|done].
  assert (Hok1 : selector_ok w1) by (by eapply facade_selector_ok).
  assert (HI1 : Inv w1) by apply Hf.
  destruct (appender_Destination (conf "tracing.destination")) as [d [e|]] eqn:Ea.
  - unfold Errorf, Trace_Errorf. rewrite bind_run.
    pose proof (facade_spec MErrorf
      (fmt_verbs "re-directing trace output failed: %w" [AString e]) [] w1 HI1) as Hf2.
    destruct ((Select "root" ≫= _) w1) as [[] w2|] eqn:E2; [|done].
    eexists _, _, _. split; [reflexivity|]. split_and!; try done.
    + intros _. split; [done|]. by exists d, e.
    + by eapply facade_post_trans.
  - destruct (appender_Destination_writer _ _ Ea) as [wr ->].
    exists wr, None, w1. split; [reflexivity|]. split_and!; try done.
Qed.

(** ** package gtrace *)

Lemma lookup_app_plus (h l : list Obj) i : ((h ++ l)%list) !! (length h + i) = l !! i.
Proof. rewrite lookup_app_r by lia. f_equal. lia. Qed.

Lemma lookup_app_len (h l : list Obj) : ((h ++ l)%list) !! length h = l !! 0.
Proof. rewrite lookup_app_r by lia. f_equal. lia. Qed.

(** X27: [CreateTracers] never panics.  With a nil adapter it returns
    the error and changes nothing; with an adapter it returns nil and sets
    the eight global tracers to tracers the adapter built in this call, at
    the level the adapter gives them, eight different objects unless the
    adapter hands out the no-op tracer; it writes nothing and touches
    neither the root nor the named tracers. *)
Theorem CreateTracers_result g w :
  CreateTracers None g w = (g, Some "unable to create global tracers", w) /\
  forall f, exists g' w',
    CreateTracers (Some f) g w = (g', None, w') /\
    Forall (fun t => base_valid (heap w') t /\ fresh_in (heap w) t /\
                     level_of (heap w') t = factory_level (Some f)) (gtracers g') /\
    (f <> NopAdapter -> NoDup (gtracers g')) /\
    heap_sub (heap w) (heap w') /\ output w' = output w /\ root w' = root w /\
    selectableTracers w' = selectableTracers w.
Proof.
  split; [done|]. intros f.
  destruct f as [| |c]; (eexists _, _; split; [reflexivity|]); simpl.
  - split_and!; try done; try apply heap_sub_refl.
    repeat constructor.
  - rewrite !length_app. simpl. rewrite <- !app_assoc. simpl.
    rewrite <- !Nat.add_assoc. unfold gtracers. simpl.
    split_and!; try done.
    + repeat (apply Forall_cons; split;
        [simpl; rewrite ?lookup_app_plus, ?lookup_app_len; simpl; split_and!; try done; lia|]).
      apply Forall_nil_2.
    + intros _. repeat (apply NoDup_cons; split;
        [rewrite ?elem_of_cons, elem_of_nil; intros Hx;
         repeat destruct Hx as [Hx|Hx]; try done; simplify_eq; lia|]).
      apply NoDup_nil_2.
    + intros l o Hl. by apply lookup_app_l_Some.
  - rewrite !length_app. simpl. rewrite <- !app_assoc. simpl.
    rewrite <- !Nat.add_assoc. unfold gtracers. simpl.
    split_and!; try done.
    + repeat (apply Forall_cons; split;
        [simpl; rewrite ?lookup_app_plus, ?lookup_app_len; simpl; split_and!; try done; lia|]).
      apply Forall_nil_2.
    + intros _. repeat (apply NoDup_cons; split;
        [rewrite ?elem_of_cons, elem_of_nil; intros Hx;
         repeat destruct Hx as [Hx|Hx]; try done; simplify_eq; lia|]).
      apply NoDup_nil_2.
    + intros l o Hl. by apply lookup_app_l_Some.
Qed.

Lemma takes_level_set_level h t0 lv t :
  takes_level h t -> takes_level (set_level h t0 lv) t.
Proof.
  destruct t0 as [| |l0]; simpl; try done.
  destruct (h !! l0) as [[o|r|c cur o]|] eqn:E; try done.
  destruct t as [| |l]; simpl; try done.
  destruct (decide (l0 = l)) as [->|Hne].
  - rewrite E. rewrite list_lookup_insert_eq; [done|]. by eapply lookup_lt_Some.
  - by rewrite list_lookup_insert_ne.
Qed.

Lemma muted_set_level h t0 t :
  takes_level h t -> t = t0 \/ base_level h t = LevelError ->
  base_level (set_level h t0 LevelError) t = LevelError.
Proof.
  intros Ht Hc. destruct t0 as [| |l0]; simpl.
  - destruct Hc as [->|Hc]; done.
  - destruct Hc as [->|Hc]; done.
  - destruct (h !! l0) as [[o|r|c cur o]|] eqn:E.
    + destruct Hc as [->|Hc]; [|done]. simpl. by rewrite E.
    + destruct Hc as [->|Hc]; [|done]. simpl. by rewrite E.
    + destruct t as [| |l]; simpl in *; try done.
      destruct (decide (l0 = l)) as [->|Hne].
      * rewrite E in Ht. rewrite list_lookup_insert_eq by (by eapply lookup_lt_Some).
        apply Ht.
      * rewrite list_lookup_insert_ne by done.
        destruct Hc as [[= ->]|Hc]; done.
    + destruct Hc as [->|Hc]; [|done]. simpl. by rewrite E.
Qed.

(** [SetTraceLevel(LevelError)] on each tracer of [ts] in turn. *)
Lemma mute_list_spec : forall ts w,
  Forall (base_valid (heap w)) ts ->
  exists w',
    foldr (fun t k => Trace_SetTraceLevel t LevelError;; k) (mret tt) ts w = Ok tt w' /\
    (forall t, base_valid (heap w) t -> base_valid (heap w') t) /\
    (forall t, takes_level (heap w) t -> takes_level (heap w') t) /\
    (forall t, takes_level (heap w) t -> t ∈ ts \/ base_level (heap w) t = LevelError ->
       base_level (heap w') t = LevelError) /\
    output w' = output w /\ root w' = root w /\
    selectableTracers w' = selectableTracers w /\
    length (heap w') = length (heap w).
Proof.
  induction ts as [|t0 rest IH]; intros w Hts.
  - exists w. split; [done|]. split_and!; try done.
    intros t _ [Hel|Hm]; [by apply elem_of_nil in Hel|done].
  - apply Forall_cons in Hts as [Ht0 Hrest].
    destruct (Trace_SetTraceLevel_ok t0 LevelError w Ht0)
      as (w1 & E1 & Eh1 & Er1 & Et1 & _).
    assert (Eo1 : output w1 = output w).
    { apply Trace_SetTraceLevel_inv in E1 as [->|(l & o & o' & _ & _ & ->)]; done. }
    assert (Hrest1 : Forall (base_valid (heap w1)) rest).
    { rewrite Eh1. eapply Forall_impl; [exact Hrest|].
      intros t. apply base_valid_set_level. }
    destruct (IH w1 Hrest1) as (w' & E & Hbv & Htl & Hm & Eo & Er & Et & El).
    exists w'. simpl. rewrite bind_run, E1.
    split; [done|]. split_and!; try congruence.
    + intros t Hb. apply Hbv. rewrite Eh1. by apply base_valid_set_level.
    + intros t Ht. apply Htl. rewrite Eh1. by apply takes_level_set_level.
    + intros t Ht Hc. apply Hm.
      * rewrite Eh1. by apply takes_level_set_level.
      * destruct Hc as [Hc|Hc].
        -- apply elem_of_cons in Hc as [->|Hc]; [|by left].
           right. rewrite Eh1. apply muted_set_level; [done|by left].
        -- right. rewrite Eh1. apply muted_set_level; [done|by right].
    + rewrite El, Eh1. apply length_set_level.
Qed.

(** X28: [Mute] returns when each global tracer is one whose methods can
    be called, and it writes nothing and creates no object.  Afterwards
    every global tracer whose implementation stores the level it is given
    reports Error, whatever its level was, as the no-op and the bare-bones
    tracer always do; every global tracer can still be called. *)
Theorem Mute_sets_Error g w :
  Forall (base_valid (heap w)) (gtracers g) ->
  exists w', Mute g w = Ok tt w' /\
    Forall (fun t => base_valid (heap w') t /\
                     (takes_level (heap w) t ->
                      Trace_GetTraceLevel t w' = Ok LevelError w')) (gtracers g) /\
    output w' = output w /\ root w' = root w /\
    selectableTracers w' = selectableTracers w /\
    length (heap w') = length (heap w).
Proof.
  intros Hall.
  destruct (mute_list_spec
    [InterpreterTracer g; CommandTracer g; EquationsTracer g; SyntaxTracer g;
     GraphicsTracer g; ScriptingTracer g; CoreTracer g; EngineTracer g] w)
    as (w' & E & Hbv & Htl & Hm & Eo & Er & Et & El).
  { unfold gtracers in Hall. rewrite !Forall_cons in Hall.
    rewrite !Forall_cons. tauto. }
  exists w'. split.
  - rewrite <- E. unfold Mute. simpl.
    repeat (rewrite ?bind_run;
            destruct (Trace_SetTraceLevel _ _ _) as [[] ?|]; [|done]).
    done.
  - split_and!; try done.
    rewrite Forall_forall in Hall. apply Forall_forall. intros t Hel.
    pose proof (Hbv t (Hall t Hel)) as Hb. split; [done|]. intros Ht.
    rewrite Trace_GetTraceLevel_ok by (by apply base_valid_valid).
    f_equal. rewrite level_of_base by done. apply Hm; [done|].
    left. unfold gtracers in Hel. rewrite !elem_of_cons in Hel.
    rewrite !elem_of_cons. tauto.
Qed.

End MoreTheory.

(** * The claims at concrete inputs *)

#[local] Existing Instance plain_go.

(** C5 as stated fails: the tracer "a" of a root configured with
    gologadapter has level Info; after [ConfigureRoot] with the "nop"
    adapter and [ReplaceTracers(true)] its replacement is the no-op tracer,
    which reports Error. *)
Lemma ConfigureRoot_replacement_level_differs :
  value (exec golog_then_nop init_world) = Some tt /\
  configured (after golog_root_a) /\
  selectableTracers (after golog_root_a) !! "a" = Some (Ref 2) /\
  value (Trace_GetTraceLevel (Ref 2) (after golog_root_a)) = Some LevelInfo /\
  value (ConfigureRoot conf_nop "" [ReplaceTracers true] (after golog_root_a)) =
    Some None /\
  selectableTracers (after golog_then_nop) !! "a" = Some noOpTrace /\
  value (Trace_GetTraceLevel noOpTrace (after golog_then_nop)) = Some LevelError.
Proof. split_and!; by vm_compute. Qed.

(** Registering again what is registered: the factory stored under
    "test" is registered once more, with [replace] false; the call leaves
    the registry as it is, which maps "test" to that factory as before. *)
Lemma RegisterTraceAdapter_same_factory_again :
  value (exec register_test_twice init_world) = Some tt /\
  knownTraceAdapters (after register_test) !! "test" = Some getTT /\
  getTT <> None /\
  knownTraceAdapters (after register_test_twice) !! "test" = Some getTT /\
  ~ (knownTraceAdapters (after register_test) !! "test" = None \/
     knownTraceAdapters (after register_test) !! "test" = Some None \/
     false = true).
Proof.
  split_and!; try by vm_compute.
  vm_compute. intros [?|[?|?]]; done.
Qed.

(** The amended C5 at the tracer "a" of a root configured with
    gologadapter, reconfigured with gologadapter. *)
Lemma ConfigureRoot_replaces_tracers_witness :
  configured (after golog_root_a) /\
  match ConfigureRoot conf_go "" [ReplaceTracers true] (after golog_root_a) with
  | Ok e w' =>
      e = None /\
      exists l r',
        root w' = Ref l /\ heap w' !! l = Some (RootTracer r') /\
        adapter r' =
          Some (default BareAdapter
            (resolve (config (ReplaceTracers true (newRootTracer conf_go "")).1)
               (knownTraceAdapters (after golog_root_a)))) /\
        forall k prev,
          k <> "root" -> selectableTracers (after golog_root_a) !! k = Some prev ->
          exists ch lv,
            selectableTracers w' !! k = Some ch /\
            fresh_in (heap (after golog_root_a)) ch /\
            Trace_GetTraceLevel prev (after golog_root_a) = Ok lv (after golog_root_a) /\
            Trace_GetTraceLevel ch w' = Ok (inherited_level (adapter r') lv) w' /\
            (forall c, adapter r' = Some (ImplAdapter c) -> honours_level c ->
               Trace_GetTraceLevel ch w' = Ok lv w')
  | Panic => ~ selector_ok (after golog_root_a)
  end.
Proof.
  split; [vm_compute; exact I|].
  apply (ConfigureRoot_replaces_tracers conf_go "" [ReplaceTracers true]
    (ReplaceTracers true (newRootTracer conf_go "")).1 (after golog_root_a)).
  - apply reachable_after.
  - vm_compute. exact I.
  - reflexivity.
  - reflexivity.
Defined.

(** C7 at the lazily created root, redirected to a buffer, with the
    message "boom". *)
Lemma BareBones_redirected_witness :
  heap (after [CallRoot]) !! 0 = Some (BareBones None) /\
  exists w1,
    Trace_SetOutput (Ref 0) (Buffer 0) (after [CallRoot]) = Ok tt w1 /\
    (exists w2, Trace_Errorf (Ref 0) "boom" [] w1 = Ok tt w2 /\
       output w2 = (output w1 ++ [(Buffer 0, Sprintf "boom" [])])%list /\
       written w2 (Buffer 0) = written w1 (Buffer 0) ++ Sprintf "boom" [] /\
       heap w2 = heap w1) /\
    Sprintf "boom" [] = "boom" /\
    Trace_Debugf (Ref 0) "boom" [] w1 = Ok tt w1 /\
    Trace_Infof (Ref 0) "boom" [] w1 = Ok tt w1 /\
    Trace_GetTraceLevel (Ref 0) w1 = Ok LevelError w1 /\
    Trace_SetTraceLevel (Ref 0) LevelDebug w1 = Ok tt w1 /\
    BareBones_P 0 "key" (AString "value") w1 = Ok (Ref 0) w1.
Proof.
  split; [reflexivity|].
  apply (BareBones_redirected (after [CallRoot]) 0 None (Buffer 0) "boom" []
    LevelDebug "key" (AString "value")).
  reflexivity.
Defined.

(** C8 at the initial world and the key "test". *)
Lemma RegisterTraceAdapter_policy_witness :
  reachable init_world /\
  match RegisterTraceAdapter "test" getTT false init_world with
  | Ok _ w' =>
      (knownTraceAdapters init_world !! "test" = None \/
       knownTraceAdapters init_world !! "test" = Some None \/ false = true ->
       knownTraceAdapters w' = <["test" := getTT]> (knownTraceAdapters init_world)) /\
      (~ (knownTraceAdapters init_world !! "test" = None \/
          knownTraceAdapters init_world !! "test" = Some None \/ false = true) ->
       knownTraceAdapters w' = knownTraceAdapters init_world) /\
      (knownTraceAdapters w' !! "test" = Some getTT <->
       (knownTraceAdapters init_world !! "test" = None \/
        knownTraceAdapters init_world !! "test" = Some None \/ false = true) \/
       knownTraceAdapters init_world !! "test" = Some getTT) /\
      (forall k, k <> "test" ->
       knownTraceAdapters w' !! k = knownTraceAdapters init_world !! k) /\
      (knownTraceAdapters init_world !! "test" <> Some getTT ->
       (knownTraceAdapters w' !! "test" = Some getTT <->
        knownTraceAdapters init_world !! "test" = None \/
        knownTraceAdapters init_world !! "test" = Some None \/ false = true)) /\
      (~ (knownTraceAdapters init_world !! "test" = None \/
          knownTraceAdapters init_world !! "test" = Some None \/ false = true) ->
       knownTraceAdapters w' !! "test" = knownTraceAdapters init_world !! "test" /\
       exists f, knownTraceAdapters init_world !! "test" = Some (Some f) /\ false = false)
  | Panic => ~ selector_ok init_world
  end.
Proof.
  split; [apply reachable_init|].
  apply (RegisterTraceAdapter_policy "test" getTT false init_world).
  apply reachable_init.
Defined.

(** C9 at the name "a", with a root configured with gologadapter. *)
Lemma Select_twice_same_witness :
  exists t w1,
    Select "a" (after golog_root) = Ok t w1 /\ Select "a" w1 = Ok t w1 /\
    GetOrCreateTracer "a" (after golog_root) = Ok t w1 /\
    GetOrCreateTracer "a" w1 = Ok t w1 /\
    t <> Nil /\ selectableTracers w1 !! "a" = Some t.
Proof.
  apply (Select_twice_same "a" (after golog_root)).
  - apply reachable_after.
  - reflexivity.
  - vm_compute. exact I.
Defined.

(** C10 at the lazily created bare-bones root. *)
Lemma unconfigured_root_is_every_tracer_witness :
  ~ configured (after [CallRoot]) /\
  root (after [CallRoot]) = Ref 0 /\
  heap (after [CallRoot]) !! 0 = Some (BareBones None) /\
  exists t w',
    Root (after [CallRoot]) = Ok t w' /\ root w' = t /\ ~ configured w' /\
    selectableTracers w' = selectableTracers (after [CallRoot]) /\
    selectableTracers w' = ∅ /\
    (root (after [CallRoot]) <> Nil ->
       t = root (after [CallRoot]) /\ t <> Nil /\ w' = after [CallRoot] /\
       exists l out, t = Ref l /\ heap (after [CallRoot]) !! l = Some (BareBones out)) /\
    (root (after [CallRoot]) = Nil -> initRoot (after [CallRoot]) = false ->
       t = Ref (length (heap (after [CallRoot]))) /\
       heap w' = (heap (after [CallRoot]) ++ [BareBones None])%list /\
       heap w' !! length (heap (after [CallRoot])) = Some (BareBones None) /\
       initRoot w' = true /\ output w' = output (after [CallRoot])) /\
    forall n replace,
      GetOrCreateTracer n (after [CallRoot]) = Ok t w' /\
      NewTracer n replace (after [CallRoot]) = Ok (t, Nil) w' /\
      GetOrCreateTracer n w' = Ok t w' /\
      NewTracer n replace w' = Ok (t, Nil) w'.
Proof.
  split; [vm_compute; intros []|].
  split; [reflexivity|]. split; [reflexivity|].
  apply (unconfigured_root_is_every_tracer (after [CallRoot])).
  - apply reachable_after.
  - vm_compute. intros [].
Defined.


(** * The further properties at concrete inputs *)

#[local] Existing Instance plain_os.

(** X3 at the initial world. *)
Lemma tracing_without_selector_witness :
  RegisterTraceAdapter "go" (Some (ImplAdapter gologTracer)) true init_world =
    Ok tt (set_knownTraceAdapters
             (registered "go" (Some (ImplAdapter gologTracer)) true
                (knownTraceAdapters init_world)) init_world) /\
  GetAdapterFromConfiguration conf_go "" init_world =
    Ok (resolve conf_go (knownTraceAdapters init_world)) init_world /\
  (t ← Select "root"; Trace_emit MErrorf t "boom" []) init_world = Ok tt init_world.
Proof.
  apply (tracing_without_selector "go" (Some (ImplAdapter gologTracer)) true
    conf_go "" MErrorf "boom" [] init_world).
  reflexivity.
Defined.

(** X9 at the tracer "a" of a root configured with gologadapter, which is
    at level Info, and [Debugf]. *)
Lemma gologTracer_filter_witness :
  Trace_emit MDebugf (Ref 2) "boom" [] (after golog_root_a) =
    Ok tt (if (level_num (method_level MDebugf) <=? level_num LevelInfo)%nat
           then set_output
                  (output (after golog_root_a) ++
                   [(os_Stderr,
                     log_line (logLevelPrefix (method_level MDebugf)) (Sprintf "boom" []))])
                  (after golog_root_a)
           else after golog_root_a) /\
  exists o, Trace_Errorf (Ref 2) "boom" [] (after golog_root_a) =
    Ok tt (set_output (output (after golog_root_a) ++ [o]) (after golog_root_a)).
Proof.
  apply (gologTracer_filter LevelInfo os_Stderr 2 MDebugf "boom" [] (after golog_root_a)).
  reflexivity.
Defined.


(** X12 at the tracer "a". *)
Lemma named_tracers_usable_witness :
  Ref 2 <> Nil /\ configured (after golog_root_a) /\
  GetTracer "a" (after golog_root_a) = Ok (Ref 2) (after golog_root_a) /\
  Trace_GetTraceLevel (Ref 2) (after golog_root_a) =
    Ok (level_of (heap (after golog_root_a)) (Ref 2)) (after golog_root_a) /\
  forall m msg args, exists o,
    Trace_emit m (Ref 2) msg args (after golog_root_a) =
      Ok tt (set_output o (after golog_root_a)).
Proof.
  apply (named_tracers_usable (after golog_root_a) "a" (Ref 2)).
  - apply reachable_after.
  - reflexivity.
Defined.

(** X13 at the first call of [Root]. *)
Lemma registry_and_selector_frame_witness :
  keeps init_world (after [CallRoot]).
Proof.
  apply (registry_and_selector_frame CallRoot init_world (after [CallRoot])).
  - apply reachable_init.
  - reflexivity.
Defined.

(** X14 at a new name under a root configured with gologadapter. *)
Lemma NewTracer_stores_witness :
  exists trace w',
    NewTracer "b" false (after golog_root_a) =
      Ok (trace, default Nil (selectableTracers (after golog_root_a) !! "b")) w' /\
    trace <> Nil /\ fresh_in (heap (after golog_root_a)) trace /\
    GetTracer "b" w' =
      Ok (match selectableTracers (after golog_root_a) !! "b" with
          | Some old => if false then trace else old
          | None => trace
          end) w' /\
    (forall k, k <> "b" ->
       selectableTracers w' !! k = selectableTracers (after golog_root_a) !! k) /\
    root w' = root (after golog_root_a).
Proof.
  apply (NewTracer_stores "b" false (after golog_root_a)).
  - apply reachable_after.
  - vm_compute. exact I.
Defined.


(** X15 at the name "a" under a root configured with gologadapter and a
    configuration without a level for "a". *)
Lemma named_tracer_level_witness :
  exists t w', GetOrCreateTracer "a" (after golog_root) = Ok t w' /\
    selectableTracers w' !! "a" = Some t /\
    Trace_GetTraceLevel t w' =
      Ok (TraceLevelFromString (getValue conf_go "" "a")) w' /\
    (forall v, v <> "" ->
       conf_go ("" ++ "a") = v \/
       (conf_go ("" ++ "a") = "" /\
        (conf_go ("" ++ "." ++ "a") = v \/
         (conf_go ("" ++ "." ++ "a") = "" /\
          conf_go ("" ++ "/" ++ "a") = v))) ->
       Trace_GetTraceLevel t w' = Ok (TraceLevelFromString v) w') /\
    (conf_go ("" ++ "a") = "" ->
     conf_go ("" ++ "." ++ "a") = "" ->
     conf_go ("" ++ "/" ++ "a") = "" ->
     Trace_GetTraceLevel t w' = Ok LevelInfo w').
Proof.
  apply (named_tracer_level "a" gologTracer 1
    {| rt_Trace := Ref 0; config := conf_go; prefixKey := ""; optAdapterKey := "";
       adapter := Some (ImplAdapter gologTracer); replaceChildren := false |}
    (after golog_root)).
  - apply reachable_after.
  - reflexivity.
  - reflexivity.
  - reflexivity.
  - intros l cur. reflexivity.
  - reflexivity.
Defined.

(** X16 at a root configured with gologadapter, before the facade is used. *)
Lemma Select_root_is_a_named_tracer_witness :
  exists t w', Select "root" (after golog_root) = Ok t w' /\
    t <> root w' /\ t <> Nil /\ fresh_in (heap (after golog_root)) t /\
    Select "root" w' = Ok t w' /\
    Root w' = Ok (root (after golog_root)) w' /\ root w' = root (after golog_root).
Proof.
  apply (Select_root_is_a_named_tracer (after golog_root)).
  - apply reachable_after.
  - vm_compute. exact I.
  - reflexivity.
  - reflexivity.
Defined.

(** X17 with trace2go's selector installed at the start and the message
    "boom". *)
Lemma facade_on_bare_root_witness :
  exists l out w1,
    Root (after [CallSetTraceSelector (Some trace2goSelector)]) = Ok (Ref l) w1 /\
    heap w1 !! l = Some (BareBones out) /\
    Infof "boom" [] (after [CallSetTraceSelector (Some trace2goSelector)]) = Ok tt w1 /\
    Debugf "boom" [] (after [CallSetTraceSelector (Some trace2goSelector)]) = Ok tt w1 /\
    Errorf "boom" [] (after [CallSetTraceSelector (Some trace2goSelector)]) =
      Ok tt (set_output
        (output w1 ++
         [match out with
          | Some wr => (wr, Sprintf "boom" [])
          | None => (os_Stderr, Sprintf ("[ERROR] " ++ "boom" ++ nl) [])
          end]) w1).
Proof.
  apply (facade_on_bare_root "boom" [] (after [CallSetTraceSelector (Some trace2goSelector)])).
  - apply reachable_after.
  - vm_compute. intros [].
  - right. reflexivity.
  - reflexivity.
Defined.

(** X18 at the start, with gologadapter registered and no level for the
    root in the configuration. *)
Lemma ConfigureRoot_root_level_witness :
  exists w',
    ConfigureRoot conf_go "" []
      (after [CallRegisterTraceAdapter "go" (Some (ImplAdapter gologTracer)) true]) =
      Ok None w' /\
    configured w' /\
    Trace_GetTraceLevel (root w') w' =
      Ok (init_level
            (Some (default BareAdapter
               (resolve (config (newRootTracer conf_go ""))
                  (knownTraceAdapters
                     (after [CallRegisterTraceAdapter "go"
                               (Some (ImplAdapter gologTracer)) true])))))
            (getValue (config (newRootTracer conf_go ""))
               (prefixKey (newRootTracer conf_go "")) "root")) w'.
Proof.
  apply (ConfigureRoot_root_level conf_go "" [] (newRootTracer conf_go "")
    (after [CallRegisterTraceAdapter "go" (Some (ImplAdapter gologTracer)) true])).
  - apply reachable_after.
  - vm_compute. exact I.
  - reflexivity.
Defined.

(** X19 at a root configured with gologadapter that has the tracer "a",
    configured again without options. *)
Lemma ConfigureRoot_keeps_named_tracers_witness :
  exists w', ConfigureRoot conf_go "" [] (after golog_root_a) = Ok None w' /\
    forall k, k <> "root" ->
      selectableTracers w' !! k = selectableTracers (after golog_root_a) !! k /\
      forall t, selectableTracers (after golog_root_a) !! k = Some t ->
        Trace_GetTraceLevel t w' = Ok (level_of (heap (after golog_root_a)) t) w' /\
        Trace_GetTraceLevel t (after golog_root_a) =
          Ok (level_of (heap (after golog_root_a)) t) (after golog_root_a).
Proof.
  apply (ConfigureRoot_keeps_named_tracers conf_go "" [] (newRootTracer conf_go "")
    (after golog_root_a)).
  - apply reachable_after.
  - vm_compute. left. intros Hx. discriminate Hx.
  - reflexivity.
  - reflexivity.
Defined.

(** X20 after the lazy creation of the root. *)
Lemma ConfigureRoot_after_Teardown_witness :
  exists w1 w', Teardown (after [CallRoot]) = Ok tt w1 /\
    ConfigureRoot conf_go "" [] w1 = Ok None w' /\
    configured w' /\ root w' <> Nil /\ Root w' = Ok (root w') w' /\
    selectableTracers w' = ∅ /\ selector w' = None.
Proof.
  apply (ConfigureRoot_after_Teardown conf_go "" [] (newRootTracer conf_go "")
    (after [CallRoot])).
  reflexivity.
Defined.

(** X21 at the initial world, with gologadapter registered as "go". *)
Lemma registered_adapter_is_resolved_witness :
  exists w1,
    RegisterTraceAdapter "go" (Some (ImplAdapter gologTracer)) true init_world = Ok tt w1 /\
    GetAdapterFromConfiguration conf_go "" w1 = Ok (Some (ImplAdapter gologTracer)) w1.
Proof.
  apply (registered_adapter_is_resolved "go" (ImplAdapter gologTracer) true conf_go ""
    init_world).
  - apply reachable_init.
  - exact I.
  - intros Hx. discriminate Hx.
  - left. reflexivity.
  - left. reflexivity.
Defined.

(** X22 at the initial world, with both options. *)
Lemma builtin_options_never_err_witness :
  exists r0 w',
    apply_options [ReplaceTracers true; AdapterKey "my.adapter"]
      (newRootTracer conf_go "") = (r0, None) /\
    config r0 = conf_go /\ prefixKey r0 = "" /\
    ConfigureRoot conf_go "" [ReplaceTracers true; AdapterKey "my.adapter"] init_world =
      Ok None w' /\
    configured w'.
Proof.
  apply (builtin_options_never_err conf_go "" [ReplaceTracers true; AdapterKey "my.adapter"]
    init_world).
  - apply reachable_init.
  - exact I.
  - apply Forall_cons. split; [left; exists true; reflexivity|].
    apply Forall_cons. split; [right; exists "my.adapter"; reflexivity|].
    apply Forall_nil_2.
Defined.

(** X23 at the initial world, for the names "a" and "b". *)
Lemma QuickConfig_traces_at_Debug_witness :
  exists w', QuickConfig (fun s _ => s) 0 ["a"; "b"] init_world = Ok tt w' /\
    selector w' = Some trace2goSelector /\
    knownTraceAdapters w' !! "test" = Some (gotesting_GetAdapter (fun s _ => s) 0) /\
    configured w' /\
    Trace_GetTraceLevel (root w') w' = Ok LevelDebug w' /\
    forall sel, sel ∈ ["a"; "b"] -> selectableTracers w' !! sel = None ->
      exists l w'', Select sel w' = Ok (Ref l) w'' /\
        heap w'' !! l =
          Some (Tracer (gotestingTracer (fun s _ => s) 0) LevelDebug (Buffer 0)) /\
        selectableTracers w'' !! sel = Some (Ref l) /\
        Trace_GetTraceLevel (Ref l) w'' = Ok LevelDebug w''.
Proof.
  apply (QuickConfig_traces_at_Debug (fun s _ => s) 0 ["a"; "b"] init_world).
  - apply reachable_init.
  - exact I.
Defined.

(** X26 at the initial world, with the destination "stdout". *)
Lemma AppenderFromConfig_writer_witness :
  exists wr err w',
    AppenderFromConfig (Conf {[ "tracing.destination" := "stdout" ]}) init_world =
      Ok (WC wr, err) w' /\
    (Conf {[ "tracing.destination" := "stdout" ]} "tracing.destination" = "" ->
     wr = os_Stderr /\ err = None /\ w' = init_world) /\
    (err <> None -> wr = os_Stderr /\
       exists d e,
         appender_Destination
           (Conf {[ "tracing.destination" := "stdout" ]} "tracing.destination") =
           (d, Some e)) /\
    (err = None ->
     Conf {[ "tracing.destination" := "stdout" ]} "tracing.destination" <> "" ->
     appender_Destination
       (Conf {[ "tracing.destination" := "stdout" ]} "tracing.destination") =
       (WC wr, None)) /\
    facade_post init_world w'.
Proof.
  apply (AppenderFromConfig_writer (Conf {[ "tracing.destination" := "stdout" ]})
    init_world).
  - apply reachable_init.
  - exact I.
Defined.

(** X28 at eight gologadapter tracers at level Debug. *)
Lemma Mute_sets_Error_witness :
  Forall (fun t => Trace_GetTraceLevel t (set_heap (replicate 8 (Tracer gologTracer LevelDebug os_Stderr)) init_world) = Ok LevelDebug (set_heap (replicate 8 (Tracer gologTracer LevelDebug os_Stderr)) init_world) /\ takes_level (heap (set_heap (replicate 8 (Tracer gologTracer LevelDebug os_Stderr)) init_world)) t)
    (gtracers 
      {| EquationsTracer := Ref 0; InterpreterTracer := Ref 1; SyntaxTracer := Ref 2;
        CommandTracer := Ref 3; GraphicsTracer := Ref 4; ScriptingTracer := Ref 5;
        CoreTracer := Ref 6; EngineTracer := Ref 7 |}) /\
  exists w',
    Mute 
      {| EquationsTracer := Ref 0; InterpreterTracer := Ref 1; SyntaxTracer := Ref 2;
        CommandTracer := Ref 3; GraphicsTracer := Ref 4; ScriptingTracer := Ref 5;
        CoreTracer := Ref 6; EngineTracer := Ref 7 |} (set_heap (replicate 8 (Tracer gologTracer LevelDebug os_Stderr)) init_world) = Ok tt w' /\
    Forall (fun t => base_valid (heap w') t /\
                     (takes_level (heap (set_heap (replicate 8 (Tracer gologTracer LevelDebug os_Stderr)) init_world)) t ->
                      Trace_GetTraceLevel t w' = Ok LevelError w')) (gtracers 
      {| EquationsTracer := Ref 0; InterpreterTracer := Ref 1; SyntaxTracer := Ref 2;
        CommandTracer := Ref 3; GraphicsTracer := Ref 4; ScriptingTracer := Ref 5;
        CoreTracer := Ref 6; EngineTracer := Ref 7 |}) /\
    output w' = output (set_heap (replicate 8 (Tracer gologTracer LevelDebug os_Stderr)) init_world) /\ root w' = root (set_heap (replicate 8 (Tracer gologTracer LevelDebug os_Stderr)) init_world) /\
    selectableTracers w' = selectableTracers (set_heap (replicate 8 (Tracer gologTracer LevelDebug os_Stderr)) init_world) /\
    length (heap w') = length (heap (set_heap (replicate 8 (Tracer gologTracer LevelDebug os_Stderr)) init_world)).
Proof.
  split.
  - repeat (apply Forall_cons; split; [split; [reflexivity|intros l cur; reflexivity]|]).
    apply Forall_nil_2.
  - apply (Mute_sets_Error 
      {| EquationsTracer := Ref 0; InterpreterTracer := Ref 1; SyntaxTracer := Ref 2;
        CommandTracer := Ref 3; GraphicsTracer := Ref 4; ScriptingTracer := Ref 5;
        CoreTracer := Ref 6; EngineTracer := Ref 7 |} (set_heap (replicate 8 (Tracer gologTracer LevelDebug os_Stderr)) init_world)).
    repeat (apply Forall_cons; split; [exact I|]).
    apply Forall_nil_2.
Defined.
